(** * FoodiFind: the Discovery Service, the Mock Data Generator and the
      weekly refresh, embedded from [services/geminiService.ts], [App.tsx]
      and [types.ts]; further the discovery run and the search of
      [App.tsx], and what [components/SpotCard.tsx] and
      [components/DetailPanel.tsx] compute.

    Conventions of the embedding.

    - A JavaScript [number] is [NaN] or an exact rational: finite doubles are
      rationals, arithmetic is exact (rounding is not modelled), infinities
      are not represented.
    - A value of TypeScript type [any] (the parsed upstream payload and
      everything copied out of it) is a [jsval]; a parameter with a declared
      type ([query: string], [currentLat: number]) has that type.
    - A string is a sequence of code units below 256; case folding and
      trimming act on them as [toLowerCase] and [trim] do on these code
      units.
    - [Date.now()], [new Date()], [Math.random()] and the generative backend
      are read from a [World]: the k-th reading of each is a function of k,
      and the [State] counts the readings taken so far.
    - [lastUpdated] holds the instant (milliseconds since the epoch) that the
      ISO string written by [new Date().toISOString()] denotes.
    - An exception is an outcome [Throw]; [try]/[catch] is [try_catch].
    - A React state setter takes effect at once; an [async] function is cut
      into the stretches between its [await]s, and a callback handed to
      [setTimeout] is a value that can be run in any later state. *)

From Stdlib Require Import ZArith QArith Qround String Ascii List.
From Stdlib Require Import DecimalString DecimalNat DecimalZ DecimalFacts Lia Lqa.
From stdpp Require Import base option list gmap strings.

Open Scope string_scope.

(* ================================================================== *)
(** ** JavaScript values and the coercions the sources rely on *)
(* ================================================================== *)

Module JS.

Set Warnings "-register-all".

Inductive number := NaN | Num (q : Q).

Definition num_add (a b : number) : number :=
  match a, b with
  | Num x, Num y => Num (x + y)
  | _, _ => NaN
  end.

Definition num_sub (a b : number) : number :=
  match a, b with
  | Num x, Num y => Num (x - y)
  | _, _ => NaN
  end.

(** [Math.min(a, b)]: [NaN] if either argument is [NaN]. *)
Definition num_min (a b : number) : number :=
  match a, b with
  | Num x, Num y => if Qle_bool x y then Num x else Num y
  | _, _ => NaN
  end.

Definition num_of_Z (z : Z) : number := Num (inject_Z z).

Inductive jsval :=
| VUndef
| VNull
| VBool (b : bool)
| VNum (n : number)
| VStr (s : string)
| VArr (items : list jsval)
| VObj (fields : list (string * jsval)).

(** ToBoolean: [undefined], [null], [false], [0], [NaN] and the empty
    string are falsy; every array and object is truthy. *)
Definition truthy (v : jsval) : bool :=
  match v with
  | VUndef | VNull => false
  | VBool b => b
  | VNum NaN => false
  | VNum (Num q) => negb (Qeq_bool q 0)
  | VStr s => negb (String.eqb s "")
  | VArr _ | VObj _ => true
  end.

(** [a || b] on already evaluated operands. Where the right operand has
    an effect the sources' short circuit is written out at the use. *)
Definition or_else (a b : jsval) : jsval := if truthy a then a else b.

Fixpoint assoc (k : string) (fields : list (string * jsval)) : option jsval :=
  match fields with
  | [] => None
  | (k', v) :: rest => if String.eqb k k' then Some v else assoc k rest
  end.

Definition has_own (k : string) (fields : list (string * jsval)) : bool :=
  match assoc k fields with Some _ => true | None => false end.

(** [v.k] for the property names the service reads ([name], [spots],
    [latitude], ...), none of which is a member of a built-in prototype:
    reading a property of [undefined] or [null] is a TypeError ([None]);
    an object yields its own property or [undefined]; every other value
    yields [undefined]. *)
Definition get (v : jsval) (k : string) : option jsval :=
  match v with
  | VUndef | VNull => None
  | VObj fields => Some (default VUndef (assoc k fields))
  | _ => Some VUndef
  end.

Definition Z_toString (z : Z) : string := NilZero.string_of_int (Z.to_int z).
Definition nat_toString (n : nat) : string := NilZero.string_of_uint (Nat.to_uint n).

(** [toLowerCase] of one code unit: it folds A-Z, and U+00C0-U+00DE
    without the multiplication sign U+00D7. *)
Definition lower_unit (c : ascii) : ascii :=
  let n := nat_of_ascii c in
  if ((65 <=? n)%nat && (n <=? 90)%nat)
     || ((192 <=? n)%nat && (n <=? 222)%nat && negb (n =? 215)%nat)
  then ascii_of_nat (n + 32) else c.

Fixpoint toLowerCase (s : string) : string :=
  match s with
  | EmptyString => EmptyString
  | String c s' => String (lower_unit c) (toLowerCase s')
  end.

(** The white space and line terminators that [trim] strips:
    U+0009-U+000D, U+0020 and U+00A0. *)
Definition is_space (c : ascii) : bool :=
  let n := nat_of_ascii c in
  ((9 <=? n)%nat && (n <=? 13)%nat) || (n =? 32)%nat || (n =? 160)%nat.

Fixpoint trimStart (s : string) : string :=
  match s with
  | EmptyString => EmptyString
  | String c s' => if is_space c then trimStart s' else s
  end.

Fixpoint trimEnd (s : string) : string :=
  match s with
  | EmptyString => EmptyString
  | String c s' =>
      let t := trimEnd s' in
      if is_space c && String.eqb t "" then EmptyString else String c t
  end.

Definition trim (s : string) : string := trimEnd (trimStart s).

(** [s.includes(sub)] *)
Fixpoint includes (s sub : string) : bool :=
  String.prefix sub s
  || match s with
     | EmptyString => false
     | String _ s' => includes s' sub
     end.

(** [s.substring(n)] *)
Fixpoint substring_from (n : nat) (s : string) : string :=
  match n, s with
  | O, _ => s
  | S n', String _ s' => substring_from n' s'
  | S _, EmptyString => EmptyString
  end.

(** The conversions between numbers and text that the embedding leaves to
    the host: [Number::toString(radix)] and [StringToNumber]. *)
Record Conversions := {
  Number_toString : Z -> number -> string;
  String_toNumber : string -> number
}.

Section Coercions.
Context (conv : Conversions).

(** ToString. An array is joined with commas, [undefined] and [null]
    elements giving the empty string. A parsed object has no callable
    [toString] of its own: it inherits [Object.prototype.toString]
    unless an own property of that name hides it, in which case
    OrdinaryToPrimitive finds no method and throws ([None]). *)
Fixpoint ToString (v : jsval) : option string :=
  match v with
  | VUndef => Some "undefined"
  | VNull => Some "null"
  | VBool true => Some "true"
  | VBool false => Some "false"
  | VNum n => Some (Number_toString conv 10 n)
  | VStr s => Some s
  | VArr items =>
      (fix join (first : bool) (l : list jsval) : option string :=
         match l with
         | [] => Some ""
         | x :: rest =>
             sx ← match x with
                  | VUndef | VNull => Some ""
                  | _ => ToString x
                  end;
             srest ← join false rest;
             Some ((if first then "" else ",") +:+ sx +:+ srest)
         end) true items
  | VObj fields =>
      if has_own "toString" fields then None else Some "[object Object]"
  end.

(** ToPrimitive: the result is never an array or an object. *)
Definition ToPrimitive (v : jsval) : option jsval :=
  match v with
  | VArr _ | VObj _ => VStr <$> ToString v
  | _ => Some v
  end.

(** ToNumber of a primitive. *)
Definition prim_ToNumber (p : jsval) : number :=
  match p with
  | VUndef => NaN
  | VNull => Num 0
  | VBool true => Num 1
  | VBool false => Num 0
  | VNum n => n
  | VStr s => String_toNumber conv s
  | VArr _ | VObj _ => NaN
  end.

Definition ToNumber (v : jsval) : option number :=
  prim_ToNumber <$> ToPrimitive v.

Definition is_string (v : jsval) : bool :=
  match v with VStr _ => true | _ => false end.

(** [a + b] *)
Definition add (a b : jsval) : option jsval :=
  lp ← ToPrimitive a;
  rp ← ToPrimitive b;
  if is_string lp || is_string rp then
    ls ← ToString lp;
    rs ← ToString rp;
    Some (VStr (ls +:+ rs))
  else Some (VNum (num_add (prim_ToNumber lp) (prim_ToNumber rp))).

(** [Math.min(a, v)] for a number [a] *)
Definition Math_min (a : number) (v : jsval) : option number :=
  num_min a <$> ToNumber v.

End Coercions.

(** [Math.floor] of a finite number *)
Definition Math_floor (q : Q) : Z := Qfloor q.

End JS.

Import JS.
Arguments Num q%_Q.

(* ================================================================== *)
(** ** The data model of [types.ts] *)
(* ================================================================== *)

(** The fields that the service copies out of the upstream payload hold
    whatever the payload held, so they are [jsval]s; [id], [sourceCount]
    and [lastUpdated] are always computed by the service itself. *)

Record Coordinates := {
  lat : jsval;
  lng : jsval
}.

Record InfluencerData := {
  summary : jsval;
  sourceCount : number;
  topMentionedBy : jsval
}.

(** A [ViralPost] object literal. *)
Definition ViralPost (handle caption likes imageUrl : string) (isReel : bool) : jsval :=
  VObj [("handle", VStr handle); ("caption", VStr caption); ("likes", VStr likes);
        ("imageUrl", VStr imageUrl); ("isReel", VBool isReel)].

Record FoodSpot := {
  id : string;
  name : jsval;
  cuisine : jsval;
  address : jsval;
  priceRange : jsval;
  coordinates : Coordinates;
  sentimentScore : jsval;
  trendingScore : jsval;
  popularityVelocity : jsval;
  bestDishes : jsval;
  description : jsval;
  aiConfidence : jsval;
  influencerData : InfluencerData;
  viralPosts : jsval;
  lastUpdated : Z
}.

Record DiscoveryResult := {
  spots : list FoodSpot;
  center : Coordinates;
  locationName : jsval
}.

Inductive AgentType := IDLE | DISCOVERY | SEARCH | RANKING | VALIDATION | REFRESH.

Record AgentLog := {
  log_id : string;
  timestamp : Z;
  message : string;
  agent : AgentType
}.

(* ================================================================== *)
(** ** The world the program runs in, its state, and the monad *)
(* ================================================================== *)

(** What [await ai.models.generateContent(...)] does: reject, or resolve
    to a response whose [text] is a string or [undefined]. *)
Inductive reply := Rejected | Resolved (text : option string).

Record World := {
  API_KEY : option string;                  (* process.env.API_KEY *)
  generateContent : nat -> string -> reply; (* k-th call, its prompt *)
  parse : string -> option jsval;           (* JSON.parse; None: SyntaxError *)
  Math_random : nat -> Q;                   (* k-th draw *)
  Date_now : nat -> Z;                      (* k-th reading of the clock *)
  conv : Conversions
}.

Inductive error := TypeError | SyntaxError | RequestFailed.

Inductive console_entry :=
| console_warn (msg : string)
| console_error (msg : string) (e : error).

(** The React state of [App] that the modelled handlers touch. *)
Record AppState := {
  heldSpots : list FoodSpot;          (* spots *)
  selectedSpot : option FoodSpot;
  activeAgent : AgentType;
  agentLogs : list AgentLog
}.

Record State := {
  requestCache : gmap string DiscoveryResult;
  requests : nat;                 (* calls to generateContent so far *)
  draws : nat;                    (* Math.random() draws so far *)
  ticks : nat;                    (* readings of the clock so far *)
  console : list console_entry;
  ui : AppState
}.

Inductive Outcome (A : Type) :=
| Ok (a : A)
| Throw (e : error).
Arguments Ok {A} a.
Arguments Throw {A} e.

Definition M (A : Type) : Type := World -> State -> Outcome A * State.

#[global] Instance M_ret : MRet M := fun A a _ s => (Ok a, s).

#[global] Instance M_bind : MBind M := fun A B f m w s =>
  match m w s with
  | (Ok a, s') => f a w s'
  | (Throw e, s') => (Throw e, s')
  end.

Definition throw {A} (e : error) : M A := fun _ s => (Throw e, s).

(** [try { body } catch (error) { handler(error) }]: effects of the body up
    to the throw are kept. *)
Definition try_catch {A} (body : M A) (handler : error -> M A) : M A :=
  fun w s =>
    match body w s with
    | (Ok a, s') => (Ok a, s')
    | (Throw e, s') => handler e w s'
    end.

Definition or_throw {A} (e : error) (o : option A) : M A :=
  match o with Some a => mret a | None => throw e end.

Definition world : M World := fun w s => (Ok w, s).
Definition get_state : M State := fun _ s => (Ok s, s).
Definition modify (f : State -> State) : M unit := fun _ s => (Ok tt, f s).

Definition with_cache (c : gmap string DiscoveryResult) (s : State) : State :=
  {| requestCache := c; requests := requests s; draws := draws s;
     ticks := ticks s; console := console s; ui := ui s |}.
Definition with_requests (n : nat) (s : State) : State :=
  {| requestCache := requestCache s; requests := n; draws := draws s;
     ticks := ticks s; console := console s; ui := ui s |}.
Definition with_draws (n : nat) (s : State) : State :=
  {| requestCache := requestCache s; requests := requests s; draws := n;
     ticks := ticks s; console := console s; ui := ui s |}.
Definition with_ticks (n : nat) (s : State) : State :=
  {| requestCache := requestCache s; requests := requests s; draws := draws s;
     ticks := n; console := console s; ui := ui s |}.
Definition with_console (c : list console_entry) (s : State) : State :=
  {| requestCache := requestCache s; requests := requests s; draws := draws s;
     ticks := ticks s; console := c; ui := ui s |}.
Definition with_ui (u : AppState) (s : State) : State :=
  {| requestCache := requestCache s; requests := requests s; draws := draws s;
     ticks := ticks s; console := console s; ui := u |}.

(** [Math.random()] *)
Definition random : M Q := fun w s => (Ok (Math_random w (draws s)), with_draws (S (draws s)) s).

(** [Date.now()], and the instant of [new Date()] *)
Definition now : M Z := fun w s => (Ok (Date_now w (ticks s)), with_ticks (S (ticks s)) s).

Definition log (e : console_entry) : M unit :=
  modify (fun s => with_console (console s ++ [e]) s).

(** The quotation mark, for string templates that contain one. *)
Definition dquote : string := String (ascii_of_nat 34) EmptyString.

(* ================================================================== *)
(** ** services/geminiService.ts *)
(* ================================================================== *)

(** *** Fallback Mock Data generator *)

Definition mockSpots (query : string) (lat lng : number) : M DiscoveryResult :=
  let q := toLowerCase query in
  let '(centerLat, centerLng, locName) :=
    if includes q "paris" then (Num 48.8566, Num 2.3522, "Paris, France")
    else if includes q "new york" then (Num 40.7128, Num (-74.0060), "New York, USA")
    else if includes q "kochi" || String.eqb query "Kochi, Kerala"
         then (Num 9.9312, Num 76.2673, "Kochi, Kerala")
    else (lat, lng, query) in
  let seed := String.length locName in
  let paris := includes q "paris" in
  t1 ← now;
  t2 ← now;
  t3 ← now;
  t4 ← now;
  mret {|
    spots := [
      {| id := "mock-1-" +:+ nat_toString seed;
         name := VStr (if paris then "Le Bistrot" else "Paragon Restaurant");
         cuisine := VStr (if paris then "French" else "Kerala / Malabar");
         address := VStr (if paris then "Rue de Rivoli" else "Edappally");
         priceRange := VStr "Medium";
         coordinates := {| lat := VNum (num_add centerLat (Num 0.002));
                           lng := VNum (num_sub centerLng (Num 0.003)) |};
         sentimentScore := VNum (Num 98);
         trendingScore := VNum (Num 95);
         popularityVelocity := VNum (Num 12);
         bestDishes :=
           if paris then VArr [VStr "Escargots"; VStr "Steak Frites"]
           else VArr [VStr "Fish Mango Curry"; VStr "Chicken Biryani"; VStr "Elaneer Payasam"];
         description :=
           VStr (if paris then "Classic Parisian dining experience."
                 else "Legendary culinary landmark famous for authentic Malabar biryani.");
         aiConfidence := VNum (Num 99);
         influencerData :=
           {| summary := VStr "Must-visit for authentic flavors";
              sourceCount := Num 540;
              topMentionedBy := VArr [VStr "@eat_local"; VStr "@foodie_daily"] |};
         viralPosts := VArr [
           ViralPost "@top_eats" "The BEST in town! üçõüî• The biryani is to die for." "45.2k"
             "https://images.unsplash.com/photo-1633945274405-b6c8069047b0?w=500&q=80" true;
           ViralPost "@travel_eats_kerala" "Crowd is crazy but worth the wait. #paragon" "8.1k"
             "https://images.unsplash.com/photo-1589302168068-964664d93dc0?w=500&q=80" false ];
         lastUpdated := t1 |};
      {| id := "mock-2-" +:+ nat_toString seed;
         name := VStr (if paris then "Cafe de Flore" else "Kashi Art Cafe");
         cuisine := VStr "Cafe";
         address := VStr (if paris then "Saint-Germain" else "Fort Kochi");
         priceRange := VStr "Medium";
         coordinates := {| lat := VNum (num_sub centerLat (Num 0.004));
                           lng := VNum (num_sub centerLng (Num 0.012)) |};
         sentimentScore := VNum (Num 94);
         trendingScore := VNum (Num 88);
         popularityVelocity := VNum (Num 5);
         bestDishes := VArr [VStr "Chocolate Cake"; VStr "Coffee"];
         description := VStr "Artsy ambiance perfect for casual meetups.";
         aiConfidence := VNum (Num 96);
         influencerData :=
           {| summary := VStr "Instagrammable art spots";
              sourceCount := Num 320;
              topMentionedBy := VArr [VStr "@travel_diaries"] |};
         viralPosts := VArr [
           ViralPost "@artandfood" "Coffee + Art = Perfect Sunday üé®‚òïÔ∏è" "12k"
             "https://images.unsplash.com/photo-1554118811-1e0d58224f24?w=500&q=80" false;
           ViralPost "@cafe_vibes" "This chocolate cake is illegal üç´" "5.4k"
             "https://images.unsplash.com/photo-1578985545062-69928b1d9587?w=500&q=80" true ];
         lastUpdated := t2 |};
      {| id := "mock-3-" +:+ nat_toString seed;
         name := VStr (if paris then "L'Ambroisie" else "Grand Pavilion");
         cuisine := VStr (if paris then "Haute Cuisine" else "Seafood");
         address := VStr (if paris then "Place des Vosges" else "MG Road");
         priceRange := VStr "High";
         coordinates := {| lat := VNum (num_add centerLat (Num 0.005));
                           lng := VNum (num_add centerLng (Num 0.002)) |};
         sentimentScore := VNum (Num 90);
         trendingScore := VNum (Num 82);
         popularityVelocity := VNum (Num (-1));
         bestDishes := VArr [VStr "Seafood Platter"; VStr "Signature Curry"];
         description := VStr "Classic fine dining spot known for traditional preparation.";
         aiConfidence := VNum (Num 92);
         influencerData :=
           {| summary := VStr "Consistent quality over decades";
              sourceCount := Num 150;
              topMentionedBy := VArr [VStr "@chef_fan"] |};
         viralPosts := VArr [
           ViralPost "@fine_dining" "Dinner date perfection. üç∑" "8.5k"
             "https://images.unsplash.com/photo-1599084993091-1cb5c0721cc6?w=500&q=80" false ];
         lastUpdated := t3 |};
      {| id := "mock-4-" +:+ nat_toString seed;
         name := VStr (if paris then "Big Mamma" else "District 7 Restro Cafe");
         cuisine := VStr "Italian/Fusion";
         address := VStr (if paris then "Oberkampf" else "Vyttila");
         priceRange := VStr "Medium";
         coordinates := {| lat := VNum (num_sub centerLat (Num 0.001));
                           lng := VNum (num_add centerLng (Num 0.008)) |};
         sentimentScore := VNum (Num 88);
         trendingScore := VNum (Num 96);
         popularityVelocity := VNum (Num 25);
         bestDishes := VArr [VStr "Truffle Pasta"; VStr "Loaded Burger"];
         description := VStr "Trending spot for heavy meals and youth crowd vibes.";
         aiConfidence := VNum (Num 85);
         influencerData :=
           {| summary := VStr "Viral food challenges";
              sourceCount := Num 410;
              topMentionedBy := VArr [VStr "@food_hunter"] |};
         viralPosts := VArr [
           ViralPost "@burger_king_local" "Can you finish this? üçîüçî" "22k"
             "https://images.unsplash.com/photo-1568901346375-23c9450c58cd?w=500&q=80" true;
           ViralPost "@food_challenges" "Challenge accepted! üî•" "15k"
             "https://images.unsplash.com/photo-1550547660-d9450f859349?w=500&q=80" true ];
         lastUpdated := t4 |} ];
    center := {| lat := VNum centerLat; lng := VNum centerLng |};
    locationName := VStr locName
  |}.

(** *** The in-memory cache

    [requestCache] is created by the object literal [{}], so it inherits
    from [Object.prototype]: reading a key that the cache does not own
    yields the inherited member of that name, if there is one. All of
    them are functions or objects, hence truthy. *)

Definition Object_prototype : list string :=
  ["constructor"; "__defineGetter__"; "__defineSetter__"; "hasOwnProperty";
   "__lookupGetter__"; "__lookupSetter__"; "isPrototypeOf";
   "propertyIsEnumerable"; "toString"; "valueOf"; "__proto__"; "toLocaleString"].

(** What a read of [requestCache[k]] can yield besides [undefined]: a
    stored [DiscoveryResult], or a member of [Object.prototype] (which is
    not a [DiscoveryResult]: it has no [spots], [center] or
    [locationName]). *)
Inductive cached :=
| Own (r : DiscoveryResult)
| Inherited (member : string).

Definition cache_get (c : gmap string DiscoveryResult) (k : string) : option cached :=
  match c !! k with
  | Some r => Some (Own r)
  | None => if existsb (String.eqb k) Object_prototype then Some (Inherited k) else None
  end.

(** [requestCache[k] = r]. It is only reached after [requestCache[k]] was
    read as falsy, so never for an inherited key. *)
Definition cache_put (k : string) (r : DiscoveryResult) : M unit :=
  modify (fun s => with_cache (<[k := r]> (requestCache s)) s).

Definition cacheKey (query : string) : string := trim (toLowerCase query).

(** *** The upstream call *)

Definition prompt (query : string) : string :=
  "
      You are an autonomous AI food discovery agent.
      
      Task:
      1. Analyze the query " +:+ dquote +:+ query +:+ dquote +:+
  ". If it is a location (e.g., " +:+ dquote +:+ "Tokyo" +:+ dquote +:+
  "), identify its geographic center (lat/lng). If it is a generic food search (e.g., "
  +:+ dquote +:+ "Sushi" +:+ dquote +:+
  "), use the provided current location coordinates.
      2. Find between 6 to 12 trending food spots in that area. 
      3. CRITICAL: All spots MUST be within a STRICT 5km radius of the location center. Do not recommend spots further away.
      4. For each spot, analyze recent social sentiment (TikTok/Instagram) to generate scores.
      5. Provide EXACT latitude and longitude for each spot to ensure map accuracy.
      6. For each spot, create 1 or 2 simulated viral social media posts (Instagram/TikTok style) that capture the vibe. Mark some as Reels.
      7. Return a structured JSON object containing the region details and the list of spots.
    ".

(** [await ai.models.generateContent({...})], giving [result.text] *)
Definition request (contents : string) : M (option string) :=
  fun w s =>
    match generateContent w (requests s) contents with
    | Resolved text => (Ok text, with_requests (S (requests s)) s)
    | Rejected => (Throw RequestFailed, with_requests (S (requests s)) s)
    end.

(** [JSON.parse]: the one text the service itself supplies, the literal
    for the empty object, parses to the empty object; every other text is
    parsed by the host. *)
Definition JSON_parse (text : string) : M jsval :=
  if String.eqb text "{}" then mret (VObj [])
  else w ← world; or_throw SyntaxError (parse w text).

(** [result.text || '{}'] *)
Definition text_or_empty_object (text : option string) : string :=
  match text with
  | Some t => if String.eqb t "" then "{}" else t
  | None => "{}"
  end.

(** [`gemini-${t}-${index}`] *)
Definition gemini_id (t : Z) (index : nat) : string :=
  "gemini-" +:+ Z_toString t +:+ "-" +:+ nat_toString index.

(** [[{ handle: "@foodie_explorer", caption: `Checking out ${item.name}! ...`,
    likes: "12.5k", imageUrl: `https://picsum.photos/seed/${index}/400/400`,
    isReel: true }]], the stand-in for a missing [viralPosts] *)
Definition synthesized_posts (shown_text : string) (index : nat) : jsval :=
  VArr [ ViralPost "@foodie_explorer"
           ("Checking out " +:+ shown_text +:+ "! The vibes are unmatched. #foodie")
           "12.5k"
           ("https://picsum.photos/seed/" +:+ nat_toString index +:+ "/400/400")
           true ].

(** [r * 0.02 - 0.01] *)
Definition jitter (r : Q) : Q := (r * 0.02 - 0.01)%Q.

(** [v.k] *)
Definition prop (v : jsval) (k : string) : M jsval := or_throw TypeError (get v k).

(** [item.latitude || regionLat + (Math.random() * 0.02 - 0.01)]: the draw
    and the addition happen only when the left operand is falsy. *)
Definition coordinate_or_jitter (given region : jsval) : M jsval :=
  if truthy given then mret given
  else
    r ← random;
    w ← world;
    or_throw TypeError (add (conv w) region (VNum (Num (jitter r)))).

(** The callback of [spotsList.map((item, index) => ...)] *)
Definition processSpot (regionLat regionLng : jsval) (item : jsval) (index : nat) : M FoodSpot :=
  t ← now;
  name_ ← prop item "name";
  cuisine_ ← prop item "cuisine";
  address_ ← prop item "address";
  priceRange_ ← prop item "priceRange";
  latitude ← prop item "latitude";
  lat_ ← coordinate_or_jitter latitude regionLat;
  longitude ← prop item "longitude";
  lng_ ← coordinate_or_jitter longitude regionLng;
  sentimentScore_ ← prop item "sentimentScore";
  trendingScore_ ← prop item "trendingScore";
  popularityVelocity_ ← prop item "popularityVelocity";
  bestDishes_ ← prop item "bestDishes";
  description_ ← prop item "description";
  aiConfidence_ ← prop item "aiConfidence";
  influencerSummary ← prop item "influencerSummary";
  r ← random;
  topInfluencers ← prop item "topInfluencers";
  given_posts ← prop item "viralPosts";
  viralPosts_ ←
    (if truthy given_posts then mret given_posts
     else
       shown ← prop item "name";
       w ← world;
       shown_text ← or_throw TypeError (ToString (conv w) shown);
       mret (synthesized_posts shown_text index));
  stamp ← now;
  mret {|
    id := gemini_id t index;
    name := name_;
    cuisine := cuisine_;
    address := address_;
    priceRange := priceRange_;
    coordinates := {| lat := lat_; lng := lng_ |};
    sentimentScore := sentimentScore_;
    trendingScore := trendingScore_;
    popularityVelocity := popularityVelocity_;
    bestDishes := bestDishes_;
    description := description_;
    aiConfidence := aiConfidence_;
    influencerData :=
      {| summary := or_else influencerSummary (VStr "Trending on social feeds");
         sourceCount := Num (inject_Z (Math_floor (r * 50)) + 10);
         topMentionedBy := or_else topInfluencers (VArr []) |};
    viralPosts := viralPosts_;
    lastUpdated := stamp
  |}.

(** [xs.map((item, index) => f(item, index))], left to right *)
Fixpoint map_indexed {A B} (f : A -> nat -> M B) (index : nat) (xs : list A) : M (list B) :=
  match xs with
  | [] => mret []
  | x :: rest =>
      y ← f x index;
      ys ← map_indexed f (S index) rest;
      mret (y :: ys)
  end.

(** [spotsList.map(...)]: only an array has a [map] method. *)
Definition map_spots (regionLat regionLng : jsval) (spotsList : jsval) : M (list FoodSpot) :=
  match spotsList with
  | VArr items => map_indexed (processSpot regionLat regionLng) 0 items
  | _ => throw TypeError
  end.

(** [!process.env.API_KEY] *)
Definition no_API_KEY (w : World) : bool :=
  match API_KEY w with
  | Some k => String.eqb k ""
  | None => true
  end.

(** The statements of [fetchFoodSpots] from the reading of [rawData] to
    the construction of [finalResult]. *)
Definition normalize (query : string) (currentLat currentLng : number) (rawData : jsval)
  : M DiscoveryResult :=
  rawName ← prop rawData "regionName";
  let regionName := or_else rawName (VStr query) in
  rawLat ← prop rawData "regionLat";
  let regionLat := or_else rawLat (VNum currentLat) in
  rawLng ← prop rawData "regionLng";
  let regionLng := or_else rawLng (VNum currentLng) in
  rawSpots ← prop rawData "spots";
  let spotsList := or_else rawSpots (VArr []) in
  processedSpots ← map_spots regionLat regionLng spotsList;
  mret {| spots := processedSpots;
          center := {| lat := regionLat; lng := regionLng |};
          locationName := regionName |}.

(** [fetchFoodSpots] from its call to its resolution, nothing else running
    in between. [fetch_start] and [fetch_finish] below are its two
    stretches, before and after [await ai.models.generateContent(...)]. *)
Definition fetchFoodSpots (query : string) (currentLat currentLng : number) : M cached :=
  s ← get_state;
  match cache_get (requestCache s) (cacheKey query) with
  | Some hit => mret hit
  | None =>
      try_catch
        (w ← world;
         if no_API_KEY w then
           log (console_warn "No API Key provided. Returning mock data.");;
           mockResult ← mockSpots query currentLat currentLng;
           cache_put (cacheKey query) mockResult;;
           mret (Own mockResult)
         else
           text ← request (prompt query);
           rawData ← JSON_parse (text_or_empty_object text);
           finalResult ← normalize query currentLat currentLng rawData;
           cache_put (cacheKey query) finalResult;;
           mret (Own finalResult))
        (fun error =>
           log (console_error "Gemini API Error:" error);;
           fallback ← mockSpots query currentLat currentLng;
           cache_put (cacheKey query) fallback;;
           mret (Own fallback))
  end.

(* ================================================================== *)
(** ** App.tsx: the weekly refresh *)
(* ================================================================== *)

Definition with_heldSpots (l : list FoodSpot) (u : AppState) : AppState :=
  {| heldSpots := l; selectedSpot := selectedSpot u;
     activeAgent := activeAgent u; agentLogs := agentLogs u |}.
Definition with_activeAgent (a : AgentType) (u : AppState) : AppState :=
  {| heldSpots := heldSpots u; selectedSpot := selectedSpot u;
     activeAgent := a; agentLogs := agentLogs u |}.
Definition with_agentLogs (l : list AgentLog) (u : AppState) : AppState :=
  {| heldSpots := heldSpots u; selectedSpot := selectedSpot u;
     activeAgent := activeAgent u; agentLogs := l |}.

Definition setSpots (l : list FoodSpot) : M unit :=
  modify (fun s => with_ui (with_heldSpots l (ui s)) s).
Definition setActiveAgent (a : AgentType) : M unit :=
  modify (fun s => with_ui (with_activeAgent a (ui s)) s).

Definition addLog (message_ : string) (agent_ : AgentType) : M unit :=
  r ← random;
  t ← now;
  w ← world;
  modify (fun s =>
    with_ui (with_agentLogs
               (agentLogs (ui s) ++
                [{| log_id := substring_from 7 (Number_toString (conv w) 36 (Num r));
                    timestamp := t;
                    message := message_;
                    agent := agent_ |}])
               (ui s)) s).

(** The arrow function mapped over the held spots:
    [{...s, trendingScore: Math.min(100, s.trendingScore +
    Math.floor(Math.random() * 10 - 3)), lastUpdated: new Date().toISOString()}] *)
Definition refreshSpot (s : FoodSpot) : M FoodSpot :=
  r ← random;
  w ← world;
  sum ← or_throw TypeError
          (add (conv w) (trendingScore s) (VNum (num_of_Z (Math_floor (r * 10 - 3)))));
  score ← or_throw TypeError (Math_min (conv w) (Num 100) sum);
  stamp ← now;
  mret {|
    id := id s;
    name := name s;
    cuisine := cuisine s;
    address := address s;
    priceRange := priceRange s;
    coordinates := coordinates s;
    sentimentScore := sentimentScore s;
    trendingScore := VNum score;
    popularityVelocity := popularityVelocity s;
    bestDishes := bestDishes s;
    description := description s;
    aiConfidence := aiConfidence s;
    influencerData := influencerData s;
    viralPosts := viralPosts s;
    lastUpdated := stamp
  |}.

(** A callback handed to [setTimeout], with its delay in milliseconds. *)
Record timer := {
  delay : Z;
  callback : M unit
}.

(** The function handed to [setTimeout] by [handleWeeklyRefresh]; [spots_]
    is the [spots] it closes over. No exception handler surrounds it. *)
Definition refresh_callback (spots_ : list FoodSpot) : M unit :=
  updatedSpots ← map_indexed (fun s _ => refreshSpot s) 0 spots_;
  setSpots updatedSpots;;
  addLog "Refresh complete. Trends updated." IDLE;;
  setActiveAgent IDLE.

(** [handleWeeklyRefresh]: the part that runs at once, and the timer it
    sets. The callback closes over the [spots] of the render in which the
    handler was created. *)
Definition handleWeeklyRefresh : M (option timer) :=
  s ← get_state;
  let spots_ := heldSpots (ui s) in
  if (length spots_ =? 0)%nat then mret None
  else
    setActiveAgent REFRESH;;
    addLog "Executing Weekly Analytics Refresh..." REFRESH;;
    mret (Some {| delay := 2500; callback := refresh_callback spots_ |}).

(** The refresh from the click to the end of its timer, nothing else
    running in between. *)
Definition weeklyRefresh : M unit :=
  pending ← handleWeeklyRefresh;
  match pending with
  | Some t => callback t
  | None => mret tt
  end.

(* ================================================================== *)
(** ** Concrete worlds and the state of a fresh page *)
(* ================================================================== *)

Definition initial : State := {|
  requestCache := ∅;
  requests := 0;
  draws := 0;
  ticks := 0;
  console := [];
  ui := {| heldSpots := []; selectedSpot := None; activeAgent := IDLE; agentLogs := [] |}
|}.

(** Conversions for the concrete worlds below: exact on integers in radix
    10, a placeholder elsewhere. *)
Definition sample_conv : Conversions := {|
  Number_toString := fun _ n =>
    match n with
    | NaN => "NaN"
    | Num q => if (Qden q =? 1)%positive then Z_toString (Qnum q)
               else Z_toString (Qnum q) +:+ "/" +:+ Z_toString (Zpos (Qden q))
    end;
  String_toNumber := fun s =>
    match NilZero.int_of_string s with
    | Some d => num_of_Z (Z.of_int d)
    | None => NaN
    end
|}.

(** No credential; a clock that advances one millisecond per reading. *)
Definition offline : World := {|
  API_KEY := None;
  generateContent := fun _ _ => Rejected;
  parse := fun _ => None;
  Math_random := fun _ => 0.95%Q;
  Date_now := fun k => (1700000000000 + Z.of_nat k)%Z;
  conv := sample_conv
|}.

(** A credential, and a backend that answers every prompt with a text that
    parses to [payload]. *)
Definition online (payload : jsval) : World := {|
  API_KEY := Some "key";
  generateContent := fun _ _ => Resolved (Some "payload");
  parse := fun _ => Some payload;
  Math_random := fun _ => 0.25%Q;
  Date_now := fun k => (1700000000000 + Z.of_nat k)%Z;
  conv := sample_conv
|}.

(* ================================================================== *)
(** ** Vocabulary of the statements *)
(* ================================================================== *)

(** Neither an array nor an object. *)
Definition primitive (v : jsval) : bool :=
  match v with
  | VArr _ | VObj _ => false
  | _ => true
  end.

(** A value whose properties can be read: anything but [undefined] and [null]. *)
Definition readable (v : jsval) : bool :=
  match v with
  | VUndef | VNull => false
  | _ => true
  end.

(** [v.k], for a readable [v] *)
Definition field (v : jsval) (k : string) : jsval := default VUndef (get v k).

(** Every draw of [Math.random()] lies in [0, 1). *)
Definition unit_draws (w : World) : Prop := forall k, (0 <= Math_random w k /\ Math_random w k < 1)%Q.

Definition unique_ids (r : DiscoveryResult) : Prop := NoDup (map id (spots r)).

Definition posts_defined (r : DiscoveryResult) : Prop :=
  Forall (fun spot => truthy (viralPosts spot) = true) (spots r).

(** The cache is private to the service module: every other piece of code
    leaves it as it is. The states a process can be in are those reached
    from an empty cache by calls of [fetchFoodSpots] and by steps of other
    code. *)
Inductive reachable (w : World) : State -> Prop :=
| reach_start s :
    requestCache s = ∅ -> reachable w s
| reach_fetch s query currentLat currentLng :
    reachable w s -> reachable w (snd (fetchFoodSpots query currentLat currentLng w s))
| reach_other s s' :
    reachable w s -> requestCache s' = requestCache s -> reachable w s'.

(** A computation relates the state it starts in to the state it leaves. *)
Definition keeps (R : State -> State -> Prop) {A} (m : M A) : Prop :=
  forall w s, R s (snd (m w s)).

(** A computation that neither reads nor writes the cache: run on another
    cache it does the same and leaves that cache in place. *)
Definition cache_blind {A} (m : M A) : Prop :=
  forall w s c,
    m w (with_cache c s) = (fst (m w s), with_cache c (snd (m w s))).

(** What the service owns of the state. *)
Definition same_service (s s' : State) : Prop :=
  requestCache s' = requestCache s
  /\ requests s' = requests s
  /\ console s' = console s.

(** Every field but [trendingScore] and [lastUpdated] agrees. *)
Definition refreshed (old new : FoodSpot) : Prop :=
  id new = id old /\ name new = name old /\ cuisine new = cuisine old
  /\ address new = address old /\ priceRange new = priceRange old
  /\ coordinates new = coordinates old /\ sentimentScore new = sentimentScore old
  /\ popularityVelocity new = popularityVelocity old /\ bestDishes new = bestDishes old
  /\ description new = description old /\ aiConfidence new = aiConfidence old
  /\ influencerData new = influencerData old /\ viralPosts new = viralPosts old.

(** Every field but [lastUpdated] agrees. *)
Definition same_but_lastUpdated (a b : FoodSpot) : Prop :=
  refreshed a b /\ trendingScore b = trendingScore a.

(** The fixed offsets of the four mock spots from the centre. *)
Definition mock_coordinates (centerLat centerLng : number) : list Coordinates :=
  [ {| lat := VNum (num_add centerLat (Num 0.002)); lng := VNum (num_sub centerLng (Num 0.003)) |};
    {| lat := VNum (num_sub centerLat (Num 0.004)); lng := VNum (num_sub centerLng (Num 0.012)) |};
    {| lat := VNum (num_add centerLat (Num 0.005)); lng := VNum (num_add centerLng (Num 0.002)) |};
    {| lat := VNum (num_sub centerLat (Num 0.001)); lng := VNum (num_add centerLng (Num 0.008)) |} ].

(** What a computation that only reads the clock and draws random numbers
    does to the state. *)
Definition only_counters (s s' : State) : Prop :=
  requestCache s' = requestCache s
  /\ requests s' = requests s
  /\ console s' = console s
  /\ ui s' = ui s
  /\ draws s <= draws s'
  /\ ticks s <= ticks s'.

(** [m] returns normally, with a value that satisfies [Q]. *)
Definition returns (w : World) {A} (m : M A) (Q : A -> Prop) : Prop :=
  forall s, exists a s', m w s = (Ok a, s') /\ Q a.

(** The defaulting rule of a spot's coordinate: the given value when it is
    truthy, otherwise the region's coordinate plus the jitter of some draw. *)
Definition defaulted_coordinate (w : World) (given region result : jsval) : Prop :=
  if truthy given then result = given
  else exists k, add (conv w) region (VNum (Num (jitter (Math_random w k)))) = Some result.

(** The defaulting rule of [viralPosts]. *)
Definition defaulted_posts (w : World) (item : jsval) (index : nat) (result : jsval) : Prop :=
  if truthy (field item "viralPosts") then result = field item "viralPosts"
  else exists shown_text,
         ToString (conv w) (field item "name") = Some shown_text
         /\ result = synthesized_posts shown_text index.

(** What the callback makes of the record [item] at position [index]. *)
Definition processed (w : World) (regionLat regionLng item : jsval) (index : nat)
  (spot : FoodSpot) : Prop :=
  readable item = true
  /\ (exists t, id spot = gemini_id t index)
  /\ name spot = field item "name"
  /\ cuisine spot = field item "cuisine"
  /\ address spot = field item "address"
  /\ priceRange spot = field item "priceRange"
  /\ defaulted_coordinate w (field item "latitude") regionLat (lat (coordinates spot))
  /\ defaulted_coordinate w (field item "longitude") regionLng (lng (coordinates spot))
  /\ sentimentScore spot = field item "sentimentScore"
  /\ trendingScore spot = field item "trendingScore"
  /\ popularityVelocity spot = field item "popularityVelocity"
  /\ bestDishes spot = field item "bestDishes"
  /\ description spot = field item "description"
  /\ aiConfidence spot = field item "aiConfidence"
  /\ summary (influencerData spot) =
       or_else (field item "influencerSummary") (VStr "Trending on social feeds")
  /\ (exists k, sourceCount (influencerData spot) =
                  Num (inject_Z (Math_floor (Math_random w k * 50)) + 10))
  /\ topMentionedBy (influencerData spot) = or_else (field item "topInfluencers") (VArr [])
  /\ defaulted_posts w item index (viralPosts spot)
  /\ (exists k, lastUpdated spot = Date_now w k).

(** The records of an array and the spots made of them, position by
    position from [index] on. *)
Inductive processed_from (w : World) (regionLat regionLng : jsval)
  : nat -> list jsval -> list FoodSpot -> Prop :=
| processed_nil index :
    processed_from w regionLat regionLng index [] []
| processed_cons index item items spot spots_ :
    processed w regionLat regionLng item index spot ->
    processed_from w regionLat regionLng (S index) items spots_ ->
    processed_from w regionLat regionLng index (item :: items) (spot :: spots_).

(** [rawData.spots || []], when it is an array. *)
Definition spot_records (rawData : jsval) : option (list jsval) :=
  match or_else (field rawData "spots") (VArr []) with
  | VArr items => Some items
  | _ => None
  end.

(** The call misses the cache, a credential is configured, and the
    backend's reply parses to [rawData]. *)
Definition upstream_reply (w : World) (s : State) (query : string) (rawData : jsval) : Prop :=
  cache_get (requestCache s) (cacheKey query) = None
  /\ no_API_KEY w = false
  /\ exists text,
       generateContent w (requests s) (prompt query) = Resolved text
       /\ fst (JSON_parse (text_or_empty_object text) w s) = Ok rawData.

(** A payload on which no coercion can fail: the envelope is readable, its
    region coordinates are primitive where present, its [spots] is an array
    (or falsy) of readable records whose [name] is primitive where
    present. The schema's types ([NUMBER], [STRING], [OBJECT]) imply all of
    this; absent fields are allowed everywhere. *)
Definition tolerable (rawData : jsval) (items : list jsval) : Prop :=
  readable rawData = true
  /\ primitive (field rawData "regionLat") = true
  /\ primitive (field rawData "regionLng") = true
  /\ spot_records rawData = Some items
  /\ Forall (fun item => readable item = true /\ primitive (field item "name") = true) items.

(** What every path of [fetchFoodSpots] that misses the cache ends with:
    the result is stored under the key and returned. *)
Definition stored (query : string) (s : State) (out : Outcome cached * State) : Prop :=
  exists r s',
    out = (Ok (Own r), s')
    /\ requestCache s' = <[cacheKey query := r]> (requestCache s)
    /\ unique_ids r
    /\ posts_defined r.

(** What [refreshSpot] makes of [old], with a draw and a reading of the
    clock taken no earlier than the [d]-th and the [t]-th. *)
Definition refresh_of (w : World) (d t : nat) (old new : FoodSpot) : Prop :=
  refreshed old new
  /\ exists i k sum score,
       d <= i /\ t <= k
       /\ add (conv w) (trendingScore old)
             (VNum (num_of_Z (Math_floor (Math_random w i * 10 - 3)))) = Some sum
       /\ Math_min (conv w) (Num 100) sum = Some score
       /\ trendingScore new = VNum score
       /\ lastUpdated new = Date_now w k.

(** Every held trending score is a number, as [types.ts] declares. *)
Definition numeric_scores (l : list FoodSpot) : Prop :=
  Forall (fun spot => exists n, trendingScore spot = VNum n) l.

(** From now on the clock reads later than every held timestamp. *)
Definition clock_ahead (w : World) (s : State) : Prop :=
  forall spot k,
    spot ∈ heldSpots (ui s) -> ticks s <= k -> (lastUpdated spot < Date_now w k)%Z.

(** The new score is [Math.min(100, old + d)] for an integer [d] between -3
    and 6, and is not above 100 when the old one is finite; the new
    timestamp is a reading of the clock taken after [s]. *)
Definition rescored (w : World) (s : State) (old new : FoodSpot) : Prop :=
  exists n d k,
    trendingScore old = VNum n
    /\ (-3 <= d <= 6)%Z
    /\ trendingScore new = VNum (num_min (Num 100) (num_add n (num_of_Z d)))
    /\ (forall t, n = Num t ->
          exists t', trendingScore new = VNum (Num t') /\ (t' <= 100)%Q)
    /\ ticks s <= k
    /\ lastUpdated new = Date_now w k.

(** The page after its first discovery, with no credential configured:
    [fetchFoodSpots("Kochi, Kerala", 9.9312, 76.2673)] has resolved and
    [setSpots(result.spots)] has run. *)
Definition kochi_spots : list FoodSpot :=
  match fst (fetchFoodSpots "Kochi, Kerala" (Num 9.9312) (Num 76.2673) offline initial) with
  | Ok (Own r) => spots r
  | _ => []
  end.

Definition kochi_page : State :=
  let s := snd (fetchFoodSpots "Kochi, Kerala" (Num 9.9312) (Num 76.2673) offline initial) in
  with_ui (with_heldSpots kochi_spots (ui s)) s.

(** The number zero. *)
Definition zero (v : jsval) : Prop := exists z, v = VNum (Num z) /\ (z == 0)%Q.

(** [region + jitter], for the jitter of some draw. *)
Definition jittered (w : World) (region result : jsval) : Prop :=
  exists k, add (conv w) region (VNum (Num (jitter (Math_random w k)))) = Some result.

(** A payload with a zero region latitude and a record with a zero
    latitude and no [viralPosts]. *)
Definition sample_payload : jsval :=
  VObj [("regionName", VStr "Lisbon");
        ("regionLat", VNum (Num 0));
        ("regionLng", VNum (Num (-9.14)));
        ("spots", VArr [
           VObj [("name", VStr "A"); ("latitude", VNum (Num 0)); ("longitude", VNum (Num (-9.15)))];
           VObj [("name", VStr "B"); ("latitude", VNum (Num 38.72));
                 ("viralPosts", VArr [ViralPost "@b" "B!" "1k" "b.png" false])] ])].

Definition sample_records : list jsval :=
  match spot_records sample_payload with
  | Some items => items
  | None => []
  end.

(** A record with a name and nothing else. *)
Definition bare_payload : jsval :=
  VObj [("spots", VArr [VObj [("name", VStr "A")]])].

(** A record whose name is an object with an own property [toString],
    without and with [viralPosts]. *)
Definition odd_name : jsval := VObj [("toString", VNum (Num 1))].

Definition odd_name_payload : jsval :=
  VObj [("spots", VArr [VObj [("name", odd_name)]])].

Definition odd_name_payload_with_posts : jsval :=
  VObj [("spots", VArr [VObj [("name", odd_name);
                              ("viralPosts", VArr [ViralPost "@b" "B!" "1k" "b.png" false])]])].

(* ================================================================== *)
(** ** Further vocabulary of the service *)
(* ================================================================== *)

(** The statements of [fetchFoodSpots] between the credential check and
    the write to the cache: the upstream call, the parse and the
    normalisation of the payload. *)
Definition upstream (query : string) (currentLat currentLng : number) : M DiscoveryResult :=
  text ← request (prompt query);
  rawData ← JSON_parse (text_or_empty_object text);
  normalize query currentLat currentLng rawData.

(** A call of [fetchFoodSpots], and the state after a run of calls. *)
Record call := {
  call_query : string;
  call_lat : number;
  call_lng : number
}.

Definition fetch_all (w : World) (calls : list call) (s : State) : State :=
  fold_left
    (fun s1 c => snd (fetchFoodSpots (call_query c) (call_lat c) (call_lng c) w s1))
    calls s.

(** A credential, and a backend that gives [answer] to every prompt; every
    text parses to [payload], if there is one. *)
Definition answering (answer : reply) (payload : option jsval) : World := {|
  API_KEY := Some "key";
  generateContent := fun _ _ => answer;
  parse := fun _ => payload;
  Math_random := fun _ => 0.25%Q;
  Date_now := fun k => (1700000000000 + Z.of_nat k)%Z;
  conv := sample_conv
|}.

(** The error with which the upstream path fails before the payload is
    looked at, if it does: the call is rejected, or the text of the answer
    does not parse. *)
Definition unanswered (w : World) (s : State) (query : string) : option error :=
  match generateContent w (requests s) (prompt query) with
  | Rejected => Some RequestFailed
  | Resolved text =>
      if String.eqb (text_or_empty_object text) "{}" then None
      else match parse w (text_or_empty_object text) with
           | Some _ => None
           | None => Some SyntaxError
           end
  end.

(** [m] throws nothing but [allowed]. *)
Definition raises (allowed : error) {A} (m : M A) : Prop :=
  forall w s e s', m w s = (Throw e, s') -> e = allowed.

(** A payload on which the normalisation cannot succeed: it is [null] or
    [undefined], or its [spots] is truthy but no array, or one of the
    records is [null] or [undefined]. *)
Definition malformed (rawData : jsval) : Prop :=
  readable rawData = false
  \/ spot_records rawData = None
  \/ exists items,
       spot_records rawData = Some items /\ Exists (fun item => readable item = false) items.

(** A payload whose second record is [null]. *)
Definition holed_payload : jsval :=
  VObj [("regionName", VStr "Lisbon");
        ("spots", VArr [VObj [("name", VStr "A")]; VNull])].

(** A payload whose region longitude is zero, and whose one record has a
    zero latitude where the region latitude is 0.005. *)
Definition zero_payload : jsval :=
  VObj [("regionName", VStr "Null Island");
        ("regionLat", VNum (Num 0.005));
        ("regionLng", VNum (Num 0));
        ("spots", VArr [
           VObj [("name", VStr "A"); ("latitude", VNum (Num 0));
                 ("longitude", VNum (Num 0.5))] ])].

Definition zero_records : list jsval :=
  match spot_records zero_payload with
  | Some items => items
  | None => []
  end.

(* ================================================================== *)
(** ** A call of [fetchFoodSpots], cut at its [await] *)
(* ================================================================== *)

(** A call runs without interruption up to [await
    ai.models.generateContent(...)]; other code, another call of
    [fetchFoodSpots] included, can run before its continuation does. What
    the first stretch ends with: the call has returned, or it has sent its
    request and waits for the answer. *)
Inductive started :=
| Settled (result : cached)
| Awaiting (answer : reply).

(** The sending of the request: the answer it will get is the one the
    backend gives to the k-th call. *)
Definition send (contents : string) : M reply :=
  fun w s =>
    (Ok (generateContent w (requests s) contents), with_requests (S (requests s)) s).

(** [await] of the answer: [result.text], or the rejection thrown. *)
Definition await (answer : reply) : M (option string) :=
  match answer with
  | Resolved text => mret text
  | Rejected => throw RequestFailed
  end.

(** [fetchFoodSpots] up to the [await]. *)
Definition fetch_start (query : string) (currentLat currentLng : number) : M started :=
  s ← get_state;
  match cache_get (requestCache s) (cacheKey query) with
  | Some hit => mret (Settled hit)
  | None =>
      try_catch
        (w ← world;
         if no_API_KEY w then
           log (console_warn "No API Key provided. Returning mock data.");;
           mockResult ← mockSpots query currentLat currentLng;
           cache_put (cacheKey query) mockResult;;
           mret (Settled (Own mockResult))
         else
           answer ← send (prompt query);
           mret (Awaiting answer))
        (fun error =>
           log (console_error "Gemini API Error:" error);;
           fallback ← mockSpots query currentLat currentLng;
           cache_put (cacheKey query) fallback;;
           mret (Settled (Own fallback)))
  end.

(** [fetchFoodSpots] from the [await] on, in whatever state the process is
    in by then: the cache is not read again before it is written. *)
Definition fetch_finish (query : string) (currentLat currentLng : number) (answer : reply)
  : M cached :=
  try_catch
    (text ← await answer;
     rawData ← JSON_parse (text_or_empty_object text);
     finalResult ← normalize query currentLat currentLng rawData;
     cache_put (cacheKey query) finalResult;;
     mret (Own finalResult))
    (fun error =>
       log (console_error "Gemini API Error:" error);;
       fallback ← mockSpots query currentLat currentLng;
       cache_put (cacheKey query) fallback;;
       mret (Own fallback)).

(** The two stretches with nothing running in between. *)
Definition fetch_whole (query : string) (currentLat currentLng : number) : M cached :=
  st ← fetch_start query currentLat currentLng;
  match st with
  | Settled result => mret result
  | Awaiting answer => fetch_finish query currentLat currentLng answer
  end.

(** The answer a first stretch waits for. *)
Definition answer_of (out : Outcome started * State) : reply :=
  match fst out with
  | Ok (Awaiting answer) => answer
  | _ => Rejected
  end.

(** Two calls for the same key that overlap: both start before either
    continues. *)
Definition lisbon_started : Outcome started * State :=
  fetch_start "Lisbon" (Num 9.9312) (Num 76.2673) (online sample_payload) initial.

Definition lisbon_started_again : Outcome started * State :=
  fetch_start " lisbon" (Num 9.9312) (Num 76.2673) (online sample_payload)
    (snd lisbon_started).

Definition lisbon_finished : Outcome cached * State :=
  fetch_finish "Lisbon" (Num 9.9312) (Num 76.2673) (answer_of lisbon_started)
    (online sample_payload) (snd lisbon_started_again).

Definition lisbon_finished_again : Outcome cached * State :=
  fetch_finish " lisbon" (Num 9.9312) (Num 76.2673) (answer_of lisbon_started_again)
    (online sample_payload) (snd lisbon_finished).

(* ================================================================== *)
(** ** App.tsx: the page, the discovery run and the search *)
(* ================================================================== *)

Definition with_selectedSpot (sel : option FoodSpot) (u : AppState) : AppState :=
  {| heldSpots := heldSpots u; selectedSpot := sel;
     activeAgent := activeAgent u; agentLogs := agentLogs u |}.

Definition setSelectedSpot (sel : option FoodSpot) : M unit :=
  modify (fun s => with_ui (with_selectedSpot sel (ui s)) s).

(** [activeAgent !== AgentType.IDLE] *)
Definition isLoading (u : AppState) : bool :=
  match activeAgent u with
  | IDLE => false
  | _ => true
  end.

(** The page: the process, and the React state of [App] that only the
    discovery run and the search touch. [locationName] is declared a string
    but holds whatever [result.locationName] held. *)
Module App.

Record Page := {
  process : State;
  userLocation : Coordinates;
  locationName : jsval;
  searchQuery : string
}.

End App.

Definition MP (A : Type) : Type := World -> App.Page -> Outcome A * App.Page.

#[global] Instance MP_ret : MRet MP := fun A a _ p => (Ok a, p).

#[global] Instance MP_bind : MBind MP := fun A B f m w p =>
  match m w p with
  | (Ok a, p') => f a w p'
  | (Throw e, p') => (Throw e, p')
  end.

Definition with_process (s : State) (p : App.Page) : App.Page :=
  {| App.process := s; App.userLocation := App.userLocation p;
     App.locationName := App.locationName p; App.searchQuery := App.searchQuery p |}.

(** A computation on the process, run in the page. *)
Definition lift {A} (m : M A) : MP A :=
  fun w p =>
    match m w (App.process p) with
    | (out, s') => (out, with_process s' p)
    end.

Definition get_page : MP App.Page := fun _ p => (Ok p, p).

Definition setUserLocation (c : Coordinates) : MP unit :=
  fun _ p =>
    (Ok tt, {| App.process := App.process p; App.userLocation := c;
               App.locationName := App.locationName p;
               App.searchQuery := App.searchQuery p |}).

Definition setLocationName (n : jsval) : MP unit :=
  fun _ p =>
    (Ok tt, {| App.process := App.process p; App.userLocation := App.userLocation p;
               App.locationName := n; App.searchQuery := App.searchQuery p |}).

Definition setSearchQuery (q : string) : MP unit :=
  fun _ p =>
    (Ok tt, {| App.process := App.process p; App.userLocation := App.userLocation p;
               App.locationName := App.locationName p; App.searchQuery := q |}).

(** [result.spots], [result.center] and [result.locationName] of what
    [fetchFoodSpots] resolved to: a member of [Object.prototype] has none
    of them ([None], [undefined]). *)
Definition result_spots (result : cached) : option (list FoodSpot) :=
  match result with
  | Own r => Some (spots r)
  | Inherited _ => None
  end.

Definition result_center (result : cached) : option Coordinates :=
  match result with
  | Own r => Some (center r)
  | Inherited _ => None
  end.

Definition result_locationName (result : cached) : jsval :=
  match result with
  | Own r => locationName r
  | Inherited _ => VUndef
  end.

(** [runDiscoveryAgent] suspends at each [await]; between two of them it
    runs without interruption. Its five stretches, in order. *)

(** Up to [await new Promise(r => setTimeout(r, 800))]. *)
Definition discovery_scan (query : string) : M unit :=
  setSelectedSpot None;;
  setActiveAgent DISCOVERY;;
  addLog ("Scanning social signals for " +:+ dquote +:+ query +:+ dquote +:+ " within 5km...")
    DISCOVERY.

(** Up to the resolution of [await fetchFoodSpots(query, center.lat,
    center.lng)]; the two numbers are [center.lat] and [center.lng] at their
    declared type. *)
Definition discovery_search (centerLat centerLng : number) (query : string) : M cached :=
  setActiveAgent SEARCH;;
  addLog "Extracting entities & geolocation data..." SEARCH;;
  fetchFoodSpots query centerLat centerLng.

(** Up to [await new Promise(r => setTimeout(r, 600))]. Reading [.length]
    of an [undefined] [result.spots] is a TypeError; the array read here is
    the one the last stretch reads again. *)
Definition discovery_rank (result : cached) : M (list FoodSpot) :=
  setActiveAgent RANKING;;
  found ← or_throw TypeError (result_spots result);
  addLog ("Ranking " +:+ nat_toString (length found) +:+ " candidates by sentiment velocity...")
    RANKING;;
  mret found.

(** Up to [await new Promise(r => setTimeout(r, 400))]. *)
Definition discovery_validate : M unit :=
  setActiveAgent VALIDATION;;
  addLog "Cross-referencing with public review databases..." VALIDATION.

(** From [setSpots(result.spots)] to the end. *)
Definition discovery_commit (result : cached) (found : list FoodSpot) : MP unit :=
  lift (setSpots found);;
  match result_center result with
  | Some c => setUserLocation c
  | None => mret tt
  end;;
  (if truthy (result_locationName result)
   then setLocationName (result_locationName result)
   else mret tt);;
  w ← lift world;
  shown ← lift (or_throw TypeError (ToString (conv w) (result_locationName result)));
  lift (addLog ("Discovery complete. " +:+ nat_toString (length found)
                +:+ " trending spots found in " +:+ shown +:+ ".") IDLE);;
  lift (setActiveAgent IDLE).

(** The discovery run from its call to its end, nothing else running in
    between. *)
Definition runDiscoveryAgent (centerLat centerLng : number) (query : string) : MP unit :=
  lift (discovery_scan query);;
  result ← lift (discovery_search centerLat centerLng query);
  found ← lift (discovery_rank result);
  lift discovery_validate;;
  discovery_commit result found.

(** [handleSearch], up to its call of [runDiscoveryAgent(userLocation,
    searchQuery)]: the arguments of that call, if it is made. *)
Definition handleSearch : MP (option (Coordinates * string)) :=
  p ← get_page;
  if String.eqb (trim (App.searchQuery p)) "" then mret None
  else
    lift (addLog ("New search initiated: " +:+ dquote +:+ App.searchQuery p +:+ dquote) SEARCH);;
    mret (Some (App.userLocation p, App.searchQuery p)).

(** U+00A0, the no-break space. *)
Definition nbsp : string := String (ascii_of_nat 160) EmptyString.

(** The page as [App] first renders it. *)
Definition initial_page : App.Page := {|
  App.process := initial;
  App.userLocation := {| lat := VNum (Num 9.9312); lng := VNum (Num 76.2673) |};
  App.locationName := VStr "Kochi, Kerala";
  App.searchQuery := ""
|}.

(** Neither the cache nor the held spots change. *)
Definition quiet (s s' : State) : Prop :=
  requestCache s' = requestCache s /\ heldSpots (ui s') = heldSpots (ui s).


(** The page after its first discovery, with its first spot selected. *)
Definition kochi_selected : State :=
  with_ui (with_selectedSpot (head kochi_spots) (ui kochi_page)) kochi_page.

(* ================================================================== *)
(** ** components/SpotCard.tsx and components/DetailPanel.tsx *)
(* ================================================================== *)

(** [s.split(',')[0]] *)
Fixpoint before_comma (s : string) : string :=
  match s with
  | EmptyString => EmptyString
  | String c s' => if Ascii.eqb c "," then EmptyString else String c (before_comma s')
  end.

(** [spot.address.split(',')[0]]: only a string has a [split] method;
    calling it on any other value is a TypeError ([None]). *)
Definition address_line (spot : FoodSpot) : option string :=
  match address spot with
  | VStr s => Some (before_comma s)
  | _ => None
  end.

(** [v > b] for a number [b]: false when [v] converts to [NaN]. *)
Definition greater_than (c : Conversions) (v : jsval) (b : Q) : option bool :=
  n ← ToNumber c v;
  Some (match n with
        | Num q => negb (Qle_bool q b)
        | NaN => false
        end).

(** What [SpotCard] computes: the line under the name, and whether the
    HOT badge is put out. Every other field of the spot it hands to React as
    it is; what React makes of the element is not modelled. *)
Record Card := {
  place : string;
  hot : bool
}.

Definition SpotCard (spot : FoodSpot) : M Card :=
  place_ ← or_throw TypeError (address_line spot);
  w ← world;
  hot_ ← or_throw TypeError (greater_than (conv w) (trendingScore spot) 85);
  mret {| place := place_; hot := hot_ |}.

(** [spots.map(spot => <SpotCard ... />)] of the sidebar: no error boundary
    surrounds the cards. *)
Definition spotCards : M (list Card) :=
  s ← get_state;
  map_indexed (fun spot _ => SpotCard spot) 0 (heldSpots (ui s)).

Definition num_mul (a b : number) : number :=
  match a, b with
  | Num x, Num y => Num (x * y)
  | _, _ => NaN
  end.

(** [Math.max(a, b)]: [NaN] if either argument is [NaN]. *)
Definition num_max (a b : number) : number :=
  match a, b with
  | Num x, Num y => if Qle_bool x y then Num y else Num x
  | _, _ => NaN
  end.

(** [Math.floor(n)] *)
Definition num_floor (n : number) : number :=
  match n with
  | Num q => num_of_Z (Math_floor q)
  | NaN => NaN
  end.

(** [n / 7] *)
Definition seventh (n : number) : number :=
  match n with
  | Num q => Num (q / 7)
  | NaN => NaN
  end.

Definition num_of_nat (n : nat) : number := num_of_Z (Z.of_nat n).

Record ChartPoint := {
  day : string;
  score : number;
  mentions : number
}.

(** The callback of [Array.from({ length: 7 }, (_, i) => ...)] in
    [DetailPanel]: the left operand of a sum is converted and added before
    the right one is evaluated. *)
Definition chartPoint (spot : FoodSpot) (i : nat) : M ChartPoint :=
  r1 ← random;
  w ← world;
  partial ← or_throw TypeError
              (add (conv w) (trendingScore spot) (VNum (Num (r1 * 20 - 10))));
  velocity ← or_throw TypeError (ToNumber (conv w) (popularityVelocity spot));
  total ← or_throw TypeError
            (add (conv w) partial
               (VNum (num_mul (num_mul velocity (num_of_nat i)) (Num 0.2))));
  capped ← or_throw TypeError (Math_min (conv w) (Num 100) total);
  r2 ← random;
  mret {|
    day := "Day " +:+ nat_toString (i + 1);
    score := num_max (Num 50) capped;
    mentions :=
      num_max (Num 0)
        (num_floor
           (num_add
              (num_mul (seventh (sourceCount (influencerData spot))) (num_of_nat (i + 1)))
              (Num (r2 * 5))))
  |}.

Definition chartData (spot : FoodSpot) : M (list ChartPoint) :=
  map_indexed (fun _ i => chartPoint spot i) 0 (replicate 7 tt).

(** A finite number within the given bounds. *)
Definition between (lo hi : Q) (n : number) : Prop :=
  exists q, n = Num q /\ (lo <= q <= hi)%Q.

(** A whole number that is not negative. *)
Definition count (n : number) : Prop :=
  exists z, n = num_of_Z z /\ (0 <= z)%Z.

(** A payload whose one record has the fields the response schema
    requires and no others. *)
Definition required_only : jsval :=
  VObj [("name", VStr "Cafe A"); ("cuisine", VStr "Cafe");
        ("sentimentScore", VNum (Num 90)); ("trendingScore", VNum (Num 87));
        ("bestDishes", VArr [VStr "Coffee"]); ("description", VStr "Small and busy.");
        ("latitude", VNum (Num 38.72)); ("longitude", VNum (Num (-9.14)))].

Definition required_only_payload : jsval :=
  VObj [("regionName", VStr "Lisbon"); ("spots", VArr [required_only])].

(* ================================================================== *)
(** ** Running the monad *)
(* ================================================================== *)

Lemma bind_run {A B} (m : M A) (f : A -> M B) w s :
  (m ≫= f) w s =
  match m w s with
  | (Ok a, s1) => f a w s1
  | (Throw e, s1) => (Throw e, s1)
  end.
Proof. reflexivity. Qed.

Lemma bind_Ok {A B} (m : M A) (f : A -> M B) w s b s' :
  (m ≫= f) w s = (Ok b, s') ->
  exists a s1, m w s = (Ok a, s1) /\ f a w s1 = (Ok b, s').
Proof.
  rewrite bind_run. destruct (m w s) as [[a | e] s1]; intros H.
  - exists a, s1. split; [reflexivity | exact H].
  - discriminate H.
Qed.

Lemma or_throw_Ok {A} e (o : option A) w s a s' :
  or_throw e o w s = (Ok a, s') -> o = Some a /\ s' = s.
Proof.
  destruct o as [x |]; cbn; intros H; inversion H; subst; auto.
Qed.

Lemma prop_Ok v k w s x s' :
  prop v k w s = (Ok x, s') -> get v k = Some x /\ s' = s.
Proof. apply or_throw_Ok. Qed.

Lemma prop_readable v k w s :
  readable v = true -> prop v k w s = (Ok (field v k), s).
Proof. destruct v; cbn; intros H; try discriminate H; reflexivity. Qed.

(** *** Frames: a relation between the state before and after *)

Section Frames.
Context (R : State -> State -> Prop).
Context (R_refl : forall s, R s s).
Context (R_trans : forall s1 s2 s3, R s1 s2 -> R s2 s3 -> R s1 s3).

Lemma keeps_ret {A} (a : A) : keeps R (mret a).
Proof. intros w s. apply R_refl. Qed.

Lemma keeps_throw {A} e : keeps R (@throw A e).
Proof. intros w s. apply R_refl. Qed.

Lemma keeps_bind {A B} (m : M A) (f : A -> M B) :
  keeps R m -> (forall a, keeps R (f a)) -> keeps R (m ≫= f).
Proof.
  intros Hm Hf w s. rewrite bind_run.
  specialize (Hm w s). destruct (m w s) as [[a | e] s1]; cbn in *.
  - eapply R_trans; [exact Hm | apply Hf].
  - exact Hm.
Qed.

Lemma keeps_try_catch {A} (body : M A) handler :
  keeps R body -> (forall e, keeps R (handler e)) -> keeps R (try_catch body handler).
Proof.
  intros Hb Hh w s. unfold try_catch.
  specialize (Hb w s). destruct (body w s) as [[a | e] s1]; cbn in *.
  - exact Hb.
  - eapply R_trans; [exact Hb | apply Hh].
Qed.

Lemma keeps_or_throw {A} e (o : option A) : keeps R (or_throw e o).
Proof. destruct o; [apply keeps_ret | apply keeps_throw]. Qed.

Lemma keeps_world : keeps R world.
Proof. intros w s. apply R_refl. Qed.

Lemma keeps_get_state : keeps R get_state.
Proof. intros w s. apply R_refl. Qed.

Lemma keeps_modify f : (forall s, R s (f s)) -> keeps R (modify f).
Proof. intros H w s. apply H. Qed.

Lemma keeps_map_indexed {A B} (f : A -> nat -> M B) xs :
  (forall a i, keeps R (f a i)) -> forall i, keeps R (map_indexed f i xs).
Proof.
  intros Hf. induction xs as [| x rest IH]; intros i; cbn.
  - apply keeps_ret.
  - apply keeps_bind; [apply Hf |]. intros y.
    apply keeps_bind; [apply IH |]. intros ys. apply keeps_ret.
Qed.

End Frames.

(** The computations that only read the clock and draw random numbers. *)
Lemma only_counters_refl s : only_counters s s.
Proof. unfold only_counters. repeat split; auto with arith. Qed.

Lemma only_counters_trans s1 s2 s3 :
  only_counters s1 s2 -> only_counters s2 s3 -> only_counters s1 s3.
Proof.
  unfold only_counters. intros (H1 & H2 & H3 & H4 & H5 & H6) (G1 & G2 & G3 & G4 & G5 & G6).
  repeat split; try congruence; etransitivity; eassumption.
Qed.

Lemma only_counters_service s s' : only_counters s s' -> same_service s s'.
Proof. unfold only_counters, same_service. tauto. Qed.

Ltac counters_step :=
  first
    [ apply (keeps_ret _ only_counters_refl)
    | apply (keeps_throw _ only_counters_refl)
    | apply (keeps_or_throw _ only_counters_refl)
    | apply (keeps_world _ only_counters_refl)
    | apply (keeps_get_state _ only_counters_refl)
    | apply (keeps_bind _ only_counters_trans); [| intros ? ] ].

Lemma now_counters : keeps only_counters now.
Proof. intros w s. unfold only_counters. cbn. repeat split; auto with arith. Qed.

Lemma random_counters : keeps only_counters random.
Proof. intros w s. unfold only_counters. cbn. repeat split; auto with arith. Qed.

Lemma prop_counters v k : keeps only_counters (prop v k).
Proof. apply (keeps_or_throw _ only_counters_refl). Qed.

Lemma mockSpots_counters query lat_ lng_ : keeps only_counters (mockSpots query lat_ lng_).
Proof.
  unfold mockSpots.
  destruct (if includes (toLowerCase query) "paris" then _ else _) as [[centerLat centerLng] locName].
  do 4 (apply (keeps_bind _ only_counters_trans); [apply now_counters | intros ?]).
  apply (keeps_ret _ only_counters_refl).
Qed.

Lemma coordinate_or_jitter_counters given region :
  keeps only_counters (coordinate_or_jitter given region).
Proof.
  unfold coordinate_or_jitter. destruct (truthy given).
  - apply (keeps_ret _ only_counters_refl).
  - apply (keeps_bind _ only_counters_trans); [apply random_counters | intros r].
    repeat counters_step.
Qed.

Lemma processSpot_counters regionLat regionLng item index :
  keeps only_counters (processSpot regionLat regionLng item index).
Proof.
  unfold processSpot.
  repeat first
    [ apply (keeps_ret _ only_counters_refl)
    | apply (keeps_or_throw _ only_counters_refl)
    | apply prop_counters
    | apply now_counters
    | apply random_counters
    | apply coordinate_or_jitter_counters
    | apply (keeps_world _ only_counters_refl)
    | apply (keeps_bind _ only_counters_trans); [| intros ? ]
    | match goal with |- keeps _ (if ?b then _ else _) => destruct b end ].
Qed.

Lemma refreshSpot_counters spot : keeps only_counters (refreshSpot spot).
Proof.
  unfold refreshSpot.
  repeat first
    [ apply (keeps_ret _ only_counters_refl)
    | apply (keeps_or_throw _ only_counters_refl)
    | apply now_counters
    | apply random_counters
    | apply (keeps_world _ only_counters_refl)
    | apply (keeps_bind _ only_counters_trans); [| intros ? ] ].
Qed.

Lemma map_spots_counters regionLat regionLng spotsList :
  keeps only_counters (map_spots regionLat regionLng spotsList).
Proof.
  unfold map_spots.
  destruct spotsList; try apply (keeps_throw _ only_counters_refl).
  apply (keeps_map_indexed _ only_counters_refl only_counters_trans).
  intros a i. apply processSpot_counters.
Qed.

Lemma same_service_refl s : same_service s s.
Proof. repeat split. Qed.

Lemma same_service_trans s1 s2 s3 :
  same_service s1 s2 -> same_service s2 s3 -> same_service s1 s3.
Proof.
  unfold same_service. intros (H1 & H2 & H3) (H4 & H5 & H6).
  repeat split; congruence.
Qed.

(* ================================================================== *)
(** ** Identifiers *)
(* ================================================================== *)

Lemma append_nil s : "" +:+ s = s.
Proof. reflexivity. Qed.

Lemma append_cons c a s : String c a +:+ s = String c (a +:+ s).
Proof. reflexivity. Qed.

Lemma digits_no_dash d a b :
  NilEmpty.string_of_uint d <> a +:+ String "-" b.
Proof.
  revert a. induction d; intros [| c a']; cbn;
    rewrite ?append_nil, ?append_cons; try discriminate;
    intros H; injection H as _ H; exact (IHd _ H).
Qed.

Lemma to_lu_not_Nil n : Unsigned.to_lu n <> Decimal.Nil.
Proof.
  destruct n as [| n]; cbn; [discriminate |].
  destruct (Unsigned.to_lu n); cbn; discriminate.
Qed.

Lemma to_uint_not_Nil n : Nat.to_uint n <> Decimal.Nil.
Proof.
  rewrite Unsigned.to_uint_alt. intros H.
  apply DecimalFacts.rev_nil_inv in H. exact (to_lu_not_Nil n H).
Qed.

Lemma nat_toString_digits n : nat_toString n = NilEmpty.string_of_uint (Nat.to_uint n).
Proof.
  unfold nat_toString, NilZero.string_of_uint.
  pose proof (to_uint_not_Nil n) as H.
  destruct (Nat.to_uint n); [congruence | reflexivity ..].
Qed.

Lemma nat_toString_inj n m : nat_toString n = nat_toString m -> n = m.
Proof.
  rewrite !nat_toString_digits. intros H.
  apply Unsigned.to_uint_inj.
  pose proof (NilEmpty.usu (Nat.to_uint n)) as Hn.
  pose proof (NilEmpty.usu (Nat.to_uint m)) as Hm.
  rewrite H in Hn. congruence.
Qed.

Lemma nat_toString_no_dash n a b : nat_toString n <> a +:+ String "-" b.
Proof. rewrite nat_toString_digits. apply digits_no_dash. Qed.

(** The text after the last dash determines the index. *)
Lemma after_last_dash A B I J :
  (forall a b, I <> a +:+ String "-" b) ->
  (forall a b, J <> a +:+ String "-" b) ->
  A +:+ String "-" I = B +:+ String "-" J -> I = J.
Proof.
  intros HI HJ. revert B.
  induction A as [| c A IH]; intros [| c' B];
    rewrite ?append_nil, ?append_cons; intros H.
  - congruence.
  - injection H as _ H. destruct (HI _ _ H).
  - injection H as _ H. symmetry in H. destruct (HJ _ _ H).
  - injection H as _ H. exact (IH _ H).
Qed.

Lemma gemini_id_index t t' i j : gemini_id t i = gemini_id t' j -> i = j.
Proof.
  unfold gemini_id. rewrite !append_cons, !append_nil. intros H.
  injection H as H.
  apply nat_toString_inj.
  eapply after_last_dash; [apply nat_toString_no_dash | apply nat_toString_no_dash | exact H].
Qed.

(* ================================================================== *)
(** ** The service, step by step *)
(* ================================================================== *)

Lemma ret_Ok {A} (a b : A) w s s' : (mret a : M A) w s = (Ok b, s') -> b = a /\ s' = s.
Proof. intros H. inversion H. auto. Qed.

Lemma now_Ok w s t s' :
  now w s = (Ok t, s') -> t = Date_now w (ticks s) /\ s' = with_ticks (S (ticks s)) s.
Proof. intros H. inversion H. auto. Qed.

Lemma random_Ok w s r s' :
  random w s = (Ok r, s') -> r = Math_random w (draws s) /\ s' = with_draws (S (draws s)) s.
Proof. intros H. inversion H. auto. Qed.

Lemma world_Ok w s w' s' : world w s = (Ok w', s') -> w' = w /\ s' = s.
Proof. intros H. inversion H. auto. Qed.

Lemma get_field v k x : get v k = Some x -> x = field v k /\ readable v = true.
Proof. unfold field. intros H. rewrite H. destruct v; try discriminate H; auto. Qed.

(** Take apart a run that returned normally. *)
Ltac minv :=
  repeat match goal with
    | H : (_ ≫= _) _ _ = (Ok _, _) |- _ =>
        let a := fresh "a" in
        let s := fresh "s" in
        let E := fresh "E" in
        apply bind_Ok in H; destruct H as (a & s & E & H)
    | H : prop _ _ _ _ = (Ok _, _) |- _ =>
        apply prop_Ok in H; destruct H as [H ?]; apply get_field in H; destruct H as [? ?]; subst
    | H : or_throw _ _ _ _ = (Ok _, _) |- _ =>
        apply or_throw_Ok in H; destruct H as [H ?]; subst
    | H : now _ _ = (Ok _, _) |- _ => apply now_Ok in H; destruct H as [? ?]; subst
    | H : random _ _ = (Ok _, _) |- _ => apply random_Ok in H; destruct H as [? ?]; subst
    | H : world _ _ = (Ok _, _) |- _ => apply world_Ok in H; destruct H as [? ?]; subst
    | H : @mret M _ _ _ _ _ = (Ok _, _) |- _ => apply ret_Ok in H; destruct H as [? ?]; subst
    end.

Lemma coordinate_or_jitter_Ok given region w s v s' :
  coordinate_or_jitter given region w s = (Ok v, s') ->
  defaulted_coordinate w given region v.
Proof.
  unfold coordinate_or_jitter, defaulted_coordinate.
  destruct (truthy given); intros H; minv; [reflexivity |].
  eexists. eassumption.
Qed.

Lemma processSpot_Ok regionLat regionLng item index w s spot s' :
  processSpot regionLat regionLng item index w s = (Ok spot, s') ->
  processed w regionLat regionLng item index spot.
Proof.
  unfold processSpot. intros H. minv.
  repeat match goal with
         | E : coordinate_or_jitter _ _ _ _ = _ |- _ => apply coordinate_or_jitter_Ok in E
         end.
  match goal with
  | E : (if truthy ?g then _ else _) _ _ = (Ok ?v, _) |- _ =>
      assert (Hposts : defaulted_posts w item index v)
        by (unfold defaulted_posts; destruct (truthy g); minv;
            [reflexivity | eexists; split; [eassumption | reflexivity]])
  end.
  unfold processed; cbn. repeat split; eauto.
Qed.

Lemma map_indexed_processSpot_Ok regionLat regionLng items w :
  forall index s spots_ s',
    map_indexed (processSpot regionLat regionLng) index items w s = (Ok spots_, s') ->
    processed_from w regionLat regionLng index items spots_.
Proof.
  induction items as [| item items IH]; intros index s spots_ s' H; cbn in H.
  - minv. constructor.
  - minv. constructor.
    + eapply processSpot_Ok. eassumption.
    + eapply IH. eassumption.
Qed.

Lemma normalize_Ok query currentLat currentLng rawData w s r s' :
  normalize query currentLat currentLng rawData w s = (Ok r, s') ->
  readable rawData = true
  /\ locationName r = or_else (field rawData "regionName") (VStr query)
  /\ lat (center r) = or_else (field rawData "regionLat") (VNum currentLat)
  /\ lng (center r) = or_else (field rawData "regionLng") (VNum currentLng)
  /\ exists items,
       spot_records rawData = Some items
       /\ processed_from w (lat (center r)) (lng (center r)) 0 items (spots r).
Proof.
  unfold normalize. intros H. minv. cbn.
  repeat split; try assumption.
  unfold map_spots, spot_records in *.
  destruct (or_else (field rawData "spots") (VArr [])); try discriminate.
  eexists. split; [reflexivity |].
  eapply map_indexed_processSpot_Ok. eassumption.
Qed.

(** *** Identifiers and posts of the spots made from a payload *)

Lemma processed_from_index w regionLat regionLng index items spots_ :
  processed_from w regionLat regionLng index items spots_ ->
  Forall (fun spot => exists t j, index <= j /\ id spot = gemini_id t j) spots_.
Proof.
  induction 1 as [| index item items spot spots_ Hp _ IH]; constructor.
  - destruct Hp as (_ & [t Ht] & _). exists t, index. auto.
  - eapply Forall_impl; [exact IH |]. cbn.
    intros x (t & j & Hj & Hx). exists t, j. split; [lia | exact Hx].
Qed.

Lemma processed_from_NoDup w regionLat regionLng index items spots_ :
  processed_from w regionLat regionLng index items spots_ ->
  NoDup (map id spots_).
Proof.
  induction 1 as [| index item items spot spots_ Hp Hrest IH]; cbn.
  - constructor.
  - constructor; [| exact IH].
    intros Hin. apply list_elem_of_In, in_map_iff in Hin.
    destruct Hin as (other & Hid & Hother).
    apply processed_from_index in Hrest.
    rewrite List.Forall_forall in Hrest.
    destruct (Hrest _ Hother) as (t & j & Hj & Hj').
    destruct Hp as (_ & [t0 Ht0] & _).
    rewrite Hj', Ht0 in Hid. apply gemini_id_index in Hid. lia.
Qed.

Lemma processed_posts w regionLat regionLng item index spot :
  processed w regionLat regionLng item index spot -> truthy (viralPosts spot) = true.
Proof.
  intros Hp. unfold processed in Hp.
  assert (Hposts : defaulted_posts w item index (viralPosts spot)) by tauto.
  unfold defaulted_posts in Hposts.
  destruct (truthy (field item "viralPosts")) eqn:E.
  - rewrite Hposts. exact E.
  - destruct Hposts as (text & _ & ->). reflexivity.
Qed.

Lemma processed_from_posts w regionLat regionLng index items spots_ :
  processed_from w regionLat regionLng index items spots_ ->
  Forall (fun spot => truthy (viralPosts spot) = true) spots_.
Proof.
  induction 1; constructor; eauto using processed_posts.
Qed.

(** *** The mock generator *)

Lemma mock_ids_NoDup seed :
  NoDup ["mock-1-" +:+ seed; "mock-2-" +:+ seed; "mock-3-" +:+ seed; "mock-4-" +:+ seed].
Proof.
  rewrite !append_cons, !append_nil.
  repeat (apply NoDup_cons_2; [rewrite ?elem_of_cons, elem_of_nil; intuition discriminate |]).
  apply NoDup_nil_2.
Qed.

Lemma mockSpots_runs query lat_ lng_ w s :
  exists r s',
    mockSpots query lat_ lng_ w s = (Ok r, s')
    /\ only_counters s s'
    /\ length (spots r) = 4
    /\ unique_ids r
    /\ posts_defined r.
Proof.
  pose proof (mockSpots_counters query lat_ lng_ w s) as Hframe.
  unfold mockSpots in *.
  destruct (if includes (toLowerCase query) "paris" then _ else _)
    as [[centerLat centerLng] locName].
  eexists. eexists. split; [reflexivity |].
  split; [exact Hframe |].
  split; [reflexivity |].
  split.
  - unfold unique_ids. cbn. apply mock_ids_NoDup.
  - unfold posts_defined. cbn. repeat constructor.
Qed.

(** *** The paths through [fetchFoodSpots] *)

Lemma fetch_hit query currentLat currentLng w s hit :
  cache_get (requestCache s) (cacheKey query) = Some hit ->
  fetchFoodSpots query currentLat currentLng w s = (Ok hit, s).
Proof.
  intros H. unfold fetchFoodSpots. rewrite bind_run. cbn [get_state]. rewrite H.
  reflexivity.
Qed.

Lemma mock_path_stored query currentLat currentLng (before : M unit) w s :
  requestCache (snd (before w s)) = requestCache s ->
  (exists s1, before w s = (Ok tt, s1)) ->
  stored query s
    ((before;;
      mockResult ← mockSpots query currentLat currentLng;
      cache_put (cacheKey query) mockResult;;
      mret (Own mockResult)) w s).
Proof.
  intros Hcache [s1 Hbefore]. rewrite bind_run, Hbefore. rewrite Hbefore in Hcache.
  destruct (mockSpots_runs query currentLat currentLng w s1)
    as (r & s2 & Hrun & Hframe & _ & Hids & Hposts).
  rewrite bind_run, Hrun.
  exists r. eexists. split; [reflexivity |].
  cbn. destruct Hframe as (-> & _). cbn in Hcache. rewrite Hcache. auto.
Qed.

Lemma stored_from query s s1 out :
  requestCache s1 = requestCache s -> stored query s1 out -> stored query s out.
Proof.
  intros Hc (r & s' & Hout & Hstore & Hr). exists r, s'. rewrite <- Hc. auto.
Qed.

Lemma normalize_counters query currentLat currentLng rawData :
  keeps only_counters (normalize query currentLat currentLng rawData).
Proof.
  unfold normalize.
  repeat first
    [ apply (keeps_ret _ only_counters_refl)
    | apply prop_counters
    | apply map_spots_counters
    | apply (keeps_bind _ only_counters_trans); [| intros ? ] ].
Qed.

Lemma request_frame contents w s :
  requestCache (snd (request contents w s)) = requestCache s
  /\ ui (snd (request contents w s)) = ui s
  /\ console (snd (request contents w s)) = console s.
Proof. unfold request. destruct (generateContent w (requests s) contents); auto. Qed.

Lemma JSON_parse_frame text w s : snd (JSON_parse text w s) = s.
Proof.
  unfold JSON_parse. destruct (String.eqb text "{}"); [reflexivity |].
  rewrite bind_run. cbn [world]. destruct (parse w text); reflexivity.
Qed.

Lemma log_runs e w s : log e w s = (Ok tt, with_console (console s ++ [e]) s).
Proof. reflexivity. Qed.

Lemma fallback_stored query currentLat currentLng e w s :
  stored query s
    ((log (console_error "Gemini API Error:" e);;
      fallback ← mockSpots query currentLat currentLng;
      cache_put (cacheKey query) fallback;;
      mret (Own fallback)) w s).
Proof.
  apply mock_path_stored; [reflexivity |]. eexists. apply log_runs.
Qed.

Lemma try_catch_stored query s (body : M cached) handler w :
  (stored query s (body w s)
   \/ exists e s1, body w s = (Throw e, s1) /\ requestCache s1 = requestCache s) ->
  (forall e s1, stored query s1 (handler e w s1)) ->
  stored query s (try_catch body handler w s).
Proof.
  intros [(r & s' & Hout & H) | (e & s1 & Hout & Hc)] Hh; unfold try_catch; rewrite Hout.
  - exists r, s'. auto.
  - eapply stored_from; [exact Hc | apply Hh].
Qed.

Lemma fetch_miss query currentLat currentLng w s :
  cache_get (requestCache s) (cacheKey query) = None ->
  stored query s (fetchFoodSpots query currentLat currentLng w s).
Proof.
  intros Hmiss. unfold fetchFoodSpots. rewrite bind_run. cbn [get_state]. rewrite Hmiss.
  apply try_catch_stored; [| intros e s1; apply fallback_stored].
  rewrite bind_run. cbn [world].
  destruct (no_API_KEY w).
  - left. apply mock_path_stored; [reflexivity |]. eexists. apply log_runs.
  - rewrite bind_run.
    destruct (request_frame (prompt query) w s) as (Hc1 & _).
    destruct (request (prompt query) w s) as [[text | e] s1]; cbn [snd] in Hc1.
    2: { right. eauto. }
    rewrite bind_run.
    pose proof (JSON_parse_frame (text_or_empty_object text) w s1) as Hc2.
    destruct (JSON_parse (text_or_empty_object text) w s1) as [[rawData | e] s2];
      cbn [snd] in Hc2; subst s2.
    2: { right. eauto. }
    rewrite bind_run.
    pose proof (normalize_counters query currentLat currentLng rawData w s1) as Hc3.
    destruct (normalize query currentLat currentLng rawData w s1) as [[r | e] s3] eqn:En;
      cbn [snd] in Hc3; destruct Hc3 as (Hc3 & _).
    2: { right. exists e, s3. split; [reflexivity | congruence]. }
    left. apply normalize_Ok in En. destruct En as (_ & _ & _ & _ & items & _ & Hfrom).
    exists r. eexists. split; [reflexivity |]. cbn.
    split; [congruence |]. split.
    + eapply processed_from_NoDup. exact Hfrom.
    + eapply processed_from_posts. exact Hfrom.
Qed.

(** [fetchFoodSpots] never throws. *)
Lemma fetchFoodSpots_returns query currentLat currentLng w s :
  exists v s', fetchFoodSpots query currentLat currentLng w s = (Ok v, s').
Proof.
  destruct (cache_get (requestCache s) (cacheKey query)) as [hit |] eqn:E.
  - exists hit, s. apply fetch_hit. exact E.
  - destruct (fetch_miss query currentLat currentLng w s E) as (r & s' & H & _).
    exists (Own r), s'. exact H.
Qed.

Lemma cache_get_insert (c : gmap string DiscoveryResult) k r :
  cache_get (<[k := r]> c) k = Some (Own r).
Proof. unfold cache_get. rewrite lookup_insert_eq. reflexivity. Qed.

(* ================================================================== *)
(** ** Payloads on which the normalisation cannot fail *)
(* ================================================================== *)

Lemma returns_ret w {A} (a : A) (Q : A -> Prop) : Q a -> returns w (mret a) Q.
Proof. intros H s. exists a, s. auto. Qed.

Lemma returns_bind w {A B} (m : M A) (f : A -> M B) (P : A -> Prop) (Q : B -> Prop) :
  returns w m P -> (forall a, P a -> returns w (f a) Q) -> returns w (m ≫= f) Q.
Proof.
  intros Hm Hf s. destruct (Hm s) as (a & s1 & Hrun & Ha).
  destruct (Hf a Ha s1) as (b & s2 & Hrun' & Hb).
  exists b, s2. rewrite bind_run, Hrun. auto.
Qed.

Lemma returns_weaken w {A} (m : M A) (P Q : A -> Prop) :
  returns w m P -> (forall a, P a -> Q a) -> returns w m Q.
Proof.
  intros Hm HPQ s. destruct (Hm s) as (a & s' & Hrun & Ha). exists a, s'. auto.
Qed.

Lemma returns_prop w v k : readable v = true -> returns w (prop v k) (fun x => x = field v k).
Proof. intros H s. exists (field v k), s. split; [apply prop_readable; exact H | reflexivity]. Qed.

Lemma returns_now w : returns w now (fun _ => True).
Proof. intros s. eexists. eexists. split; [reflexivity | exact I]. Qed.

Lemma returns_random w : returns w random (fun _ => True).
Proof. intros s. eexists. eexists. split; [reflexivity | exact I]. Qed.

Lemma returns_world w : returns w world (fun w' => w' = w).
Proof. intros s. exists w, s. auto. Qed.

Lemma returns_or_throw w {A} e (o : option A) : is_Some o -> returns w (or_throw e o) (fun _ => True).
Proof. intros [a ->] s. exists a, s. auto. Qed.

Lemma ToString_primitive c v : primitive v = true -> is_Some (ToString c v).
Proof. destruct v as [| | [|] | | | |]; cbn; intros H; try discriminate H; eauto. Qed.

Lemma ToPrimitive_primitive c v : primitive v = true -> ToPrimitive c v = Some v.
Proof. destruct v; cbn; intros H; try discriminate H; reflexivity. Qed.

Lemma add_primitive c a b :
  primitive a = true -> primitive b = true -> is_Some (add c a b).
Proof.
  intros Ha Hb. unfold add.
  rewrite (ToPrimitive_primitive c a Ha), (ToPrimitive_primitive c b Hb). cbn.
  destruct (is_string a || is_string b); [| eauto].
  destruct (ToString_primitive c a Ha) as [sa ->].
  destruct (ToString_primitive c b Hb) as [sb ->]. cbn. eauto.
Qed.

Lemma returns_coordinate_or_jitter w given region :
  primitive region = true ->
  returns w (coordinate_or_jitter given region) (fun _ => True).
Proof.
  intros Hregion. unfold coordinate_or_jitter. destruct (truthy given).
  - apply returns_ret. exact I.
  - eapply returns_bind; [apply returns_random |]. intros r _.
    eapply returns_bind; [apply returns_world |]. intros w' ->.
    apply returns_or_throw. apply add_primitive; [exact Hregion | reflexivity].
Qed.

Lemma returns_processSpot w regionLat regionLng item index :
  primitive regionLat = true -> primitive regionLng = true ->
  readable item = true -> primitive (field item "name") = true ->
  returns w (processSpot regionLat regionLng item index) (fun _ => True).
Proof.
  intros HLat HLng Hitem Hname. unfold processSpot.
  repeat first
    [ apply returns_ret; exact I
    | eapply returns_bind; [apply returns_now | intros ? _ ]
    | eapply returns_bind; [apply returns_random | intros ? _ ]
    | eapply returns_bind; [apply (returns_prop w item _ Hitem) | intros ? ? ]
    | eapply returns_bind; [apply returns_coordinate_or_jitter; assumption | intros ? _ ] ].
  eapply returns_bind with (P := fun _ => True).
  - match goal with |- returns _ (if ?b then _ else _) _ => destruct b end;
      [apply returns_ret; exact I |].
    eapply returns_bind; [apply (returns_prop w item _ Hitem) | intros shown ->].
    eapply returns_bind; [apply returns_world | intros w' ->].
    eapply returns_bind; [apply returns_or_throw, ToString_primitive, Hname | intros ? _].
    apply returns_ret. exact I.
  - intros posts _.
    eapply returns_bind; [apply returns_now | intros ? _ ].
    apply returns_ret. exact I.
Qed.

Lemma returns_map_indexed w {A B} (f : A -> nat -> M B) (P : A -> Prop) xs :
  (forall a i, P a -> returns w (f a i) (fun _ => True)) ->
  Forall P xs -> forall i, returns w (map_indexed f i xs) (fun _ => True).
Proof.
  intros Hf. induction 1 as [| x rest Hx _ IH]; intros i; cbn.
  - apply returns_ret. exact I.
  - eapply returns_bind; [apply Hf, Hx | intros y _].
    eapply returns_bind; [apply IH | intros ys _].
    apply returns_ret. exact I.
Qed.

Lemma or_else_primitive a b : primitive a = true -> primitive b = true -> primitive (or_else a b) = true.
Proof. unfold or_else. destruct (truthy a); auto. Qed.

Lemma returns_normalize w query currentLat currentLng rawData items :
  tolerable rawData items ->
  returns w (normalize query currentLat currentLng rawData) (fun _ => True).
Proof.
  intros (Hraw & HLat & HLng & Hspots & Hitems). unfold normalize.
  repeat (eapply returns_bind; [apply (returns_prop w rawData _ Hraw) | intros ? -> ]).
  unfold spot_records in Hspots.
  eapply returns_bind; [| intros ? _; apply returns_ret; exact I].
  unfold map_spots.
  destruct (or_else (field rawData "spots") (VArr [])); try discriminate Hspots.
  injection Hspots as ->.
  eapply returns_map_indexed; [| exact Hitems].
  intros item i [Hitem Hname].
  apply returns_processSpot; try assumption; apply or_else_primitive; auto.
Qed.

(** The upstream path, end to end. *)
Lemma fetch_upstream query currentLat currentLng w s rawData r s2 :
  upstream_reply w s query rawData ->
  normalize query currentLat currentLng rawData w (with_requests (S (requests s)) s) = (Ok r, s2) ->
  fetchFoodSpots query currentLat currentLng w s =
    (Ok (Own r), with_cache (<[cacheKey query := r]> (requestCache s2)) s2).
Proof.
  intros (Hmiss & Hkey & text & Hreply & Hparse) Hn.
  unfold fetchFoodSpots. rewrite bind_run. cbn [get_state]. rewrite Hmiss.
  unfold try_catch. rewrite bind_run. cbn [world]. rewrite Hkey.
  rewrite bind_run. unfold request at 1. rewrite Hreply.
  rewrite bind_run.
  pose proof (JSON_parse_frame (text_or_empty_object text) w s) as Hs.
  assert (Hparse' : JSON_parse (text_or_empty_object text) w (with_requests (S (requests s)) s)
                    = (Ok rawData, with_requests (S (requests s)) s)).
  { revert Hparse. unfold JSON_parse.
    destruct (String.eqb (text_or_empty_object text) "{}").
    - cbv [mret M_ret fst]. congruence.
    - rewrite !bind_run. cbn [world].
      destruct (parse w (text_or_empty_object text)); cbv [or_throw mret M_ret throw fst]; congruence. }
  rewrite Hparse'. rewrite bind_run, Hn. reflexivity.
Qed.

(* ================================================================== *)
(** ** The weekly refresh, step by step *)
(* ================================================================== *)

Lemma refreshSpot_Ok old w s new s' :
  refreshSpot old w s = (Ok new, s') -> refresh_of w (draws s) (ticks s) old new.
Proof.
  unfold refreshSpot. intros H. minv.
  split; [unfold refreshed; cbn; repeat split |].
  do 4 eexists.
  split; [| split; [| split; [eassumption | split; [eassumption | split; reflexivity]]]];
    simpl; lia.
Qed.

Lemma refresh_of_earlier w d t d' t' old new :
  d' <= d -> t' <= t -> refresh_of w d t old new -> refresh_of w d' t' old new.
Proof.
  intros Hd Ht (Hr & i & k & sum & score & Hi & Hk & H).
  split; [exact Hr |]. exists i, k, sum, score. repeat split; try tauto; lia.
Qed.

Lemma refresh_all_Ok w l :
  forall index s l' s',
    map_indexed (fun spot _ => refreshSpot spot) index l w s = (Ok l', s') ->
    Forall2 (refresh_of w (draws s) (ticks s)) l l'.
Proof.
  induction l as [| old l IH]; intros index s l' s' H; cbn in H; minv.
  - constructor.
  - constructor.
    + eapply refreshSpot_Ok. eassumption.
    + pose proof (refreshSpot_counters old w s) as Hc.
      rewrite E in Hc. cbn in Hc. destruct Hc as (_ & _ & _ & _ & Hd & Ht).
      eapply Forall2_impl; [eapply IH; eassumption |].
      intros o n. apply refresh_of_earlier; assumption.
Qed.

Lemma refresh_all_counters l index :
  keeps only_counters (map_indexed (fun spot _ => refreshSpot spot) index l).
Proof.
  apply (keeps_map_indexed _ only_counters_refl only_counters_trans).
  intros a i. apply refreshSpot_counters.
Qed.

Lemma addLog_runs msg a w s :
  exists s', addLog msg a w s = (Ok tt, s')
    /\ same_service s s'
    /\ heldSpots (ui s') = heldSpots (ui s)
    /\ draws s <= draws s' /\ ticks s <= ticks s'.
Proof.
  eexists. split; [reflexivity |]. cbn. repeat split; auto with arith.
Qed.

(** The three ways a refresh can go: nothing held, nothing done; every
    spot refreshed; or a coercion of some trending score throws inside the
    timer callback, which nothing catches, and the held spots stay. *)
Lemma weeklyRefresh_cases w s :
  (heldSpots (ui s) = [] /\ weeklyRefresh w s = (Ok tt, s))
  \/ (exists s', weeklyRefresh w s = (Ok tt, s')
        /\ Forall2 (refresh_of w (draws s) (ticks s)) (heldSpots (ui s)) (heldSpots (ui s')))
  \/ (exists e s1 s', weeklyRefresh w s = (Throw e, s')
        /\ heldSpots (ui s') = heldSpots (ui s)
        /\ map_indexed (fun spot _ => refreshSpot spot) 0 (heldSpots (ui s)) w s1 = (Throw e, s')).
Proof.
  unfold weeklyRefresh, handleWeeklyRefresh.
  rewrite !bind_run. cbn [get_state].
  destruct (heldSpots (ui s)) as [| spot rest] eqn:Eheld.
  { left. split; reflexivity. }
  right. cbn [length Nat.eqb].
  rewrite !bind_run. cbn [setActiveAgent modify].
  destruct (addLog_runs "Executing Weekly Analytics Refresh..." REFRESH w
              (with_ui (with_activeAgent REFRESH (ui s)) s))
    as (s1 & Hlog & _ & Hheld & Hd & Ht).
  rewrite bind_run, Hlog. cbn [mret M_ret callback]. unfold refresh_callback.
  rewrite bind_run.
  pose proof (refresh_all_counters (spot :: rest) 0 w s1) as Hc.
  destruct (map_indexed (fun spot _ => refreshSpot spot) 0 (spot :: rest) w s1)
    as [[l' | e] s2] eqn:Emap; cbn [snd] in Hc.
  - left. eexists. split; [reflexivity |]. cbn.
    apply refresh_all_Ok in Emap.
    eapply Forall2_impl; [exact Emap |].
    intros o n. apply refresh_of_earlier; cbn in *; lia.
  - right. exists e, s1, s2. split; [reflexivity |]. split; [| exact Emap].
    destruct Hc as (_ & _ & _ & -> & _). cbn in Hheld. rewrite Hheld. exact Eheld.
Qed.

(* ================================================================== *)
(** ** The claims *)
(* ================================================================== *)

(** *** C6 *)

(** C6. [mockSpots("kochi", 9.9312, 76.2673)], in whatever world and state
    it is called, returns the location name "Kochi, Kerala", the literal
    centre (9.9312, 76.2673) and the four spots Paragon Restaurant, Kashi
    Art Cafe, Grand Pavilion and District 7 Restro Cafe, at the fixed
    offsets (+0.002, -0.003), (-0.004, -0.012), (+0.005, +0.002) and
    (-0.001, +0.008) from the centre. *)
Theorem mockSpots_kochi (w : World) (s : State) :
  exists r s',
    mockSpots "kochi" (Num 9.9312) (Num 76.2673) w s = (Ok r, s')
    /\ locationName r = VStr "Kochi, Kerala"
    /\ center r = {| lat := VNum (Num 9.9312); lng := VNum (Num 76.2673) |}
    /\ map name (spots r) =
         [VStr "Paragon Restaurant"; VStr "Kashi Art Cafe";
          VStr "Grand Pavilion"; VStr "District 7 Restro Cafe"]
    /\ map coordinates (spots r) = mock_coordinates (Num 9.9312) (Num 76.2673).
Proof.
  eexists. eexists. split; [vm_compute; reflexivity |].
  repeat split; reflexivity.
Qed.

(** *** C1 *)

(** C1, the failing input. On a fresh page, in every world and for every
    fallback coordinate, [fetchFoodSpots("constructor", lat, lng)] resolves
    to the member [constructor] that the cache object inherits from
    [Object.prototype]: a value that is not a [DiscoveryResult] and has no
    spot list. Nothing is requested, stored or logged. *)
Theorem fetchFoodSpots_constructor (w : World) (currentLat currentLng : number) :
  fetchFoodSpots "constructor" currentLat currentLng w initial
  = (Ok (Inherited "constructor"), initial).
Proof. apply fetch_hit. reflexivity. Qed.

(** An inherited key is never stored, so the same happens in every state
    that a process can reach. *)
Lemma inherited_never_stored w s k :
  reachable w s ->
  existsb (String.eqb k) Object_prototype = true ->
  requestCache s !! k = None.
Proof.
  intros Hreach Hk.
  induction Hreach as [s Hempty | s query a b Hreach IH | s s' Hreach IH Hsame].
  - rewrite Hempty. apply lookup_empty.
  - destruct (cache_get (requestCache s) (cacheKey query)) as [hit |] eqn:E.
    + rewrite (fetch_hit query a b w s hit E). exact IH.
    + destruct (fetch_miss query a b w s E) as (r & s' & -> & Hstore & _).
      cbn [snd]. rewrite Hstore.
      rewrite lookup_insert_ne; [exact IH |].
      intros <-. unfold cache_get in E. rewrite IH, Hk in E. discriminate E.
  - rewrite Hsame. exact IH.
Qed.

Lemma fetchFoodSpots_inherited query currentLat currentLng w s :
  reachable w s ->
  existsb (String.eqb (cacheKey query)) Object_prototype = true ->
  fetchFoodSpots query currentLat currentLng w s = (Ok (Inherited (cacheKey query)), s).
Proof.
  intros Hreach Hk. apply fetch_hit. unfold cache_get.
  rewrite (inherited_never_stored w s _ Hreach Hk), Hk. reflexivity.
Qed.

(** The part of C1 that the code does keep: [fetchFoodSpots] never throws,
    and resolves to a [DiscoveryResult] whenever the key is not the name of
    a member of [Object.prototype]. *)
Lemma fetchFoodSpots_resolves query currentLat currentLng w s :
  reachable w s ->
  existsb (String.eqb (cacheKey query)) Object_prototype = false ->
  exists r s', fetchFoodSpots query currentLat currentLng w s = (Ok (Own r), s').
Proof.
  intros _ Hkey.
  destruct (requestCache s !! cacheKey query) as [r |] eqn:E.
  - exists r, s. apply fetch_hit. unfold cache_get. rewrite E. reflexivity.
  - assert (Hmiss : cache_get (requestCache s) (cacheKey query) = None).
    { unfold cache_get. rewrite E, Hkey. reflexivity. }
    destruct (fetch_miss query currentLat currentLng w s Hmiss) as (r & s' & H & _).
    exists r, s'. exact H.
Qed.

(** On a miss, a missing credential and a rejected request both end in the
    mock generator's output. *)
Lemma fetch_rejected query currentLat currentLng w s r s1 :
  cache_get (requestCache s) (cacheKey query) = None ->
  no_API_KEY w = false ->
  generateContent w (requests s) (prompt query) = Rejected ->
  mockSpots query currentLat currentLng w
    (with_console (console s ++ [console_error "Gemini API Error:" RequestFailed])
       (with_requests (S (requests s)) s))
  = (Ok r, s1) ->
  fetchFoodSpots query currentLat currentLng w s
  = (Ok (Own r), with_cache (<[cacheKey query := r]> (requestCache s1)) s1).
Proof.
  intros Hmiss Hkey Hreply Hmock.
  unfold fetchFoodSpots. rewrite bind_run. cbn [get_state]. rewrite Hmiss.
  unfold try_catch. rewrite bind_run. cbn [world]. rewrite Hkey.
  rewrite bind_run. unfold request at 1. rewrite Hreply.
  rewrite bind_run, log_runs. cbn [console with_requests].
  rewrite bind_run, Hmock. reflexivity.
Qed.

(** *** C2 *)

(** C2. If two queries have the same key (equal after case folding and
    trimming), a call for the second that follows a call for the first
    returns what the first returned and leaves the state as the first left
    it, whatever coordinates it is given: the cache is not written, the
    backend is not called again, nothing is logged. *)
Theorem fetchFoodSpots_idempotent (q1 q2 : string) (a b c d : number) (w : World) (s : State) :
  cacheKey q1 = cacheKey q2 ->
  fetchFoodSpots q2 c d w (snd (fetchFoodSpots q1 a b w s)) = fetchFoodSpots q1 a b w s.
Proof.
  intros Hkey.
  destruct (cache_get (requestCache s) (cacheKey q1)) as [hit |] eqn:E.
  - rewrite (fetch_hit q1 a b w s hit E). cbn [snd].
    apply fetch_hit. rewrite <- Hkey. exact E.
  - destruct (fetch_miss q1 a b w s E) as (r & s' & -> & Hstore & _). cbn [snd].
    apply fetch_hit. rewrite <- Hkey, Hstore. apply cache_get_insert.
Qed.

Lemma fetchFoodSpots_idempotent_witness :
  cacheKey "Paris" = cacheKey "  PARIS "
  /\ fetchFoodSpots "  PARIS " (Num 9.9312) (Num 76.2673) offline
       (snd (fetchFoodSpots "Paris" (Num 48.85) (Num 2.35) offline initial))
     = fetchFoodSpots "Paris" (Num 48.85) (Num 2.35) offline initial.
Proof.
  split; [reflexivity |].
  apply (fetchFoodSpots_idempotent "Paris" "  PARIS "). reflexivity.
Defined.

(** *** C8 *)

Lemma reachable_cache w s :
  reachable w s ->
  forall k r, requestCache s !! k = Some r -> unique_ids r /\ posts_defined r.
Proof.
  induction 1 as [s Hempty | s query a b Hreach IH | s s' Hreach IH Hsame]; intros k r Hk.
  - rewrite Hempty, lookup_empty in Hk. discriminate Hk.
  - destruct (cache_get (requestCache s) (cacheKey query)) as [hit |] eqn:E.
    + rewrite (fetch_hit query a b w s hit E) in Hk. eapply IH. exact Hk.
    + destruct (fetch_miss query a b w s E) as (r' & s' & Hrun & Hstore & Hids & Hposts).
      rewrite Hrun in Hk. cbn [snd] in Hk. rewrite Hstore in Hk.
      destruct (decide (cacheKey query = k)) as [<- | Hne].
      * rewrite lookup_insert_eq in Hk. injection Hk as <-. auto.
      * rewrite lookup_insert_ne in Hk by exact Hne. eapply IH. exact Hk.
  - rewrite Hsame in Hk. eapply IH. exact Hk.
Qed.

Lemma fetch_result w s query currentLat currentLng r s' :
  reachable w s ->
  fetchFoodSpots query currentLat currentLng w s = (Ok (Own r), s') ->
  unique_ids r /\ posts_defined r.
Proof.
  intros Hreach Hrun.
  destruct (cache_get (requestCache s) (cacheKey query)) as [hit |] eqn:E.
  - rewrite (fetch_hit _ _ _ _ _ _ E) in Hrun. injection Hrun as -> _.
    unfold cache_get in E.
    destruct (requestCache s !! cacheKey query) as [r' |] eqn:Ek.
    + injection E as ->. eapply reachable_cache; eassumption.
    + destruct (existsb _ _); discriminate E.
  - destruct (fetch_miss query currentLat currentLng w s E) as (r' & s'' & Hrun' & _ & Hr).
    rewrite Hrun in Hrun'. injection Hrun' as -> _. exact Hr.
Qed.

(** C8. In every state that a process can reach, a [DiscoveryResult] to
    which [fetchFoodSpots] resolves (made by the upstream path, made by the
    mock generator, or taken from the cache) has no two spots, at
    different positions, with the same [id]. *)
Theorem fetchFoodSpots_unique_ids (w : World) (s : State) (query : string)
  (currentLat currentLng : number) (r : DiscoveryResult) (s' : State) :
  reachable w s ->
  fetchFoodSpots query currentLat currentLng w s = (Ok (Own r), s') ->
  forall i j a b,
    spots r !! i = Some a -> spots r !! j = Some b -> id a = id b -> i = j.
Proof.
  intros Hreach Hrun.
  assert (Hids : unique_ids r).
  { destruct (cache_get (requestCache s) (cacheKey query)) as [hit |] eqn:E.
    - rewrite (fetch_hit _ _ _ _ _ _ E) in Hrun. injection Hrun as -> _.
      unfold cache_get in E.
      destruct (requestCache s !! cacheKey query) as [r' |] eqn:Ek.
      + injection E as ->. eapply reachable_cache; eassumption.
      + destruct (existsb _ _); discriminate E.
    - destruct (fetch_miss query currentLat currentLng w s E) as (r' & s'' & Hrun' & _ & Hr & _).
      rewrite Hrun in Hrun'. injection Hrun' as -> _. exact Hr. }
  intros i j a b Hi Hj Hab.
  apply (NoDup_lookup (map id (spots r)) i j (id a) Hids).
  - change (map id (spots r)) with (id <$> spots r). rewrite list_lookup_fmap, Hi. reflexivity.
  - change (map id (spots r)) with (id <$> spots r). rewrite list_lookup_fmap, Hj, Hab. reflexivity.
Qed.

Lemma fetchFoodSpots_unique_ids_witness :
  exists r s',
    reachable (online sample_payload) initial
    /\ fetchFoodSpots "Lisbon" (Num 9.9312) (Num 76.2673) (online sample_payload) initial
       = (Ok (Own r), s')
    /\ map id (spots r) = ["gemini-1700000000000-0"; "gemini-1700000000002-1"]
    /\ forall i j a b,
         spots r !! i = Some a -> spots r !! j = Some b -> id a = id b -> i = j.
Proof.
  assert (H0 : reachable (online sample_payload) initial) by (apply reach_start; reflexivity).
  eexists. eexists. split; [exact H0 |].
  split; [vm_compute; reflexivity |].
  split; [reflexivity |].
  eapply (fetchFoodSpots_unique_ids (online sample_payload) initial "Lisbon"
            (Num 9.9312) (Num 76.2673)); [exact H0 |].
  vm_compute. reflexivity.
Defined.

(** *** C9 *)

Lemma refreshed_refl spot : refreshed spot spot.
Proof. unfold refreshed. repeat split. Qed.

Lemma Forall2_refreshed_refl l : Forall2 refreshed l l.
Proof. induction l; constructor; auto using refreshed_refl. Qed.

(** The handler and its callback, run back to back. *)
Lemma weeklyRefresh_flat w s :
  weeklyRefresh w s =
  (if (length (heldSpots (ui s)) =? 0)%nat then mret tt
   else
     setActiveAgent REFRESH;;
     addLog "Executing Weekly Analytics Refresh..." REFRESH;;
     refresh_callback (heldSpots (ui s))) w s.
Proof.
  unfold weeklyRefresh, handleWeeklyRefresh. rewrite !bind_run. cbn [get_state].
  destruct (length (heldSpots (ui s)) =? 0)%nat; reflexivity.
Qed.

Lemma blind_ret {A} (a : A) : cache_blind (mret a).
Proof. intros w s c. reflexivity. Qed.

Lemma blind_bind {A B} (m : M A) (f : A -> M B) :
  cache_blind m -> (forall a, cache_blind (f a)) -> cache_blind (m ≫= f).
Proof.
  intros Hm Hf w s c. rewrite !bind_run, Hm.
  destruct (m w s) as [[a | e] s1]; cbn [fst snd]; [apply Hf | reflexivity].
Qed.

Lemma blind_or_throw {A} e (o : option A) : cache_blind (or_throw e o).
Proof. destruct o; intros w s c; reflexivity. Qed.

Lemma blind_map_indexed {A B} (f : A -> nat -> M B) xs :
  (forall a i, cache_blind (f a i)) -> forall i, cache_blind (map_indexed f i xs).
Proof.
  intros Hf. induction xs as [| x rest IH]; intros i; cbn.
  - apply blind_ret.
  - apply blind_bind; [apply Hf |]. intros y.
    apply blind_bind; [apply IH |]. intros ys. apply blind_ret.
Qed.

Lemma blind_now : cache_blind now.
Proof. intros w s c. reflexivity. Qed.

Lemma blind_random : cache_blind random.
Proof. intros w s c. reflexivity. Qed.

Lemma blind_world : cache_blind world.
Proof. intros w s c. reflexivity. Qed.

Lemma blind_addLog msg a : cache_blind (addLog msg a).
Proof. intros w s c. reflexivity. Qed.

Lemma blind_setSpots l : cache_blind (setSpots l).
Proof. intros w s c. reflexivity. Qed.

Lemma blind_setActiveAgent a : cache_blind (setActiveAgent a).
Proof. intros w s c. reflexivity. Qed.

Lemma blind_refreshSpot spot : cache_blind (refreshSpot spot).
Proof.
  unfold refreshSpot.
  repeat first
    [ apply blind_ret
    | apply blind_or_throw
    | apply blind_bind; [first [apply blind_random | apply blind_world | apply blind_now
                               | apply blind_or_throw] | intros ? ] ].
Qed.

Lemma blind_refresh_callback l : cache_blind (refresh_callback l).
Proof.
  unfold refresh_callback.
  apply blind_bind; [apply blind_map_indexed; intros; apply blind_refreshSpot | intros ?].
  apply blind_bind; [apply blind_setSpots | intros ?].
  apply blind_bind; [apply blind_addLog | intros ?].
  apply blind_setActiveAgent.
Qed.

Lemma blind_weeklyRefresh : cache_blind weeklyRefresh.
Proof.
  intros w s c. rewrite !weeklyRefresh_flat.
  change (heldSpots (ui (with_cache c s))) with (heldSpots (ui s)).
  destruct (length (heldSpots (ui s)) =? 0)%nat; [reflexivity |].
  generalize (heldSpots (ui s)). intros l. revert w s c.
  change (cache_blind
            (setActiveAgent REFRESH;;
             addLog "Executing Weekly Analytics Refresh..." REFRESH;;
             refresh_callback l)).
  apply blind_bind; [apply blind_setActiveAgent | intros ?].
  apply blind_bind; [apply blind_addLog | intros ?].
  apply blind_refresh_callback.
Qed.

Lemma refresh_callback_keeps_service l : keeps same_service (refresh_callback l).
Proof.
  unfold refresh_callback.
  apply (keeps_bind _ same_service_trans).
  { intros w s. apply only_counters_service. apply refresh_all_counters. }
  intros updated. apply (keeps_bind _ same_service_trans).
  { apply keeps_modify. intros s. repeat split. }
  intros _. apply (keeps_bind _ same_service_trans).
  { intros w s. destruct (addLog_runs "Refresh complete. Trends updated." IDLE w s)
      as (s' & -> & H & _). exact H. }
  intros _. apply keeps_modify. intros s. repeat split.
Qed.

Lemma weeklyRefresh_keeps_service : keeps same_service weeklyRefresh.
Proof.
  intros w s. rewrite weeklyRefresh_flat.
  destruct (length (heldSpots (ui s)) =? 0)%nat; [apply same_service_refl |].
  generalize (heldSpots (ui s)). intros l. revert w s.
  change (keeps same_service
            (setActiveAgent REFRESH;;
             addLog "Executing Weekly Analytics Refresh..." REFRESH;;
             refresh_callback l)).
  apply (keeps_bind _ same_service_trans).
  { apply keeps_modify. intros s. repeat split. }
  intros _. apply (keeps_bind _ same_service_trans).
  { intros w s. destruct (addLog_runs "Executing Weekly Analytics Refresh..." REFRESH w s)
      as (s' & -> & H & _). exact H. }
  intros _. apply refresh_callback_keeps_service.
Qed.

Lemma refresh_of_refreshed w d t old new : refresh_of w d t old new -> refreshed old new.
Proof. intros [H _]. exact H. Qed.

(** C9. The weekly refresh changes, in each held spot, nothing but
    [trendingScore] and [lastUpdated] (if its callback throws, it changes
    no spot at all); it leaves the cache, the count of calls to the
    backend and the console as they were; and it does not read the cache:
    run on any other cache it does the same and leaves that cache in
    place. *)
Theorem weeklyRefresh_frame (w : World) (s : State) :
  Forall2 refreshed (heldSpots (ui s)) (heldSpots (ui (snd (weeklyRefresh w s))))
  /\ requestCache (snd (weeklyRefresh w s)) = requestCache s
  /\ requests (snd (weeklyRefresh w s)) = requests s
  /\ console (snd (weeklyRefresh w s)) = console s
  /\ forall c,
       weeklyRefresh w (with_cache c s)
       = (fst (weeklyRefresh w s), with_cache c (snd (weeklyRefresh w s))).
Proof.
  split; [| split; [| split; [| split]]];
    try apply (weeklyRefresh_keeps_service w s).
  - destruct (weeklyRefresh_cases w s)
      as [[Hnil ->] | [(s' & -> & Hall) | (e & s1 & s' & -> & Hheld & _)]]; cbn [snd].
    + apply Forall2_refreshed_refl.
    + eapply Forall2_impl; [exact Hall |]. intros o n. apply refresh_of_refreshed.
    + rewrite Hheld. apply Forall2_refreshed_refl.
  - apply blind_weeklyRefresh.
Qed.

(** *** C3 *)

Lemma Forall2_impl_elem {A B} (R R' : A -> B -> Prop) l l' :
  Forall2 R l l' -> (forall x y, x ∈ l -> R x y -> R' x y) -> Forall2 R' l l'.
Proof.
  induction 1 as [| x y l l' Hxy _ IH]; intros H; constructor.
  - apply H; [apply list_elem_of_here | exact Hxy].
  - apply IH. intros a b Ha. apply H. apply list_elem_of_further. exact Ha.
Qed.

Lemma floor_range r :
  (0 <= r /\ r < 1)%Q -> (-3 <= Math_floor (r * 10 - 3) <= 6)%Z.
Proof.
  intros [H0 H1]. unfold Math_floor. split.
  - rewrite <- (Qfloor_Z (-3)). apply Qfloor_resp_le.
    change (-3 <= r * 10 - 3)%Q. lra.
  - assert (H : (inject_Z (Qfloor (r * 10 - 3)) < inject_Z 7)%Q).
    { eapply Qle_lt_trans; [apply Qfloor_le |]. change (r * 10 - 3 < 7)%Q. lra. }
    rewrite <- Zlt_Qlt in H. lia.
Qed.

Lemma num_min_100 q : exists t', num_min (Num 100) (Num q) = Num t' /\ (t' <= 100)%Q.
Proof.
  unfold num_min. destruct (Qle_bool 100 q) eqn:E.
  - exists 100%Q. split; [reflexivity | lra].
  - exists q. split; [reflexivity |].
    destruct (Qlt_le_dec q 100) as [H | H]; [lra |].
    apply Qle_bool_iff in H. congruence.
Qed.

Lemma refresh_of_rescored w s old new :
  unit_draws w ->
  (exists n, trendingScore old = VNum n) ->
  refresh_of w (draws s) (ticks s) old new -> rescored w s old new.
Proof.
  intros Hdraws [n Hn] (_ & i & k & sum & score & _ & Hk & Hadd & Hmin & Hscore & Hstamp).
  rewrite Hn in Hadd. cbn in Hadd. injection Hadd as <-.
  cbn in Hmin. injection Hmin as <-.
  exists n, (Math_floor (Math_random w i * 10 - 3)), k.
  split; [exact Hn |]. split; [apply floor_range, Hdraws |].
  split; [exact Hscore |]. split; [| split; assumption].
  intros t ->. rewrite Hscore.
  destruct (num_min_100 (t + inject_Z (Math_floor (Math_random w i * 10 - 3))))
    as (t' & Ht' & Hle).
  exists t'. split; [| exact Hle]. f_equal. exact Ht'.
Qed.

Lemma returns_refreshSpot w spot :
  (exists n, trendingScore spot = VNum n) ->
  returns w (refreshSpot spot) (fun _ => True).
Proof.
  intros [n Hn] s. unfold refreshSpot. rewrite Hn.
  eexists. eexists. split; [reflexivity | exact I].
Qed.

(** C3, as amended. If every draw of [Math.random()] lies in [0, 1) and
    every held trending score is a number, the weekly refresh of N held
    spots completes and leaves N spots; each has its trending score
    replaced by [Math.min(100, old + d)] for an integer [d] with
    -3 <= d <= 6, hence never above 100, and its [lastUpdated] replaced by
    a reading of the clock taken during the refresh; where the clock then
    reads later than every held timestamp, every new timestamp is strictly
    greater than the one it replaces. *)
Theorem weeklyRefresh_rescores (w : World) (s : State) :
  unit_draws w ->
  numeric_scores (heldSpots (ui s)) ->
  exists s',
    weeklyRefresh w s = (Ok tt, s')
    /\ length (heldSpots (ui s')) = length (heldSpots (ui s))
    /\ Forall2 (rescored w s) (heldSpots (ui s)) (heldSpots (ui s'))
    /\ (clock_ahead w s ->
        Forall2 (fun old new => (lastUpdated old < lastUpdated new)%Z)
          (heldSpots (ui s)) (heldSpots (ui s'))).
Proof.
  intros Hdraws Hnum.
  assert (Hall : exists s', weeklyRefresh w s = (Ok tt, s')
                   /\ Forall2 (rescored w s) (heldSpots (ui s)) (heldSpots (ui s'))).
  { destruct (weeklyRefresh_cases w s)
      as [[Hnil Hrun] | [(s' & Hrun & Hall) | (e & s1 & s' & _ & _ & Hthrow)]].
    - exists s. split; [exact Hrun |]. rewrite Hnil. constructor.
    - exists s'. split; [exact Hrun |].
      eapply Forall2_impl_elem; [exact Hall |].
      intros old new Hin. apply refresh_of_rescored; [exact Hdraws |].
      unfold numeric_scores in Hnum. rewrite List.Forall_forall in Hnum.
      apply Hnum. apply list_elem_of_In. exact Hin.
    - exfalso.
      destruct (returns_map_indexed w (fun spot (_ : nat) => refreshSpot spot)
                  (fun spot => exists n, trendingScore spot = VNum n)
                  (heldSpots (ui s)) (fun a _ => returns_refreshSpot w a) Hnum 0 s1)
        as (l & s2 & Hrun & _).
      rewrite Hrun in Hthrow. discriminate Hthrow. }
  destruct Hall as (s' & Hrun & Hall).
  exists s'. split; [exact Hrun |]. split; [| split; [exact Hall |]].
  - symmetry. eapply Forall2_length. exact Hall.
  - intros Hclock. eapply Forall2_impl_elem; [exact Hall |].
    intros old new Hin (n & d & k & _ & _ & _ & _ & Hk & ->).
    apply Hclock; assumption.
Qed.

Lemma weeklyRefresh_rescores_witness :
  unit_draws offline
  /\ numeric_scores (heldSpots (ui kochi_page))
  /\ clock_ahead offline kochi_page
  /\ exists s',
       weeklyRefresh offline kochi_page = (Ok tt, s')
       /\ length (heldSpots (ui s')) = length (heldSpots (ui kochi_page))
       /\ Forall2 (rescored offline kochi_page) (heldSpots (ui kochi_page)) (heldSpots (ui s'))
       /\ Forall2 (fun old new => (lastUpdated old < lastUpdated new)%Z)
            (heldSpots (ui kochi_page)) (heldSpots (ui s')).
Proof.
  assert (H1 : unit_draws offline).
  { intros k. split; vm_compute; [intros H; discriminate H | reflexivity]. }
  assert (H2 : numeric_scores (heldSpots (ui kochi_page))).
  { vm_compute. repeat constructor; eexists; reflexivity. }
  assert (H3 : clock_ahead offline kochi_page).
  { intros spot k Hin Hk.
    change (ticks kochi_page) with 4 in Hk.
    change (Date_now offline k) with (1700000000000 + Z.of_nat k)%Z.
    change (heldSpots (ui kochi_page)) with kochi_spots in Hin.
    apply list_elem_of_In in Hin.
    destruct Hin as [<- | [<- | [<- | [<- | []]]]];
      match goal with |- (?a < _)%Z => let v := eval vm_compute in a in change a with v end;
      lia. }
  split; [exact H1 |]. split; [exact H2 |]. split; [exact H3 |].
  destruct (weeklyRefresh_rescores offline kochi_page H1 H2) as (s' & Hrun & Hlen & Hall & Hlater).
  exists s'. split; [exact Hrun |]. split; [exact Hlen |]. split; [exact Hall |].
  exact (Hlater H3).
Defined.

(** C3, the counterexample. On the page that holds the four mock spots of
    Kochi (scores 95, 88, 82, 96), with a draw of 0.95, the refresh yields
    the scores 100, 94, 88, 100: the second and third have risen by 6,
    which is more than 3. *)
Lemma weeklyRefresh_raises_score_by_6 :
  map trendingScore (heldSpots (ui kochi_page))
  = [VNum (Num 95); VNum (Num 88); VNum (Num 82); VNum (Num 96)]
  /\ Math_random offline 0 = 0.95%Q
  /\ map trendingScore (heldSpots (ui (snd (weeklyRefresh offline kochi_page))))
     = [VNum (Num 100); VNum (Num 94); VNum (Num 88); VNum (Num 100)]
  /\ (88 + 3 < 94)%Q.
Proof.
  split; [vm_compute; reflexivity |].
  split; [reflexivity |].
  split; [vm_compute; reflexivity |].
  vm_compute. reflexivity.
Qed.

(** *** C4 *)

(** C4, as amended. Two calls of [mockSpots] with the same query and the
    same fallback coordinates, in whatever worlds and states, both return,
    and their results agree in the location name, in the centre and, spot
    by spot, in every field but [lastUpdated], which holds the readings of
    the clock taken during the call; where the four readings agree, the
    results are equal. *)
Theorem mockSpots_reproducible (query : string) (lat_ lng_ : number)
  (w w' : World) (s s' : State) :
  exists r r' s1 s1',
    mockSpots query lat_ lng_ w s = (Ok r, s1)
    /\ mockSpots query lat_ lng_ w' s' = (Ok r', s1')
    /\ locationName r' = locationName r
    /\ center r' = center r
    /\ Forall2 same_but_lastUpdated (spots r) (spots r')
    /\ map lastUpdated (spots r)
       = map (fun i => Date_now w (i + ticks s)) [0; 1; 2; 3]
    /\ ((forall i, i < 4 -> Date_now w' (i + ticks s') = Date_now w (i + ticks s)) -> r' = r).
Proof.
  unfold mockSpots.
  destruct (if includes (toLowerCase query) "paris" then _ else _)
    as [[centerLat centerLng] locName].
  do 4 eexists.
  split; [reflexivity |]. split; [reflexivity |].
  split; [reflexivity |]. split; [reflexivity |].
  split; [| split; [reflexivity |]].
  - repeat constructor.
  - intros H.
    pose proof (H 0 ltac:(lia)) as H0. pose proof (H 1 ltac:(lia)) as H1.
    pose proof (H 2 ltac:(lia)) as H2. pose proof (H 3 ltac:(lia)) as H3.
    cbn [Nat.add] in H0, H1, H2, H3. cbn [ticks with_ticks].
    rewrite H0, H1, H2, H3. reflexivity.
Qed.

(** C4, the counterexample. Calling [mockSpots("kochi", 9.9312, 76.2673)]
    twice in a row, on a clock that advances, gives two results that are
    not equal: the timestamps of the first are the readings 0 to 3 of the
    clock, those of the second the readings 4 to 7. *)
Lemma mockSpots_twice_differ :
  fst (mockSpots "kochi" (Num 9.9312) (Num 76.2673) offline
         (snd (mockSpots "kochi" (Num 9.9312) (Num 76.2673) offline initial)))
  <> fst (mockSpots "kochi" (Num 9.9312) (Num 76.2673) offline initial).
Proof.
  intros H.
  apply (f_equal (fun o => match o with
                           | Ok r => map lastUpdated (spots r)
                           | Throw _ => []
                           end)) in H.
  vm_compute in H. discriminate H.
Qed.

(** *** C7 *)

Lemma not_kochi_literal query :
  includes (toLowerCase query) "kochi" = false -> String.eqb query "Kochi, Kerala" = false.
Proof.
  intros H. destruct (String.eqb query "Kochi, Kerala") eqn:E; [| reflexivity].
  apply String.eqb_eq in E. subst query. vm_compute in H. discriminate H.
Qed.

Lemma fetch_without_key query currentLat currentLng w s r s1 :
  cache_get (requestCache s) (cacheKey query) = None ->
  no_API_KEY w = true ->
  mockSpots query currentLat currentLng w
    (with_console (console s ++ [console_warn "No API Key provided. Returning mock data."]) s)
  = (Ok r, s1) ->
  fetchFoodSpots query currentLat currentLng w s
  = (Ok (Own r), with_cache (<[cacheKey query := r]> (requestCache s1)) s1).
Proof.
  intros Hmiss Hkey Hmock.
  unfold fetchFoodSpots. rewrite bind_run. cbn [get_state]. rewrite Hmiss.
  unfold try_catch. rewrite bind_run. cbn [world]. rewrite Hkey.
  rewrite bind_run, log_runs. rewrite bind_run, Hmock. reflexivity.
Qed.

(** C7, as amended. For every query whose lower-cased text contains none
    of "paris", "new york" and "kochi", [mockSpots] returns the query
    itself as location name, the fallback coordinates as centre, and four
    spots at the fixed offsets from the fallback coordinates; and when no
    credential is configured and the cache yields nothing for the query's
    key, [fetchFoodSpots] resolves to such a result: its location name is
    the query and it has exactly four spots. *)
Theorem mockSpots_unrecognized (query : string) (lat_ lng_ : number) (w : World) (s : State) :
  includes (toLowerCase query) "paris" = false ->
  includes (toLowerCase query) "new york" = false ->
  includes (toLowerCase query) "kochi" = false ->
  (exists r s',
     mockSpots query lat_ lng_ w s = (Ok r, s')
     /\ locationName r = VStr query
     /\ center r = {| lat := VNum lat_; lng := VNum lng_ |}
     /\ length (spots r) = 4
     /\ map coordinates (spots r) = mock_coordinates lat_ lng_)
  /\ (no_API_KEY w = true ->
      cache_get (requestCache s) (cacheKey query) = None ->
      exists r s',
        fetchFoodSpots query lat_ lng_ w s = (Ok (Own r), s')
        /\ locationName r = VStr query
        /\ center r = {| lat := VNum lat_; lng := VNum lng_ |}
        /\ length (spots r) = 4
        /\ map coordinates (spots r) = mock_coordinates lat_ lng_).
Proof.
  intros Hparis Hny Hkochi.
  assert (Hmock : forall s0, exists r s',
             mockSpots query lat_ lng_ w s0 = (Ok r, s')
             /\ locationName r = VStr query
             /\ center r = {| lat := VNum lat_; lng := VNum lng_ |}
             /\ length (spots r) = 4
             /\ map coordinates (spots r) = mock_coordinates lat_ lng_).
  { intros s0. unfold mockSpots.
    rewrite Hparis, Hny, Hkochi, (not_kochi_literal query Hkochi). cbn [orb].
    eexists. eexists. split; [reflexivity |]. repeat split. }
  split; [apply Hmock |].
  intros Hkey Hmiss.
  destruct (Hmock (with_console
                     (console s ++ [console_warn "No API Key provided. Returning mock data."]) s))
    as (r & s1 & Hrun & Hr).
  exists r. eexists. split; [| exact Hr].
  apply fetch_without_key; eassumption.
Qed.

Lemma mockSpots_unrecognized_witness :
  (exists r s',
     mockSpots "Tokyo" (Num 9.9312) (Num 76.2673) offline initial = (Ok r, s')
     /\ locationName r = VStr "Tokyo"
     /\ center r = {| lat := VNum (Num 9.9312); lng := VNum (Num 76.2673) |}
     /\ length (spots r) = 4
     /\ map coordinates (spots r) = mock_coordinates (Num 9.9312) (Num 76.2673))
  /\ (exists r s',
        fetchFoodSpots "Tokyo" (Num 9.9312) (Num 76.2673) offline initial = (Ok (Own r), s')
        /\ locationName r = VStr "Tokyo"
        /\ center r = {| lat := VNum (Num 9.9312); lng := VNum (Num 76.2673) |}
        /\ length (spots r) = 4
        /\ map coordinates (spots r) = mock_coordinates (Num 9.9312) (Num 76.2673)).
Proof.
  destruct (mockSpots_unrecognized "Tokyo" (Num 9.9312) (Num 76.2673) offline initial
              eq_refl eq_refl eq_refl) as [Hmock Hfetch].
  split; [exact Hmock |].
  apply Hfetch; reflexivity.
Defined.

(** C7, the counterexamples. The query "PARIS" contains none of the three
    substrings, yet the mock generator answers with "Paris, France" and
    its centre, not with the query and the fallback coordinates. And with
    no credential configured, [fetchFoodSpots("Tokyo", ...)] after
    [fetchFoodSpots("TOKYO", ...)] resolves to the cached result, whose
    location name is "TOKYO". *)
Lemma mockSpots_PARIS_and_cached_TOKYO :
  (includes "PARIS" "paris" = false
   /\ includes "PARIS" "new york" = false
   /\ includes "PARIS" "kochi" = false
   /\ exists r s',
        mockSpots "PARIS" (Num 9.9312) (Num 76.2673) offline initial = (Ok r, s')
        /\ locationName r = VStr "Paris, France"
        /\ center r = {| lat := VNum (Num 48.8566); lng := VNum (Num 2.3522) |})
  /\ (no_API_KEY offline = true
      /\ exists r s',
           fetchFoodSpots "Tokyo" (Num 9.9312) (Num 76.2673) offline
             (snd (fetchFoodSpots "TOKYO" (Num 9.9312) (Num 76.2673) offline initial))
           = (Ok (Own r), s')
           /\ locationName r = VStr "TOKYO").
Proof.
  split.
  - repeat split; try reflexivity.
    eexists. eexists. split; [vm_compute; reflexivity |]. split; reflexivity.
  - split; [reflexivity |].
    eexists. eexists. split; [vm_compute; reflexivity |]. reflexivity.
Qed.

(** *** C5 and C10: the upstream path on a tolerable payload *)

Lemma upstream_path query currentLat currentLng w s rawData items :
  upstream_reply w s query rawData ->
  tolerable rawData items ->
  exists r s',
    fetchFoodSpots query currentLat currentLng w s = (Ok (Own r), s')
    /\ locationName r = or_else (field rawData "regionName") (VStr query)
    /\ lat (center r) = or_else (field rawData "regionLat") (VNum currentLat)
    /\ lng (center r) = or_else (field rawData "regionLng") (VNum currentLng)
    /\ processed_from w (lat (center r)) (lng (center r)) 0 items (spots r).
Proof.
  intros Hreply Htol.
  destruct (returns_normalize w query currentLat currentLng rawData items Htol
              (with_requests (S (requests s)) s)) as (r & s2 & Hrun & _).
  exists r. eexists. split; [eapply fetch_upstream; eassumption |].
  apply normalize_Ok in Hrun.
  destruct Hrun as (_ & Hname & Hlat & Hlng & items' & Hitems & Hfrom).
  destruct Htol as (_ & _ & _ & Hitems' & _).
  rewrite Hitems' in Hitems. injection Hitems as <-. auto.
Qed.

Lemma processed_from_Forall2 w regionLat regionLng index items spots_ :
  processed_from w regionLat regionLng index items spots_ ->
  Forall2 (fun item spot => exists i, processed w regionLat regionLng item i spot) items spots_.
Proof. induction 1; constructor; eauto. Qed.

Lemma zero_falsy v : zero v -> truthy v = false.
Proof.
  intros (z & -> & Hz). cbn. apply Qeq_bool_iff in Hz. rewrite Hz. reflexivity.
Qed.

(** C5, the part that holds. In every state that a process can reach, no
    spot of a result to which [fetchFoodSpots] resolves has an undefined (or
    otherwise falsy) [viralPosts]. And on the upstream path, for a payload
    on which no coercion can fail (fields may be absent anywhere), the
    result is not rejected: there is one spot for each record, made by the
    rules of [processed] (coordinates, influencer summary, top influencers
    and viral posts are defaulted, every other field is copied as it is,
    undefined when absent), and a record whose [viralPosts] is missing
    gets the one synthesized post. *)
Theorem viralPosts_defaulted (w : World) (s : State) (query : string)
  (currentLat currentLng : number) :
  reachable w s ->
  (forall r s',
     fetchFoodSpots query currentLat currentLng w s = (Ok (Own r), s') ->
     Forall (fun spot => viralPosts spot <> VUndef /\ truthy (viralPosts spot) = true)
       (spots r))
  /\ (forall rawData items,
        upstream_reply w s query rawData ->
        tolerable rawData items ->
        exists r s',
          fetchFoodSpots query currentLat currentLng w s = (Ok (Own r), s')
          /\ length (spots r) = length items
          /\ processed_from w (lat (center r)) (lng (center r)) 0 items (spots r)
          /\ Forall2 (fun item spot =>
                        truthy (field item "viralPosts") = false ->
                        exists shown_text index,
                          viralPosts spot = synthesized_posts shown_text index)
               items (spots r)).
Proof.
  intros Hreach. split.
  - intros r s' Hrun.
    destruct (fetch_result w s query currentLat currentLng r s' Hreach Hrun) as [_ Hposts].
    eapply Forall_impl; [exact Hposts |]. cbn.
    intros spot Hspot. split; [| exact Hspot].
    intros Hundef. rewrite Hundef in Hspot. discriminate Hspot.
  - intros rawData items Hreply Htol.
    destruct (upstream_path query currentLat currentLng w s rawData items Hreply Htol)
      as (r & s' & Hrun & _ & _ & _ & Hfrom).
    exists r, s'. split; [exact Hrun |].
    pose proof (processed_from_Forall2 _ _ _ _ _ _ Hfrom) as Hall.
    split; [symmetry; eapply Forall2_length; exact Hall |].
    split; [exact Hfrom |].
    eapply Forall2_impl; [exact Hall |]. cbn.
    intros item spot (i & Hp) Hmissing.
    unfold processed in Hp.
    assert (Hposts : defaulted_posts w item i (viralPosts spot)) by tauto.
    unfold defaulted_posts in Hposts. rewrite Hmissing in Hposts.
    destruct Hposts as (text & _ & ->). eauto.
Qed.

Lemma viralPosts_defaulted_witness :
  reachable (online sample_payload) initial
  /\ upstream_reply (online sample_payload) initial "Lisbon" sample_payload
  /\ tolerable sample_payload sample_records
  /\ exists r s',
       fetchFoodSpots "Lisbon" (Num 9.9312) (Num 76.2673) (online sample_payload) initial
       = (Ok (Own r), s')
       /\ length (spots r) = length sample_records
       /\ processed_from (online sample_payload) (lat (center r)) (lng (center r)) 0
            sample_records (spots r)
       /\ Forall2 (fun item spot =>
                     truthy (field item "viralPosts") = false ->
                     exists shown_text index,
                       viralPosts spot = synthesized_posts shown_text index)
            sample_records (spots r).
Proof.
  assert (H0 : reachable (online sample_payload) initial) by (apply reach_start; reflexivity).
  assert (H1 : upstream_reply (online sample_payload) initial "Lisbon" sample_payload).
  { split; [reflexivity |]. split; [reflexivity |].
    exists (Some "payload"). split; reflexivity. }
  assert (H2 : tolerable sample_payload sample_records).
  { repeat split; try reflexivity. repeat constructor. }
  split; [exact H0 |]. split; [exact H1 |]. split; [exact H2 |].
  exact (proj2 (viralPosts_defaulted (online sample_payload) initial "Lisbon"
                  (Num 9.9312) (Num 76.2673) H0)
           sample_payload sample_records H1 H2).
Defined.

(** C5, further inputs. A record with nothing but a name yields a
    spot whose [address], [priceRange], [popularityVelocity] and
    [aiConfidence] are undefined: these missing optional fields are not
    defaulted. And a record whose name is an object with an own property
    [toString] is accepted when it carries [viralPosts], but when they are
    missing the caption of the synthesized post cannot be built, the
    callback throws a TypeError, and the whole result is replaced by the
    four mock spots. *)
Lemma missing_fields_undefined_or_rejected :
  (exists r s' spot,
     fetchFoodSpots "Lisbon" (Num 9.9312) (Num 76.2673) (online bare_payload) initial
     = (Ok (Own r), s')
     /\ spots r = [spot]
     /\ id spot = "gemini-1700000000000-0"
     /\ address spot = VUndef /\ priceRange spot = VUndef
     /\ popularityVelocity spot = VUndef /\ aiConfidence spot = VUndef)
  /\ (exists r s',
        fetchFoodSpots "Lisbon" (Num 9.9312) (Num 76.2673)
          (online odd_name_payload_with_posts) initial
        = (Ok (Own r), s')
        /\ map id (spots r) = ["gemini-1700000000000-0"]
        /\ console s' = [])
  /\ (exists r s',
        fetchFoodSpots "Lisbon" (Num 9.9312) (Num 76.2673)
          (online odd_name_payload) initial
        = (Ok (Own r), s')
        /\ map id (spots r) = ["mock-1-6"; "mock-2-6"; "mock-3-6"; "mock-4-6"]
        /\ console s' = [console_error "Gemini API Error:" TypeError]).
Proof.
  split; [| split].
  - do 3 eexists. split; [vm_compute; reflexivity |]. repeat split.
  - do 2 eexists. split; [vm_compute; reflexivity |]. split; reflexivity.
  - do 2 eexists. split; [vm_compute; reflexivity |]. split; reflexivity.
Qed.

Lemma jitter_range r : (0 <= r /\ r < 1)%Q -> (-0.01 <= jitter r /\ jitter r < 0.01)%Q.
Proof. unfold jitter. intros [H0 H1]. split; lra. Qed.

Lemma add_numbers c a b : add c (VNum (Num a)) (VNum (Num b)) = Some (VNum (Num (a + b))).
Proof. reflexivity. Qed.

(** C10, as amended. On the upstream path, for a payload on which no
    coercion can fail: the region name, latitude and longitude are tested
    for truthiness, so a region latitude or longitude of zero is replaced by
    the caller's fallback coordinate (and a falsy region name by the
    query); each spot's latitude and longitude follow the defaulting rule,
    so a record's latitude or longitude of zero is replaced by the region's
    coordinate plus the jitter of some draw; that jitter lies in
    [-0.01, 0.01) when the draws lie in [0, 1), and for a numeric region
    coordinate [c] the sum is the number [c + jitter]. Nothing says that
    the value put in the place of a zero differs from zero. *)
Theorem zero_coordinates_defaulted (w : World) (s : State) (query : string)
  (currentLat currentLng : number) (rawData : jsval) (items : list jsval) :
  upstream_reply w s query rawData ->
  tolerable rawData items ->
  unit_draws w ->
  exists r s',
    fetchFoodSpots query currentLat currentLng w s = (Ok (Own r), s')
    /\ locationName r = or_else (field rawData "regionName") (VStr query)
    /\ lat (center r) = or_else (field rawData "regionLat") (VNum currentLat)
    /\ lng (center r) = or_else (field rawData "regionLng") (VNum currentLng)
    /\ (zero (field rawData "regionLat") -> lat (center r) = VNum currentLat)
    /\ (zero (field rawData "regionLng") -> lng (center r) = VNum currentLng)
    /\ Forall2 (fun item spot =>
                  defaulted_coordinate w (field item "latitude") (lat (center r))
                    (lat (coordinates spot))
                  /\ defaulted_coordinate w (field item "longitude") (lng (center r))
                       (lng (coordinates spot))
                  /\ (zero (field item "latitude") ->
                      jittered w (lat (center r)) (lat (coordinates spot)))
                  /\ (zero (field item "longitude") ->
                      jittered w (lng (center r)) (lng (coordinates spot))))
         items (spots r)
    /\ (forall k, (-0.01 <= jitter (Math_random w k) /\ jitter (Math_random w k) < 0.01)%Q)
    /\ (forall c j, add (conv w) (VNum (Num c)) (VNum (Num j)) = Some (VNum (Num (c + j)))).
Proof.
  intros Hreply Htol Hdraws.
  destruct (upstream_path query currentLat currentLng w s rawData items Hreply Htol)
    as (r & s' & Hrun & Hname & Hlat & Hlng & Hfrom).
  exists r, s'. split; [exact Hrun |].
  split; [exact Hname |]. split; [exact Hlat |]. split; [exact Hlng |].
  split; [| split; [| split; [| split]]].
  - intros Hz. rewrite Hlat. unfold or_else. rewrite (zero_falsy _ Hz). reflexivity.
  - intros Hz. rewrite Hlng. unfold or_else. rewrite (zero_falsy _ Hz). reflexivity.
  - eapply Forall2_impl; [exact (processed_from_Forall2 _ _ _ _ _ _ Hfrom) |]. cbn.
    intros item spot (i & Hp). unfold processed in Hp.
    assert (HA : defaulted_coordinate w (field item "latitude") (lat (center r))
                   (lat (coordinates spot))) by tauto.
    assert (HB : defaulted_coordinate w (field item "longitude") (lng (center r))
                   (lng (coordinates spot))) by tauto.
    split; [exact HA |]. split; [exact HB |]. split.
    + intros Hz. unfold defaulted_coordinate in HA. rewrite (zero_falsy _ Hz) in HA. exact HA.
    + intros Hz. unfold defaulted_coordinate in HB. rewrite (zero_falsy _ Hz) in HB. exact HB.
  - intros k. apply jitter_range, Hdraws.
  - intros c j. apply add_numbers.
Qed.

Lemma zero_coordinates_defaulted_witness :
  upstream_reply (online sample_payload) initial "Lisbon" sample_payload
  /\ tolerable sample_payload sample_records
  /\ unit_draws (online sample_payload)
  /\ zero (field sample_payload "regionLat")
  /\ Forall2 (fun item index => zero (field item "latitude") <-> index = 0)
       sample_records [0; 1]
  /\ exists r s',
       fetchFoodSpots "Lisbon" (Num 9.9312) (Num 76.2673) (online sample_payload) initial
       = (Ok (Own r), s')
       /\ center r = {| lat := VNum (Num 9.9312); lng := VNum (Num (-9.14)) |}
       /\ Forall2 (fun item spot =>
                     zero (field item "latitude") ->
                     jittered (online sample_payload) (VNum (Num 9.9312))
                       (lat (coordinates spot)))
            sample_records (spots r).
Proof.
  assert (H1 : upstream_reply (online sample_payload) initial "Lisbon" sample_payload).
  { split; [reflexivity |]. split; [reflexivity |].
    exists (Some "payload"). split; reflexivity. }
  assert (H2 : tolerable sample_payload sample_records).
  { repeat split; try reflexivity. repeat constructor. }
  assert (H3 : unit_draws (online sample_payload)).
  { intros k. split; vm_compute; [intros H; discriminate H | reflexivity]. }
  assert (H4 : zero (field sample_payload "regionLat")).
  { exists 0%Q. split; reflexivity. }
  assert (H5 : Forall2 (fun item index => zero (field item "latitude") <-> index = 0)
                 sample_records [0; 1]).
  { repeat constructor; try (intros _; exists 0%Q; split; reflexivity); try reflexivity.
    - intros (z & Hz & Hz0). injection Hz as <-. discriminate Hz0.
    - intros H. discriminate H. }
  split; [exact H1 |]. split; [exact H2 |]. split; [exact H3 |]. split; [exact H4 |].
  split; [exact H5 |].
  destruct (zero_coordinates_defaulted (online sample_payload) initial "Lisbon"
              (Num 9.9312) (Num 76.2673) sample_payload sample_records H1 H2 H3)
    as (r & s' & Hrun & _ & Hlat & Hlng & Hzero & _ & Hall & _).
  exists r, s'. split; [exact Hrun |].
  assert (Hc : lat (center r) = VNum (Num 9.9312)) by exact (Hzero H4).
  split.
  - destruct r as [sp [la lo] nm]. cbn in *. rewrite Hc, Hlng. reflexivity.
  - eapply Forall2_impl; [exact Hall |]. cbn.
    intros item spot (_ & _ & Hz & _) Hitem. rewrite <- Hc. exact (Hz Hitem).
Defined.

(** C5, the failing input. Missing optional fields are not all defaulted.
    For a record that has exactly the fields the response schema requires
    ([address], [priceRange], [popularityVelocity] and [aiConfidence] are
    not among them), the call resolves to a result with one spot and logs
    nothing; the spot's viral posts, influencer summary and list of
    influencers are the defaults, but its [address], [priceRange],
    [popularityVelocity] and [aiConfidence], which [types.ts] declares as a
    string, an enumeration and two numbers, are undefined. With this spot
    held, mapping [SpotCard] over the held spots throws a TypeError at
    [spot.address.split]. *)
Theorem missing_optional_fields_left_undefined :
  exists r s' spot,
    fetchFoodSpots "Lisbon" (Num 9.9312) (Num 76.2673) (online required_only_payload) initial
    = (Ok (Own r), s')
    /\ console s' = []
    /\ spots r = [spot]
    /\ viralPosts spot = synthesized_posts "Cafe A" 0
    /\ summary (influencerData spot) = VStr "Trending on social feeds"
    /\ topMentionedBy (influencerData spot) = VArr []
    /\ address spot = VUndef
    /\ priceRange spot = VUndef
    /\ popularityVelocity spot = VUndef
    /\ aiConfidence spot = VUndef
    /\ spotCards (online required_only_payload)
         (with_ui (with_heldSpots (spots r) (ui s')) s')
       = (Throw TypeError, with_ui (with_heldSpots (spots r) (ui s')) s').
Proof.
  do 3 eexists. split; [vm_compute; reflexivity |].
  repeat split.
Qed.

(** C10, the counterexample. A zero can still be in the result: the region
    longitude 0 is replaced by the caller's fallback longitude, which is 0
    here, so the centre's longitude is 0; and the record's latitude 0 is
    replaced by the region latitude 0.005 plus the jitter of the draw 0.25,
    which is -0.005, so the spot's latitude is 0. *)
Lemma zero_coordinates_remain :
  exists r s' spot,
    fetchFoodSpots "Null Island" (Num 0) (Num 0) (online zero_payload) initial
    = (Ok (Own r), s')
    /\ zero (field zero_payload "regionLng")
    /\ zero (lng (center r))
    /\ spots r = [spot]
    /\ Forall (fun item => zero (field item "latitude")) zero_records
    /\ lat (center r) = VNum (Num 0.005)
    /\ (jitter (Math_random (online zero_payload) 0) == -0.005)%Q
    /\ zero (lat (coordinates spot)).
Proof.
  do 3 eexists. split; [vm_compute; reflexivity |].
  split; [exists 0%Q; split; reflexivity |].
  split; [eexists; split; reflexivity |].
  split; [reflexivity |].
  split; [repeat constructor; exists 0%Q; split; reflexivity |].
  split; [reflexivity |].
  split; [reflexivity |].
  eexists. split; reflexivity.
Qed.
(* ================================================================== *)
(** ** The service: what a call does to the process *)
(* ================================================================== *)

Lemma upstream_frame query currentLat currentLng w s :
  only_counters (with_requests (S (requests s)) s)
    (snd (upstream query currentLat currentLng w s)).
Proof.
  unfold upstream. rewrite bind_run.
  assert (Hreq : snd (request (prompt query) w s) = with_requests (S (requests s)) s).
  { unfold request. destruct (generateContent w (requests s) (prompt query)); reflexivity. }
  destruct (request (prompt query) w s) as [[text | e] s1]; cbn [snd] in Hreq; subst s1.
  2: { apply only_counters_refl. }
  rewrite bind_run.
  pose proof (JSON_parse_frame (text_or_empty_object text) w
                (with_requests (S (requests s)) s)) as Hparse.
  destruct (JSON_parse (text_or_empty_object text) w (with_requests (S (requests s)) s))
    as [[rawData | e] s2]; cbn [snd] in Hparse; subst s2.
  2: { apply only_counters_refl. }
  apply normalize_counters.
Qed.

Lemma fetch_with_key query currentLat currentLng w s :
  cache_get (requestCache s) (cacheKey query) = None ->
  no_API_KEY w = false ->
  fetchFoodSpots query currentLat currentLng w s =
  match upstream query currentLat currentLng w s with
  | (Ok r, s1) => (Ok (Own r), with_cache (<[cacheKey query := r]> (requestCache s1)) s1)
  | (Throw e, s1) =>
      match mockSpots query currentLat currentLng w
              (with_console (console s1 ++ [console_error "Gemini API Error:" e]) s1) with
      | (Ok r, s2) => (Ok (Own r), with_cache (<[cacheKey query := r]> (requestCache s2)) s2)
      | (Throw e', s2) => (Throw e', s2)
      end
  end.
Proof.
  intros Hmiss Hkey.
  unfold fetchFoodSpots. rewrite bind_run. cbn [get_state]. rewrite Hmiss.
  unfold try_catch. rewrite bind_run. cbn [world]. rewrite Hkey.
  unfold upstream. rewrite !bind_run.
  destruct (request (prompt query) w s) as [[text | e] s1].
  2: { rewrite bind_run, log_runs, bind_run.
       destruct (mockSpots _ _ _ w _) as [[r | e'] s2]; reflexivity. }
  rewrite !bind_run.
  destruct (JSON_parse (text_or_empty_object text) w s1) as [[rawData | e] s2].
  2: { rewrite bind_run, log_runs, bind_run.
       destruct (mockSpots _ _ _ w _) as [[r | e'] s3]; reflexivity. }
  rewrite bind_run.
  destruct (normalize query currentLat currentLng rawData w s2) as [[r | e] s3].
  - reflexivity.
  - rewrite bind_run, log_runs, bind_run.
    destruct (mockSpots _ _ _ w _) as [[r | e'] s4]; reflexivity.
Qed.

(** The effects of a call that misses the cache. *)
Lemma fetch_miss_effects query currentLat currentLng w s :
  cache_get (requestCache s) (cacheKey query) = None ->
  exists r s',
    fetchFoodSpots query currentLat currentLng w s = (Ok (Own r), s')
    /\ requestCache s' = <[cacheKey query := r]> (requestCache s)
    /\ ui s' = ui s
    /\ draws s <= draws s'
    /\ ticks s <= ticks s'
    /\ ((no_API_KEY w = true
         /\ requests s' = requests s
         /\ console s' =
              (console s ++ [console_warn "No API Key provided. Returning mock data."])%list)
        \/ (no_API_KEY w = false
            /\ requests s' = S (requests s)
            /\ (console s' = console s
                \/ exists e,
                     console s' = (console s ++ [console_error "Gemini API Error:" e])%list))).
Proof.
  intros Hmiss.
  destruct (no_API_KEY w) eqn:Hkey.
  - destruct (mockSpots_runs query currentLat currentLng w
                (with_console
                   (console s ++ [console_warn "No API Key provided. Returning mock data."]) s))
      as (r & s1 & Hmock & (Hc & Hr & Hl & Hu & Hd & Ht) & _).
    exists r. eexists. split; [apply fetch_without_key; eassumption |].
    cbn in *. rewrite Hc. repeat split; auto; left; auto.
  - rewrite fetch_with_key by assumption.
    pose proof (upstream_frame query currentLat currentLng w s) as Hup.
    destruct (upstream query currentLat currentLng w s) as [[r | e] s1]; cbn [snd] in Hup;
      destruct Hup as (Hc & Hr & Hl & Hu & Hd & Ht); cbn in Hc, Hr, Hl, Hu, Hd, Ht.
    + exists r. eexists. split; [reflexivity |]. cbn. rewrite Hc.
      repeat split; auto; right; auto.
    + destruct (mockSpots_runs query currentLat currentLng w
                  (with_console (console s1 ++ [console_error "Gemini API Error:" e]) s1))
        as (r & s2 & Hmock & (Hc2 & Hr2 & Hl2 & Hu2 & Hd2 & Ht2) & _).
      rewrite Hmock. exists r. eexists. split; [reflexivity |].
      cbn in *. rewrite Hc2, Hc.
      split; [reflexivity |]. split; [congruence |]. split; [lia |]. split; [lia |].
      right. split; [reflexivity |]. split; [congruence |].
      right. exists e. congruence.
Qed.

Lemma cache_get_own (c : gmap string DiscoveryResult) k r :
  cache_get c k = Some (Own r) <-> c !! k = Some r.
Proof.
  unfold cache_get. destruct (c !! k) as [r' |].
  - split; intros H; congruence.
  - destruct (existsb _ _); split; intros H; congruence.
Qed.

Lemma cache_get_miss (c : gmap string DiscoveryResult) k :
  cache_get c k = None -> c !! k = None.
Proof. unfold cache_get. destruct (c !! k); [discriminate | reflexivity]. Qed.


Lemma fetch_keeps_entry query currentLat currentLng w s k r :
  requestCache s !! k = Some r ->
  requestCache (snd (fetchFoodSpots query currentLat currentLng w s)) !! k = Some r.
Proof.
  intros Hk.
  destruct (cache_get (requestCache s) (cacheKey query)) as [hit |] eqn:Hget.
  - rewrite (fetch_hit _ _ _ _ _ _ Hget). exact Hk.
  - destruct (fetch_miss_effects query currentLat currentLng w s Hget)
      as (r' & s' & -> & Hc & _).
    cbn [snd]. rewrite Hc. apply cache_get_miss in Hget.
    rewrite lookup_insert_ne; [exact Hk | congruence].
Qed.

Lemma fetch_all_keeps_entry w calls : forall s k r,
  requestCache s !! k = Some r -> requestCache (fetch_all w calls s) !! k = Some r.
Proof.
  induction calls as [| c calls IH]; intros s k r Hk; [exact Hk |].
  cbn. apply IH. apply fetch_keeps_entry. exact Hk.
Qed.

Lemma fetch_start_keeps_entry query currentLat currentLng w s k r :
  requestCache s !! k = Some r ->
  requestCache (snd (fetch_start query currentLat currentLng w s)) !! k = Some r.
Proof.
  intros Hk. unfold fetch_start. rewrite bind_run. cbn [get_state].
  destruct (cache_get (requestCache s) (cacheKey query)) as [hit |] eqn:Hget; [exact Hk |].
  apply cache_get_miss in Hget.
  assert (Hne : cacheKey query <> k) by congruence.
  unfold try_catch. rewrite bind_run. cbn [world].
  destruct (no_API_KEY w).
  - rewrite bind_run, log_runs, bind_run.
    destruct (mockSpots_runs query currentLat currentLng w
                (with_console
                   (console s ++ [console_warn "No API Key provided. Returning mock data."]) s))
      as (r' & s1 & -> & (Hc & _) & _).
    change (<[cacheKey query := r']> (requestCache s1) !! k = Some r).
    rewrite lookup_insert_ne by exact Hne. rewrite Hc. exact Hk.
  - exact Hk.
Qed.

Lemma fetch_finish_stored query currentLat currentLng answer w s :
  stored query s (fetch_finish query currentLat currentLng answer w s).
Proof.
  unfold fetch_finish.
  apply try_catch_stored; [| intros e s1; apply fallback_stored].
  rewrite bind_run.
  destruct answer as [| text]; [right; exists RequestFailed, s; split; reflexivity |].
  cbn [await mret M_ret]. rewrite bind_run.
  pose proof (JSON_parse_frame (text_or_empty_object text) w s) as Hparse.
  destruct (JSON_parse (text_or_empty_object text) w s) as [[rawData | e] s1];
    cbn [snd] in Hparse; subst s1.
  2: { right. eauto. }
  rewrite bind_run.
  pose proof (normalize_counters query currentLat currentLng rawData w s) as Hc.
  destruct (normalize query currentLat currentLng rawData w s) as [[r | e] s2] eqn:En;
    cbn [snd] in Hc; destruct Hc as (Hc & _).
  2: { right. exists e, s2. split; [reflexivity | exact Hc]. }
  left. apply normalize_Ok in En. destruct En as (_ & _ & _ & _ & items & _ & Hfrom).
  exists r. eexists. split; [reflexivity |]. cbn.
  split; [congruence |]. split.
  - eapply processed_from_NoDup. exact Hfrom.
  - eapply processed_from_posts. exact Hfrom.
Qed.

Lemma fetch_whole_run query currentLat currentLng w s :
  fetch_whole query currentLat currentLng w s = fetchFoodSpots query currentLat currentLng w s.
Proof.
  unfold fetch_whole, fetch_start, fetchFoodSpots. rewrite !bind_run. cbn [get_state].
  destruct (cache_get (requestCache s) (cacheKey query)) as [hit |]; [reflexivity |].
  unfold try_catch. rewrite !bind_run. cbn [world].
  destruct (no_API_KEY w).
  - rewrite !bind_run, !log_runs, !bind_run.
    destruct (mockSpots_runs query currentLat currentLng w
                (with_console
                   (console s ++ [console_warn "No API Key provided. Returning mock data."]) s))
      as (r & s1 & -> & _).
    reflexivity.
  - rewrite !bind_run. unfold fetch_finish, try_catch, request, send.
    destruct (generateContent w (requests s) (prompt query)) as [| text].
    + reflexivity.
    + reflexivity.
Qed.

(** X1. A cached result is replaced only by the continuation of a call
    that was waiting for its upstream answer. The stretch of a call up to
    its [await] never changes an existing entry, and neither do calls that
    run one after the other, each to its end. But the continuation of a call
    does not read the cache again: it stores its result under its key
    whatever the cache holds by then, so of two overlapping calls for one
    key the later continuation replaces what the earlier one stored. The two
    stretches run together are the whole call. *)
Theorem cache_entry_replaced_only_by_continuation (w : World) (s : State)
  (k : string) (r : DiscoveryResult) (query : string) (currentLat currentLng : number) :
  requestCache s !! k = Some r ->
  requestCache (snd (fetch_start query currentLat currentLng w s)) !! k = Some r
  /\ (forall calls, requestCache (fetch_all w calls s) !! k = Some r)
  /\ (forall answer,
        exists r' s',
          fetch_finish query currentLat currentLng answer w s = (Ok (Own r'), s')
          /\ requestCache s' = <[cacheKey query := r']> (requestCache s))
  /\ (forall s0,
        fetch_whole query currentLat currentLng w s0
        = fetchFoodSpots query currentLat currentLng w s0).
Proof.
  intros Hk. split; [apply fetch_start_keeps_entry; exact Hk |].
  split; [intros calls; apply fetch_all_keeps_entry; exact Hk |].
  split; [| intros s0; apply fetch_whole_run].
  intros answer.
  destruct (fetch_finish_stored query currentLat currentLng answer w s)
    as (r' & s' & Hrun & Hc & _).
  exists r', s'. split; [exact Hrun | exact Hc].
Qed.

Lemma cache_entry_replaced_only_by_continuation_witness :
  exists r1 r2,
    fst lisbon_started = Ok (Awaiting (answer_of lisbon_started))
    /\ fst lisbon_started_again = Ok (Awaiting (answer_of lisbon_started_again))
    /\ fst lisbon_finished = Ok (Own r1)
    /\ requestCache (snd lisbon_finished) !! "lisbon" = Some r1
    /\ fst lisbon_finished_again = Ok (Own r2)
    /\ requestCache (snd lisbon_finished_again) !! "lisbon" = Some r2
    /\ map id (spots r1) = ["gemini-1700000000000-0"; "gemini-1700000000002-1"]
    /\ map id (spots r2) = ["gemini-1700000000004-0"; "gemini-1700000000006-1"].
Proof.
  eexists. eexists.
  split; [vm_compute; reflexivity |]. split; [vm_compute; reflexivity |].
  split; [vm_compute; reflexivity |].
  assert (Hfirst : forall r1,
            fst lisbon_finished = Ok (Own r1) ->
            requestCache (snd lisbon_finished) !! "lisbon" = Some r1).
  { intros r1 H1. vm_compute in H1. injection H1 as <-. vm_compute. reflexivity. }
  split; [apply Hfirst; vm_compute; reflexivity |].
  match goal with
  | |- fst lisbon_finished_again = Ok (Own ?r2) /\ _ =>
      destruct (cache_entry_replaced_only_by_continuation (online sample_payload)
                  (snd lisbon_finished) "lisbon" _ " lisbon" (Num 9.9312) (Num 76.2673)
                  (Hfirst _ eq_refl))
        as (_ & _ & Hfinish & _)
  end.
  destruct (Hfinish (answer_of lisbon_started_again)) as (r' & s' & Hrun & Hcache).
  change (fetch_finish " lisbon" (Num 9.9312) (Num 76.2673)
            (answer_of lisbon_started_again) (online sample_payload) (snd lisbon_finished))
    with lisbon_finished_again in Hrun.
  assert (Hr' : fst lisbon_finished_again = Ok (Own r')) by (rewrite Hrun; reflexivity).
  vm_compute in Hr'. injection Hr' as <-.
  split; [vm_compute; reflexivity |].
  split; [rewrite Hrun; cbn [snd]; rewrite Hcache; apply lookup_insert_eq |].
  split; reflexivity.
Defined.

(** X2. Every call resolves; it leaves every other entry of the cache as it
    was; a result it resolves to is the entry of the query's key afterwards,
    and an inherited member leaves the cache untouched. *)
Theorem fetchFoodSpots_stores_result (w : World) (s : State) (query : string)
  (currentLat currentLng : number) :
  exists v s',
    fetchFoodSpots query currentLat currentLng w s = (Ok v, s')
    /\ (forall k, k <> cacheKey query -> requestCache s' !! k = requestCache s !! k)
    /\ match v with
       | Own r => requestCache s' !! cacheKey query = Some r
       | Inherited member =>
           member = cacheKey query /\ s' = s /\ requestCache s !! cacheKey query = None
       end.
Proof.
  destruct (cache_get (requestCache s) (cacheKey query)) as [hit |] eqn:Hget.
  - exists hit, s. split; [apply fetch_hit; exact Hget |]. split; [reflexivity |].
    destruct hit as [r | member].
    + apply cache_get_own. exact Hget.
    + unfold cache_get in Hget. destruct (requestCache s !! cacheKey query); [discriminate |].
      destruct (existsb _ _); [| discriminate]. injection Hget as <-. auto.
  - destruct (fetch_miss_effects query currentLat currentLng w s Hget)
      as (r & s' & Hrun & Hc & _).
    exists (Own r), s'. split; [exact Hrun |]. rewrite Hc. split.
    + intros k Hne. apply lookup_insert_ne. congruence.
    + apply lookup_insert_eq.
Qed.

(** X3. What a call costs: nothing at all on a hit; without a credential no
    upstream call and one warning; otherwise exactly one upstream call and at
    most one error line. The state of the page is never touched. *)
Theorem fetchFoodSpots_accounting (w : World) (s : State) (query : string)
  (currentLat currentLng : number) :
  let s' := snd (fetchFoodSpots query currentLat currentLng w s) in
  ui s' = ui s
  /\ match cache_get (requestCache s) (cacheKey query) with
     | Some _ => s' = s
     | None =>
         if no_API_KEY w then
           requests s' = requests s
           /\ console s' =
                (console s ++ [console_warn "No API Key provided. Returning mock data."])%list
         else
           requests s' = S (requests s)
           /\ (console s' = console s
               \/ exists e,
                    console s' = (console s ++ [console_error "Gemini API Error:" e])%list)
     end.
Proof.
  cbv zeta.
  destruct (cache_get (requestCache s) (cacheKey query)) as [hit |] eqn:Hget.
  - rewrite (fetch_hit _ _ _ _ _ _ Hget). auto.
  - destruct (fetch_miss_effects query currentLat currentLng w s Hget)
      as (r & s' & -> & _ & Hu & _ & _ & Hcases).
    cbn [snd]. split; [exact Hu |].
    destruct Hcases as [(-> & H) | (-> & H)]; exact H.
Qed.

(* ================================================================== *)
(** ** The service: the paths around the upstream call *)
(* ================================================================== *)

Lemma mockSpots_same_clock query lat_ lng_ w w0 s s0 :
  (forall k, Date_now w0 k = Date_now w k) ->
  ticks s0 = ticks s ->
  fst (mockSpots query lat_ lng_ w0 s0) = fst (mockSpots query lat_ lng_ w s).
Proof.
  intros Hclock Hticks. unfold mockSpots.
  destruct (if includes (toLowerCase query) "paris" then _ else _)
    as [[centerLat centerLng] locName].
  rewrite !bind_run. cbn [now ticks with_ticks]. rewrite !bind_run.
  cbn [now ticks with_ticks]. rewrite !bind_run. cbn [now ticks with_ticks].
  rewrite !bind_run. cbn [now ticks with_ticks].
  rewrite !Hclock, Hticks. reflexivity.
Qed.

Lemma upstream_unanswered query currentLat currentLng w s e :
  unanswered w s query = Some e ->
  upstream query currentLat currentLng w s = (Throw e, with_requests (S (requests s)) s).
Proof.
  unfold unanswered, upstream, request. rewrite bind_run.
  destruct (generateContent w (requests s) (prompt query)) as [| text].
  - intros [= <-]. reflexivity.
  - rewrite bind_run. unfold JSON_parse.
    destruct (String.eqb (text_or_empty_object text) "{}"); [discriminate |].
    rewrite bind_run. cbn [world].
    destruct (parse w (text_or_empty_object text)); [discriminate |].
    intros [= <-]. reflexivity.
Qed.

(** X4. An upstream call that is rejected, or answered with a text that does
    not parse, is invisible in the result: the call resolves to what it would
    have resolved to without a credential (the clock reading the same), and
    caches it under the same key; only the console tells, by one error line. *)
Theorem fetchFoodSpots_failure_is_masked (w w0 : World) (s : State) (query : string)
  (currentLat currentLng : number) (e : error) :
  cache_get (requestCache s) (cacheKey query) = None ->
  no_API_KEY w = false ->
  unanswered w s query = Some e ->
  no_API_KEY w0 = true ->
  (forall k, Date_now w0 k = Date_now w k) ->
  fst (fetchFoodSpots query currentLat currentLng w s)
  = fst (fetchFoodSpots query currentLat currentLng w0 s)
  /\ requestCache (snd (fetchFoodSpots query currentLat currentLng w s))
     = requestCache (snd (fetchFoodSpots query currentLat currentLng w0 s))
  /\ console (snd (fetchFoodSpots query currentLat currentLng w s))
     = (console s ++ [console_error "Gemini API Error:" e])%list
  /\ requests (snd (fetchFoodSpots query currentLat currentLng w s)) = S (requests s).
Proof.
  intros Hmiss Hkey Hfail Hkey0 Hclock.
  rewrite (fetch_with_key _ _ _ _ _ Hmiss Hkey).
  rewrite (upstream_unanswered _ currentLat currentLng _ _ _ Hfail).
  set (s1 := with_console _ (with_requests _ s)).
  set (s2 := with_console
               (console s ++ [console_warn "No API Key provided. Returning mock data."]) s).
  pose proof (mockSpots_same_clock query currentLat currentLng w w0 s1 s2 Hclock eq_refl) as Hsame.
  destruct (mockSpots_runs query currentLat currentLng w s1)
    as (r & s1' & Hmock & (Hc & Hr & Hl & _) & _).
  destruct (mockSpots_runs query currentLat currentLng w0 s2)
    as (r0 & s2' & Hmock0 & (Hc0 & _) & _).
  rewrite (fetch_without_key _ _ _ _ _ _ _ Hmiss Hkey0 Hmock0).
  rewrite Hmock. rewrite Hmock, Hmock0 in Hsame. cbn [fst] in Hsame.
  injection Hsame as ->.
  cbn. rewrite Hc, Hc0, Hl, Hr. auto.
Qed.

Lemma fetchFoodSpots_failure_is_masked_witness :
  fst (fetchFoodSpots "Tokyo" (Num 9.9312) (Num 76.2673) (answering Rejected None) initial)
  = fst (fetchFoodSpots "Tokyo" (Num 9.9312) (Num 76.2673) offline initial)
  /\ console (snd (fetchFoodSpots "Tokyo" (Num 9.9312) (Num 76.2673)
                     (answering (Resolved (Some "not json")) None) initial))
     = [console_error "Gemini API Error:" SyntaxError].
Proof.
  split.
  - apply (fetchFoodSpots_failure_is_masked (answering Rejected None) offline initial
             "Tokyo" (Num 9.9312) (Num 76.2673) RequestFailed); reflexivity.
  - apply (fetchFoodSpots_failure_is_masked (answering (Resolved (Some "not json")) None)
             offline initial "Tokyo" (Num 9.9312) (Num 76.2673) SyntaxError); reflexivity.
Defined.

(** X5. An answer without text (no text, or the empty text, or the text of
    the empty object) is not a failure: the call resolves to a result with
    no spots at all, named after the query and centred on the coordinates it
    was given, caches it, and logs nothing. *)
Theorem fetchFoodSpots_empty_answer (w : World) (s : State) (query : string)
  (currentLat currentLng : number) (text : option string) :
  cache_get (requestCache s) (cacheKey query) = None ->
  no_API_KEY w = false ->
  generateContent w (requests s) (prompt query) = Resolved text ->
  text_or_empty_object text = "{}" ->
  let nothing := {| spots := [];
                    center := {| lat := VNum currentLat; lng := VNum currentLng |};
                    locationName := VStr query |} in
  fetchFoodSpots query currentLat currentLng w s
  = (Ok (Own nothing),
     with_cache (<[cacheKey query := nothing]> (requestCache s))
       (with_requests (S (requests s)) s)).
Proof.
  intros Hmiss Hkey Hreply Htext nothing.
  rewrite (fetch_with_key _ _ _ _ _ Hmiss Hkey).
  unfold upstream, request. rewrite bind_run, Hreply, bind_run.
  unfold JSON_parse. rewrite Htext. reflexivity.
Qed.

Lemma fetchFoodSpots_empty_answer_witness :
  text_or_empty_object None = "{}"
  /\ text_or_empty_object (Some "") = "{}"
  /\ exists r s',
       fetchFoodSpots "Sushi" (Num 9.9312) (Num 76.2673) (answering (Resolved None) None) initial
       = (Ok (Own r), s')
       /\ spots r = []
       /\ requestCache s' !! "sushi" = Some r
       /\ console s' = [].
Proof.
  split; [reflexivity |]. split; [reflexivity |].
  eexists. eexists. split.
  - apply (fetchFoodSpots_empty_answer (answering (Resolved None) None) initial "Sushi"
             (Num 9.9312) (Num 76.2673) None); reflexivity.
  - vm_compute. auto.
Defined.

(** *** What the normalisation throws *)

Lemma bind_Throw {A B} (m : M A) (f : A -> M B) w s e s' :
  (m ≫= f) w s = (Throw e, s') ->
  m w s = (Throw e, s') \/ exists a s1, m w s = (Ok a, s1) /\ f a w s1 = (Throw e, s').
Proof.
  rewrite bind_run. destruct (m w s) as [[a | e1] s1]; intros H.
  - right. eauto.
  - left. injection H as -> ->. reflexivity.
Qed.

Lemma raises_bind allowed {A B} (m : M A) (f : A -> M B) :
  raises allowed m -> (forall a, raises allowed (f a)) -> raises allowed (m ≫= f).
Proof.
  intros Hm Hf w s e s' H. apply bind_Throw in H.
  destruct H as [H | (a & s1 & _ & H)]; [eapply Hm | eapply Hf]; eassumption.
Qed.

Lemma raises_ret allowed {A} (a : A) : raises allowed (mret a).
Proof. intros w s e s' H. discriminate H. Qed.

Lemma raises_or_throw allowed {A} (o : option A) : raises allowed (or_throw allowed o).
Proof. intros w s e s' H. destruct o; [discriminate H | injection H as <- _; reflexivity]. Qed.

Lemma raises_throw allowed {A} : raises allowed (@throw A allowed).
Proof. intros w s e s' H. injection H as <- _. reflexivity. Qed.

Lemma raises_now allowed : raises allowed now.
Proof. intros w s e s' H. discriminate H. Qed.

Lemma raises_random allowed : raises allowed random.
Proof. intros w s e s' H. discriminate H. Qed.

Lemma raises_world allowed : raises allowed world.
Proof. intros w s e s' H. discriminate H. Qed.

Lemma raises_modify allowed f : raises allowed (modify f).
Proof. intros w s e s' H. discriminate H. Qed.

Lemma raises_map_indexed allowed {A B} (f : A -> nat -> M B) xs :
  (forall a i, raises allowed (f a i)) -> forall i, raises allowed (map_indexed f i xs).
Proof.
  intros Hf. induction xs as [| x xs IH]; intros i; cbn [map_indexed].
  - apply raises_ret.
  - apply raises_bind; [apply Hf |]. intros y.
    apply raises_bind; [apply IH |]. intros ys. apply raises_ret.
Qed.

Ltac raises_step :=
  first
    [ apply raises_ret
    | apply raises_or_throw
    | apply raises_now
    | apply raises_random
    | apply raises_world
    | apply raises_modify
    | apply raises_bind; [| intros ? ] ].

Lemma raises_coordinate_or_jitter given region :
  raises TypeError (coordinate_or_jitter given region).
Proof. unfold coordinate_or_jitter. destruct (truthy given); repeat raises_step. Qed.

Lemma raises_processSpot regionLat regionLng item index :
  raises TypeError (processSpot regionLat regionLng item index).
Proof.
  unfold processSpot, prop.
  repeat first [ apply raises_coordinate_or_jitter | raises_step ].
  destruct (truthy _); repeat raises_step.
Qed.

Lemma raises_normalize query currentLat currentLng rawData :
  raises TypeError (normalize query currentLat currentLng rawData).
Proof.
  unfold normalize, prop. repeat raises_step.
  unfold map_spots. destruct (or_else _ _); try apply raises_throw.
  apply raises_map_indexed. intros. apply raises_processSpot.
Qed.

Lemma map_indexed_unreadable regionLat regionLng items w :
  Exists (fun item => readable item = false) items ->
  forall index s,
    exists e s', map_indexed (processSpot regionLat regionLng) index items w s = (Throw e, s').
Proof.
  induction 1 as [item items Hbad | item items _ IH]; intros index s; cbn [map_indexed];
    rewrite bind_run.
  - unfold processSpot. rewrite bind_run. cbn [now]. rewrite bind_run.
    destruct item; try discriminate Hbad; cbn; eauto.
  - destruct (processSpot regionLat regionLng item index w s) as [[spot | e] s1]; [| eauto].
    rewrite bind_run. destruct (IH (S index) s1) as (e & s' & ->). eauto.
Qed.

Lemma normalize_malformed query currentLat currentLng rawData w s :
  malformed rawData ->
  exists s', normalize query currentLat currentLng rawData w s = (Throw TypeError, s').
Proof.
  intros Hbad.
  destruct (normalize query currentLat currentLng rawData w s) as [[r | e] s'] eqn:Hn.
  - exfalso. pose proof Hn as Hn'. apply normalize_Ok in Hn'.
    destruct Hn' as (Hread & _ & _ & _ & items & Hrec & _).
    destruct Hbad as [Hbad | [Hbad | (items' & Hrec' & Hbad)]]; try congruence.
    assert (items' = items) by congruence. subst items'.
    revert Hn. unfold normalize.
    rewrite !bind_run, !prop_readable by exact Hread.
    rewrite !bind_run, !prop_readable by exact Hread.
    rewrite !bind_run, !prop_readable by exact Hread.
    rewrite !bind_run, !prop_readable by exact Hread.
    rewrite bind_run. unfold spot_records in Hrec.
    destruct (or_else (field rawData "spots") (VArr [])); try discriminate Hrec.
    injection Hrec as ->. cbn [map_spots].
    destruct (map_indexed_unreadable
                (or_else (field rawData "regionLat") (VNum currentLat))
                (or_else (field rawData "regionLng") (VNum currentLng)) items w Hbad 0 s)
      as (e & s1 & ->).
    discriminate.
  - exists s'. f_equal. f_equal. eapply raises_normalize. exact Hn.
Qed.

(** X6. A payload that cannot be normalised (it is [null], its [spots] is
    no array, or a record is [null]) never reaches the caller: the call
    resolves to the four mock spots, caches them, and logs the TypeError. Any
    records that were processed before the failure are discarded. *)
Theorem fetchFoodSpots_malformed_payload (w : World) (s : State) (query : string)
  (currentLat currentLng : number) (rawData : jsval) :
  upstream_reply w s query rawData ->
  malformed rawData ->
  exists r s1 s2 s',
    fetchFoodSpots query currentLat currentLng w s = (Ok (Own r), s')
    /\ mockSpots query currentLat currentLng w s1 = (Ok r, s2)
    /\ length (spots r) = 4
    /\ requestCache s' = <[cacheKey query := r]> (requestCache s)
    /\ console s' = (console s ++ [console_error "Gemini API Error:" TypeError])%list.
Proof.
  intros (Hmiss & Hkey & text & Hreply & Hparse) Hbad.
  rewrite (fetch_with_key _ _ _ _ _ Hmiss Hkey).
  pose proof (upstream_frame query currentLat currentLng w s) as Hframe.
  assert (Hup : exists s1, upstream query currentLat currentLng w s = (Throw TypeError, s1)).
  { unfold upstream, request. rewrite bind_run, Hreply, bind_run.
    assert (Hparse' : JSON_parse (text_or_empty_object text) w (with_requests (S (requests s)) s)
                      = (Ok rawData, with_requests (S (requests s)) s)).
    { revert Hparse. unfold JSON_parse.
      destruct (String.eqb (text_or_empty_object text) "{}").
      - cbv [mret M_ret fst]. congruence.
      - rewrite !bind_run. cbn [world].
        destruct (parse w (text_or_empty_object text));
          cbv [or_throw mret M_ret throw fst]; congruence. }
    rewrite Hparse'. apply normalize_malformed. exact Hbad. }
  destruct Hup as (s1 & Hup). rewrite Hup in *. cbn [snd] in Hframe.
  destruct Hframe as (Hc & _ & Hl & _). cbn in Hc, Hl.
  destruct (mockSpots_runs query currentLat currentLng w
              (with_console (console s1 ++ [console_error "Gemini API Error:" TypeError]) s1))
    as (r & s2 & Hmock & (Hc2 & _ & Hl2 & _) & Hlen & _).
  rewrite Hmock. exists r. eexists. eexists. eexists.
  split; [reflexivity |]. split; [exact Hmock |]. split; [exact Hlen |].
  cbn in *. split; congruence.
Qed.

Lemma fetchFoodSpots_malformed_payload_witness :
  upstream_reply (online holed_payload) initial "Lisbon" holed_payload
  /\ malformed holed_payload
  /\ exists r s1 s2 s',
       fetchFoodSpots "Lisbon" (Num 9.9312) (Num 76.2673) (online holed_payload) initial
       = (Ok (Own r), s')
       /\ mockSpots "Lisbon" (Num 9.9312) (Num 76.2673) (online holed_payload) s1 = (Ok r, s2)
       /\ length (spots r) = 4
       /\ requestCache s' = <[cacheKey "Lisbon" := r]> (requestCache initial)
       /\ console s' = ([] ++ [console_error "Gemini API Error:" TypeError])%list.
Proof.
  assert (Hreply : upstream_reply (online holed_payload) initial "Lisbon" holed_payload).
  { split; [reflexivity |]. split; [reflexivity |]. eexists. split; reflexivity. }
  assert (Hbad : malformed holed_payload).
  { right. right. eexists. split; [reflexivity |].
    apply Exists_cons_tl. apply Exists_cons_hd. reflexivity. }
  split; [exact Hreply |]. split; [exact Hbad |].
  apply (fetchFoodSpots_malformed_payload (online holed_payload) initial "Lisbon"
           (Num 9.9312) (Num 76.2673) holed_payload Hreply Hbad).
Defined.

(** *** What the normalisation gives every spot *)

Lemma floor_50_range r : (0 <= r /\ r < 1)%Q -> (0 <= Math_floor (r * 50) <= 49)%Z.
Proof.
  intros [Hlo Hhi]. unfold Math_floor. split.
  - rewrite <- (Qfloor_Z 0). apply Qfloor_resp_le.
    change (0 <= r * 50)%Q. lra.
  - assert (H : (inject_Z (Qfloor (r * 50)) < inject_Z 50)%Q).
    { eapply Qle_lt_trans; [apply Qfloor_le |]. change (r * 50 < 50)%Q. lra. }
    rewrite <- Zlt_Qlt in H. lia.
Qed.

Lemma or_else_truthy a b : truthy b = true -> truthy (or_else a b) = true.
Proof. unfold or_else. destruct (truthy a) eqn:E; auto. Qed.

(** X7. Every spot made from an upstream record carries a source count that
    is an integer between 10 and 59, drawn at random and not taken from the
    payload, and an influencer summary and a list of influencers that are
    never missing. *)
Theorem normalize_influencerData (w : World) (s s' : State) (query : string)
  (currentLat currentLng : number) (rawData : jsval) (r : DiscoveryResult) :
  unit_draws w ->
  normalize query currentLat currentLng rawData w s = (Ok r, s') ->
  Forall (fun spot =>
            (exists (n : Z) (q : Q),
               sourceCount (influencerData spot) = Num q
               /\ (q == inject_Z n)%Q /\ (10 <= n <= 59)%Z)
            /\ truthy (summary (influencerData spot)) = true
            /\ truthy (topMentionedBy (influencerData spot)) = true)
    (spots r).
Proof.
  intros Hdraws Hn. apply normalize_Ok in Hn.
  destruct Hn as (_ & _ & _ & _ & items & _ & Hfrom).
  apply processed_from_Forall2 in Hfrom.
  induction Hfrom as [| item spot items spots_ (i & Hp) _ IH]; constructor; [| exact IH].
  destruct Hp as (_ & _ & _ & _ & _ & _ & _ & _ & _ & _ & _ & _ & _ & _ & Hsum & (k & Hcount)
                  & Htop & _).
  split; [| split].
  - exists (Math_floor (Math_random w k * 50) + 10)%Z. eexists.
    split; [exact Hcount |]. split.
    + rewrite inject_Z_plus. reflexivity.
    + pose proof (floor_50_range _ (Hdraws k)). lia.
  - rewrite Hsum. apply or_else_truthy. reflexivity.
  - rewrite Htop. apply or_else_truthy. reflexivity.
Qed.

Lemma normalize_influencerData_witness :
  exists r s',
    normalize "Lisbon" (Num 9.9312) (Num 76.2673) sample_payload (online sample_payload) initial
    = (Ok r, s')
    /\ map (fun spot => sourceCount (influencerData spot)) (spots r)
       = [Num (inject_Z 12 + 10); Num (inject_Z 12 + 10)]
    /\ Forall (fun spot =>
                 (exists (n : Z) (q : Q),
                    sourceCount (influencerData spot) = Num q
                    /\ (q == inject_Z n)%Q /\ (10 <= n <= 59)%Z)
                 /\ truthy (summary (influencerData spot)) = true
                 /\ truthy (topMentionedBy (influencerData spot)) = true)
         (spots r).
Proof.
  eexists. eexists. split; [vm_compute; reflexivity |]. split; [reflexivity |].
  eapply (normalize_influencerData (online sample_payload) initial _ "Lisbon"
            (Num 9.9312) (Num 76.2673) sample_payload).
  - intros k. cbn. split; [intros H; discriminate H | reflexivity].
  - vm_compute. reflexivity.
Defined.

(** *** The cache key *)

Lemma lower_unit_idem c : lower_unit (lower_unit c) = lower_unit c.
Proof. destruct c as [[] [] [] [] [] [] [] []]; reflexivity. Qed.

Lemma is_space_lower c : is_space (lower_unit c) = is_space c.
Proof. destruct c as [[] [] [] [] [] [] [] []]; reflexivity. Qed.

Lemma toLowerCase_idem s : toLowerCase (toLowerCase s) = toLowerCase s.
Proof. induction s as [| c s IH]; cbn; [| rewrite lower_unit_idem, IH]; reflexivity. Qed.

Lemma toLowerCase_empty s : String.eqb (toLowerCase s) "" = String.eqb s "".
Proof. destruct s; reflexivity. Qed.

Lemma toLowerCase_trimStart s : toLowerCase (trimStart s) = trimStart (toLowerCase s).
Proof.
  induction s as [| c s IH]; cbn; [reflexivity |].
  rewrite is_space_lower. destruct (is_space c); [exact IH | reflexivity].
Qed.

Lemma toLowerCase_trimEnd s : toLowerCase (trimEnd s) = trimEnd (toLowerCase s).
Proof.
  induction s as [| c s IH]; cbn; [reflexivity |].
  rewrite is_space_lower, <- IH, toLowerCase_empty.
  destruct (is_space c && String.eqb (trimEnd s) ""); reflexivity.
Qed.

Lemma toLowerCase_trim s : toLowerCase (trim s) = trim (toLowerCase s).
Proof. unfold trim. rewrite toLowerCase_trimEnd, toLowerCase_trimStart. reflexivity. Qed.

Lemma trimEnd_idem s : trimEnd (trimEnd s) = trimEnd s.
Proof.
  induction s as [| c s IH]; cbn; [reflexivity |].
  destruct (is_space c && String.eqb (trimEnd s) "") eqn:E; cbn; [reflexivity |].
  rewrite IH, E. reflexivity.
Qed.

Lemma trimStart_trimEnd s : trimStart (trimEnd (trimStart s)) = trimEnd (trimStart s).
Proof.
  induction s as [| c s IH]; cbn; [reflexivity |].
  destruct (is_space c) eqn:E; [exact IH |].
  cbn. rewrite E. cbn. rewrite E. reflexivity.
Qed.

Lemma trim_idem s : trim (trim s) = trim s.
Proof. unfold trim. rewrite trimStart_trimEnd. apply trimEnd_idem. Qed.

Lemma cacheKey_idem query : cacheKey (cacheKey query) = cacheKey query.
Proof.
  unfold cacheKey. rewrite toLowerCase_trim, toLowerCase_idem. apply trim_idem.
Qed.

Lemma fetch_again q1 q2 a b c d w s :
  cacheKey q2 = cacheKey q1 ->
  fetchFoodSpots q2 c d w (snd (fetchFoodSpots q1 a b w s)) = fetchFoodSpots q1 a b w s.
Proof.
  intros Hkey.
  destruct (cache_get (requestCache s) (cacheKey q1)) as [hit |] eqn:Hget.
  - rewrite (fetch_hit q1 _ _ _ _ _ Hget). cbn [snd]. apply fetch_hit. congruence.
  - destruct (fetch_miss_effects q1 a b w s Hget) as (r & s' & -> & Hc & _).
    cbn [snd]. apply fetch_hit. rewrite Hkey, Hc. apply cache_get_insert.
Qed.

(** X8. The cache key is a normal form: taking the key of a key, of the
    lower-cased query or of the trimmed query gives the key of the query. So
    a call made with the key itself, or with the query in another case or
    with other blank space around it, is answered by the result of the first
    call and changes nothing. *)
Theorem cacheKey_normal_form (query : string) :
  cacheKey (cacheKey query) = cacheKey query
  /\ cacheKey (toLowerCase query) = cacheKey query
  /\ cacheKey (trim query) = cacheKey query
  /\ forall again a b c d w s,
       again = cacheKey query \/ again = toLowerCase query \/ again = trim query ->
       fetchFoodSpots again c d w (snd (fetchFoodSpots query a b w s))
       = fetchFoodSpots query a b w s.
Proof.
  assert (H1 : cacheKey (cacheKey query) = cacheKey query) by apply cacheKey_idem.
  assert (H2 : cacheKey (toLowerCase query) = cacheKey query).
  { unfold cacheKey. rewrite toLowerCase_idem. reflexivity. }
  assert (H3 : cacheKey (trim query) = cacheKey query).
  { unfold cacheKey. rewrite toLowerCase_trim. apply trim_idem. }
  repeat split; auto.
  intros again a b c d w s [-> | [-> | ->]]; apply fetch_again; assumption.
Qed.

Lemma cacheKey_normal_form_witness :
  cacheKey " PaRis " = "paris"
  /\ fetchFoodSpots "paris" (Num 1) (Num 2) offline
       (snd (fetchFoodSpots " PaRis " (Num 48.85) (Num 2.35) offline initial))
     = fetchFoodSpots " PaRis " (Num 48.85) (Num 2.35) offline initial.
Proof.
  split; [reflexivity |].
  destruct (cacheKey_normal_form " PaRis ") as (_ & _ & _ & Hagain).
  apply Hagain. left. reflexivity.
Defined.

(* ================================================================== *)
(** ** The page: running computations of the process in it *)
(* ================================================================== *)

Lemma page_bind_run {A B} (m : MP A) (f : A -> MP B) w p :
  (m ≫= f) w p =
  match m w p with
  | (Ok a, p1) => f a w p1
  | (Throw e, p1) => (Throw e, p1)
  end.
Proof. reflexivity. Qed.

Lemma lift_run {A} (m : M A) w p :
  lift m w p = (fst (m w (App.process p)), with_process (snd (m w (App.process p))) p).
Proof. unfold lift. destruct (m w (App.process p)); reflexivity. Qed.

Lemma addLog_run msg a w s :
  addLog msg a w s =
  (Ok tt,
   with_ui
     (with_agentLogs
        (agentLogs (ui s) ++
         [{| log_id := substring_from 7 (Number_toString (conv w) 36 (Num (Math_random w (draws s))));
             timestamp := Date_now w (ticks s);
             message := msg;
             agent := a |}])
        (ui s))
     (with_ticks (S (ticks s)) (with_draws (S (draws s)) s))).
Proof. reflexivity. Qed.


Lemma runDiscoveryAgent_flat centerLat centerLng query w p :
  runDiscoveryAgent centerLat centerLng query w p =
  match fetchFoodSpots query centerLat centerLng w
          (snd ((discovery_scan query;;
                 setActiveAgent SEARCH;;
                 addLog "Extracting entities & geolocation data..." SEARCH) w (App.process p)))
  with
  | (Ok result, s3) =>
      (found ← lift (discovery_rank result);
       lift discovery_validate;;
       discovery_commit result found) w (with_process s3 p)
  | (Throw e, s3) => (Throw e, with_process s3 p)
  end.
Proof.
  unfold runDiscoveryAgent.
  rewrite page_bind_run, lift_run.
  change (fst (discovery_scan query w (App.process p))) with (@Ok unit tt).
  cbv iota. rewrite page_bind_run, lift_run. cbn [App.process with_process].
  change (discovery_search centerLat centerLng query w
            (snd (discovery_scan query w (App.process p))))
    with (fetchFoodSpots query centerLat centerLng w
            (snd ((discovery_scan query;;
                   setActiveAgent SEARCH;;
                   addLog "Extracting entities & geolocation data..." SEARCH) w (App.process p)))).
  destruct (fetchFoodSpots _ _ _ _ _) as [[result | e] s3]; reflexivity.
Qed.

Ltac run_page :=
  cbv -[String.append nat_toString ToString truthy substring_from dquote app
        Number_toString Math_random Date_now conv map lookup cacheKey].


Lemma discovery_inherited centerLat centerLng query w p member :
  cache_get (requestCache (App.process p)) (cacheKey query) = Some (Inherited member) ->
  exists entries,
    let out := runDiscoveryAgent centerLat centerLng query w p in
    let u' := ui (App.process (snd out)) in
    fst out = Throw TypeError
    /\ activeAgent u' = RANKING
    /\ heldSpots u' = heldSpots (ui (App.process p))
    /\ selectedSpot u' = None
    /\ App.userLocation (snd out) = App.userLocation p
    /\ App.locationName (snd out) = App.locationName p
    /\ App.searchQuery (snd out) = App.searchQuery p
    /\ same_service (App.process p) (App.process (snd out))
    /\ agentLogs u' = (agentLogs (ui (App.process p)) ++ entries)%list
    /\ map agent entries = [DISCOVERY; SEARCH].
Proof.
  intros Hget.
  rewrite runDiscoveryAgent_flat.
  rewrite (fetch_hit query centerLat centerLng w _ (Inherited member)) by exact Hget.
  destruct p as [[c0 n0 d0 t0 co0 [h0 sel0 act0 logs0]] loc0 name0 sq0].
  eexists. run_page. repeat split. all: rewrite <- ?app_assoc; reflexivity.
Qed.

(* ================================================================== *)
(** ** The discovery run and the search *)
(* ================================================================== *)




(** X10. A discovery run for a query whose key is the name of a member of
    [Object.prototype] ([constructor], [toString], [__proto__], ...) never
    completes: the cache lookup yields the inherited member, reading the
    length of its missing [spots] throws, and the page is left loading, with
    the agent at RANKING, the held spots and the location as they were, the
    selection cleared, and no upstream call made. *)
Theorem runDiscoveryAgent_stuck_on_prototype_name (w : World) (p : App.Page)
  (centerLat centerLng : number) (query : string) :
  reachable w (App.process p) ->
  existsb (String.eqb (cacheKey query)) Object_prototype = true ->
  let out := runDiscoveryAgent centerLat centerLng query w p in
  let u' := ui (App.process (snd out)) in
  fst out = Throw TypeError
  /\ isLoading u' = true
  /\ activeAgent u' = RANKING
  /\ heldSpots u' = heldSpots (ui (App.process p))
  /\ selectedSpot u' = None
  /\ App.userLocation (snd out) = App.userLocation p
  /\ App.locationName (snd out) = App.locationName p
  /\ requestCache (App.process (snd out)) = requestCache (App.process p)
  /\ requests (App.process (snd out)) = requests (App.process p)
  /\ console (App.process (snd out)) = console (App.process p).
Proof.
  intros Hreach Hkey.
  assert (Hget : cache_get (requestCache (App.process p)) (cacheKey query)
                 = Some (Inherited (cacheKey query))).
  { unfold cache_get. rewrite (inherited_never_stored _ _ _ Hreach Hkey), Hkey. reflexivity. }
  destruct (discovery_inherited centerLat centerLng query w p _ Hget)
    as (entries & Hout & Hagent & Hheld & Hsel & Hloc & Hname & _ & (Hc & Hr & Hl) & _).
  cbv zeta. unfold isLoading. rewrite Hagent. auto 10.
Qed.

Lemma runDiscoveryAgent_stuck_on_prototype_name_witness :
  fst (runDiscoveryAgent (Num 9.9312) (Num 76.2673) " Constructor" offline initial_page)
  = Throw TypeError
  /\ isLoading
       (ui (App.process
              (snd (runDiscoveryAgent (Num 9.9312) (Num 76.2673) " Constructor" offline
                      initial_page))))
     = true.
Proof.
  destruct (runDiscoveryAgent_stuck_on_prototype_name offline initial_page (Num 9.9312)
              (Num 76.2673) " Constructor") as (Hout & Hloading & _).
  - apply reach_start. reflexivity.
  - reflexivity.
  - split; [exact Hout | exact Hloading].
Defined.

Lemma toLowerCase_nonempty s : s <> "" -> toLowerCase s <> "".
Proof. destruct s; [congruence | discriminate]. Qed.

(** X11. A search with a blank query (empty, or nothing but the white
    space that [trim] strips: tab, line feed, vertical tab, form feed,
    carriage return, space, no-break space) does nothing at all. Any other
    query adds one SEARCH line to the agent log and calls the discovery run
    with the current map centre and the query as typed, whose cache key is
    then not empty; the search itself changes nothing else. *)
Theorem handleSearch_blank_or_started (w : World) (p : App.Page) :
  (trim (App.searchQuery p) = "" -> handleSearch w p = (Ok None, p))
  /\ (trim (App.searchQuery p) <> "" ->
      exists p' entry,
        handleSearch w p = (Ok (Some (App.userLocation p, App.searchQuery p)), p')
        /\ cacheKey (App.searchQuery p) <> ""
        /\ agentLogs (ui (App.process p')) = (agentLogs (ui (App.process p)) ++ [entry])%list
        /\ agent entry = SEARCH
        /\ message entry
           = "New search initiated: " +:+ dquote +:+ App.searchQuery p +:+ dquote
        /\ heldSpots (ui (App.process p')) = heldSpots (ui (App.process p))
        /\ selectedSpot (ui (App.process p')) = selectedSpot (ui (App.process p))
        /\ activeAgent (ui (App.process p')) = activeAgent (ui (App.process p))
        /\ same_service (App.process p) (App.process p')
        /\ App.userLocation p' = App.userLocation p
        /\ App.locationName p' = App.locationName p
        /\ App.searchQuery p' = App.searchQuery p).
Proof.
  unfold handleSearch. rewrite page_bind_run. cbn [get_page]. split; intros Hq.
  - rewrite Hq. reflexivity.
  - destruct (String.eqb_spec (trim (App.searchQuery p)) "") as [E | _]; [contradiction |].
    rewrite page_bind_run, lift_run, addLog_run. cbn [fst snd].
    destruct p as [[c0 n0 d0 t0 co0 [h0 sel0 act0 logs0]] loc0 name0 sq0].
    eexists. eexists. split; [reflexivity |]. split.
    + unfold cacheKey. rewrite <- toLowerCase_trim. apply toLowerCase_nonempty. exact Hq.
    + cbn. unfold same_service. cbn. repeat split.
Qed.

Lemma handleSearch_blank_or_started_witness :
  handleSearch offline (snd (setSearchQuery (" " +:+ nbsp +:+ " ") offline initial_page))
  = (Ok None, snd (setSearchQuery (" " +:+ nbsp +:+ " ") offline initial_page))
  /\ exists p',
       handleSearch offline (snd (setSearchQuery " Paris" offline initial_page))
       = (Ok (Some ({| lat := VNum (Num 9.9312); lng := VNum (Num 76.2673) |}, " Paris")), p')
       /\ cacheKey " Paris" <> "".
Proof.
  split.
  - apply (handleSearch_blank_or_started offline
             (snd (setSearchQuery (" " +:+ nbsp +:+ " ") offline initial_page))).
    reflexivity.
  - destruct (handleSearch_blank_or_started offline
                (snd (setSearchQuery " Paris" offline initial_page)))
      as (_ & Hstarted).
    destruct Hstarted as (p' & entry & Hrun & Hkey & _).
    + vm_compute. intros H. discriminate H.
    + exists p'. split; [exact Hrun | exact Hkey].
Defined.

(* ================================================================== *)
(** ** The refresh timer *)
(* ================================================================== *)

Lemma handleWeeklyRefresh_timer w s t :
  fst (handleWeeklyRefresh w s) = Ok (Some t) ->
  heldSpots (ui s) <> []
  /\ t = {| delay := 2500; callback := refresh_callback (heldSpots (ui s)) |}.
Proof.
  unfold handleWeeklyRefresh. rewrite bind_run. cbn [get_state].
  destruct (heldSpots (ui s)) as [| spot rest]; cbn [length Nat.eqb].
  - discriminate.
  - intros H. split; [discriminate |]. cbn in H. injection H as <-. reflexivity.
Qed.

Lemma refresh_callback_cases l w s :
  (exists l' s',
     refresh_callback l w s = (Ok tt, s')
     /\ Forall2 (refresh_of w (draws s) (ticks s)) l l'
     /\ heldSpots (ui s') = l'
     /\ selectedSpot (ui s') = selectedSpot (ui s)
     /\ activeAgent (ui s') = IDLE
     /\ requestCache s' = requestCache s)
  \/ (exists e s',
        refresh_callback l w s = (Throw e, s')
        /\ ui s' = ui s
        /\ requestCache s' = requestCache s).
Proof.
  unfold refresh_callback. rewrite bind_run.
  pose proof (refresh_all_counters l 0 w s) as Hc.
  destruct (map_indexed (fun spot _ => refreshSpot spot) 0 l w s) as [[l' | e] s1] eqn:Emap;
    cbn [snd] in Hc; destruct Hc as (Hcache & _ & _ & Hui & _).
  - left. exists l'. eexists. split; [reflexivity |].
    split; [eapply refresh_all_Ok; exact Emap |].
    cbn. rewrite Hui. auto.
  - right. exists e, s1. auto.
Qed.

(** X12. The refresh timer works on the spots of the page on which the
    button was clicked, not on those of the page on which it fires: when its
    callback completes, the held spots are refreshed copies of the spots held
    at the click, whatever a discovery has put on the page in the 2.5 seconds
    between; when it throws, the held spots stay as they are. *)
Theorem refresh_timer_uses_spots_of_click (w : World) (s s1 : State) (t : timer) :
  handleWeeklyRefresh w s = (Ok (Some t), s1) ->
  delay t = 2500%Z
  /\ activeAgent (ui s1) = REFRESH
  /\ heldSpots (ui s1) = heldSpots (ui s)
  /\ forall s2,
       match callback t w s2 with
       | (Ok _, s3) =>
           Forall2 refreshed (heldSpots (ui s)) (heldSpots (ui s3))
           /\ activeAgent (ui s3) = IDLE
       | (Throw _, s3) => heldSpots (ui s3) = heldSpots (ui s2)
       end.
Proof.
  intros Hclick.
  assert (Hfst : fst (handleWeeklyRefresh w s) = Ok (Some t)) by (rewrite Hclick; reflexivity).
  apply handleWeeklyRefresh_timer in Hfst. destruct Hfst as (Hheld & ->).
  revert Hclick. unfold handleWeeklyRefresh. rewrite bind_run. cbn [get_state].
  destruct (heldSpots (ui s)) as [| spot rest] eqn:Eheld; [contradiction |].
  cbn [length Nat.eqb]. intros Hclick. cbn in Hclick. injection Hclick as <-.
  split; [reflexivity |]. split; [reflexivity |]. split; [cbn; congruence |].
  intros s2. cbn [callback].
  destruct (refresh_callback_cases (spot :: rest) w s2)
    as [(l' & s3 & -> & Hall & Hl & _ & Hagent & _) | (e & s3 & -> & Hui & _)].
  - split; [| exact Hagent]. rewrite Hl.
    eapply Forall2_impl; [exact Hall |]. intros o n. apply refresh_of_refreshed.
  - rewrite Hui. reflexivity.
Qed.

Lemma refresh_timer_uses_spots_of_click_witness :
  exists t s1,
    handleWeeklyRefresh offline kochi_page = (Ok (Some t), s1)
    /\ delay t = 2500%Z
    /\ activeAgent (ui s1) = REFRESH.
Proof.
  destruct (handleWeeklyRefresh offline kochi_page) as [[[t |] | e] s1] eqn:E.
  - exists t, s1. split; [reflexivity |].
    destruct (refresh_timer_uses_spots_of_click offline kochi_page s1 t E) as (Hd & Ha & _).
    split; [exact Hd | exact Ha].
  - vm_compute in E. discriminate E.
  - vm_compute in E. discriminate E.
Defined.

Lemma weeklyRefresh_selection w s :
  selectedSpot (ui (snd (weeklyRefresh w s))) = selectedSpot (ui s).
Proof.
  rewrite weeklyRefresh_flat.
  destruct (length (heldSpots (ui s)) =? 0)%nat; [reflexivity |].
  rewrite bind_run. cbn [setActiveAgent modify]. rewrite bind_run, addLog_run.
  match goal with
  | |- context [refresh_callback ?l w ?s1] =>
      destruct (refresh_callback_cases l w s1)
        as [(l' & s3 & -> & _ & _ & Hsel & _) | (e & s3 & -> & Hui & _)]
  end.
  - cbn [snd]. rewrite Hsel. reflexivity.
  - cbn [snd]. rewrite Hui. reflexivity.
Qed.

(** X13. A completed weekly refresh replaces every held spot by a copy
    with a later timestamp, but leaves the selection alone: the selected
    spot, which the detail panel shows, is afterwards none of the held
    spots, while a held spot with its id and a later timestamp exists. *)
Theorem weeklyRefresh_leaves_selection_stale (w : World) (s s' : State) (spot : FoodSpot) :
  weeklyRefresh w s = (Ok tt, s') ->
  selectedSpot (ui s) = Some spot ->
  spot ∈ heldSpots (ui s) ->
  clock_ahead w s ->
  selectedSpot (ui s') = Some spot
  /\ (spot ∉ heldSpots (ui s'))
  /\ exists new,
       new ∈ heldSpots (ui s')
       /\ id new = id spot
       /\ (lastUpdated spot < lastUpdated new)%Z.
Proof.
  intros Hrun Hsel Hin Hclock.
  pose proof (weeklyRefresh_selection w s) as Hkeep. rewrite Hrun in Hkeep. cbn [snd] in Hkeep.
  split; [congruence |].
  destruct (weeklyRefresh_cases w s)
    as [(Hnil & _) | [(s'' & Hrun' & Hall) | (e & s1 & s'' & Hrun' & _)]].
  - rewrite Hnil in Hin. inversion Hin.
  - assert (s'' = s') by congruence. subst s''. clear Hrun'.
    assert (Hlater : forall old new,
              old ∈ heldSpots (ui s) ->
              refresh_of w (draws s) (ticks s) old new ->
              id new = id old /\ (lastUpdated spot < lastUpdated new)%Z).
    { intros old new _ (Hsame & i & k & sum & score & _ & Hk & _ & _ & _ & Hstamp).
      split; [apply Hsame |]. rewrite Hstamp. apply Hclock; assumption. }
    split.
    + intros Hnew. apply list_elem_of_lookup in Hnew. destruct Hnew as (i & Hi).
      destruct (Forall2_lookup_r _ _ _ _ _ Hall Hi) as (old & Hold & Hof).
      apply list_elem_of_lookup_2 in Hold.
      destruct (Hlater old spot Hold Hof) as (_ & Hlt). lia.
    + apply list_elem_of_lookup in Hin. destruct Hin as (i & Hi).
      destruct (Forall2_lookup_l _ _ _ _ _ Hall Hi) as (new & Hnew & Hof).
      exists new. split; [eapply list_elem_of_lookup_2; exact Hnew |].
      apply Hlater; [eapply list_elem_of_lookup_2; exact Hi | exact Hof].
  - rewrite Hrun in Hrun'. discriminate Hrun'.
Qed.

Lemma weeklyRefresh_leaves_selection_stale_witness :
  exists spot s',
    weeklyRefresh offline kochi_selected = (Ok tt, s')
    /\ selectedSpot (ui kochi_selected) = Some spot
    /\ selectedSpot (ui s') = Some spot
    /\ (spot ∉ heldSpots (ui s')).
Proof.
  eexists. eexists. split; [vm_compute; reflexivity |]. split; [vm_compute; reflexivity |].
  match goal with
  | |- selectedSpot (ui ?s') = Some ?spot /\ _ =>
      destruct (weeklyRefresh_leaves_selection_stale offline kochi_selected s' spot)
        as (Hsel & Hstale & _)
  end.
  - vm_compute. reflexivity.
  - vm_compute. reflexivity.
  - vm_compute. apply list_elem_of_here.
  - intros old k Hin Hk.
    change (ticks kochi_selected) with 4 in Hk.
    change (Date_now offline k) with (1700000000000 + Z.of_nat k)%Z.
    change (heldSpots (ui kochi_selected)) with kochi_spots in Hin.
    apply list_elem_of_In in Hin.
    destruct Hin as [<- | [<- | [<- | [<- | []]]]];
      match goal with |- (?a < _)%Z => let v := eval vm_compute in a in change a with v end;
      lia.
  - split; [exact Hsel | exact Hstale].
Defined.

(* ================================================================== *)
(** ** What holds on every page of a session *)
(* ================================================================== *)

Lemma quiet_refl s : quiet s s.
Proof. split; reflexivity. Qed.

Lemma quiet_trans s1 s2 s3 : quiet s1 s2 -> quiet s2 s3 -> quiet s1 s3.
Proof. intros [H1 H2] [H3 H4]. split; congruence. Qed.


Lemma quiet_setActiveAgent a : keeps quiet (setActiveAgent a).
Proof. intros w s. split; reflexivity. Qed.














(* ================================================================== *)
(** ** The views: the cards of the sidebar and the chart of the panel *)
(* ================================================================== *)

Lemma clamp_between x : between 50 100 (num_max (Num 50) (num_min (Num 100) (Num x))).
Proof.
  unfold between, num_min, num_max.
  destruct (Qle_bool 100 x) eqn:E1.
  - apply Qle_bool_iff in E1.
    destruct (Qle_bool 50 100) eqn:E2; [| discriminate E2].
    exists 100%Q. split; [reflexivity |]. lra.
  - destruct (Qle_bool 50 x) eqn:E2.
    + apply Qle_bool_iff in E2. exists x. split; [reflexivity |]. split; [exact E2 |].
      destruct (Qlt_le_dec x 100) as [H | H]; [lra |].
      apply Qle_bool_iff in H. congruence.
    + exists 50%Q. split; [reflexivity |]. lra.
Qed.

Lemma floor_count c k r :
  (0 <= c)%Q -> (0 <= r)%Q ->
  count (num_max (Num 0)
           (num_floor (num_add (num_mul (seventh (Num c)) (num_of_nat k)) (Num (r * 5))))).
Proof.
  intros Hc Hr. unfold count. cbn [seventh num_of_nat num_of_Z num_mul num_add num_floor].
  set (x := (c / 7 * inject_Z (Z.of_nat k) + r * 5)%Q).
  assert (Hx : (0 <= x)%Q).
  { subst x. assert (0 <= inject_Z (Z.of_nat k))%Q.
    { change 0%Q with (inject_Z 0). rewrite <- Zle_Qle. lia. }
    assert (0 <= c / 7)%Q by (apply Qle_shift_div_l; lra).
    assert (0 <= c / 7 * inject_Z (Z.of_nat k))%Q by (apply Qmult_le_0_compat; assumption).
    lra. }
  assert (Hz : (0 <= Math_floor x)%Z).
  { unfold Math_floor. rewrite <- (Qfloor_Z 0). apply Qfloor_resp_le. exact Hx. }
  exists (Math_floor x). split; [| exact Hz].
  unfold num_max, num_of_Z.
  destruct (Qle_bool 0 (inject_Z (Math_floor x))) eqn:E; [reflexivity |].
  assert (H : (0 <= inject_Z (Math_floor x))%Q).
  { change 0%Q with (inject_Z 0). rewrite <- Zle_Qle. exact Hz. }
  apply Qle_bool_iff in H. congruence.
Qed.

Lemma chartPoint_numeric w s spot i t v c :
  unit_draws w ->
  trendingScore spot = VNum (Num t) ->
  popularityVelocity spot = VNum (Num v) ->
  sourceCount (influencerData spot) = Num c ->
  (0 <= c)%Q ->
  exists pt,
    chartPoint spot i w s = (Ok pt, with_draws (S (S (draws s))) s)
    /\ day pt = "Day " +:+ nat_toString (i + 1)
    /\ between 50 100 (score pt)
    /\ count (mentions pt).
Proof.
  intros Hdraws Ht Hv Hc Hpos.
  unfold chartPoint. rewrite Ht, Hv, Hc.
  rewrite bind_run. cbn [random]. rewrite bind_run. cbn [world].
  rewrite add_numbers. cbn [or_throw]. rewrite bind_run. cbn [mret M_ret].
  rewrite bind_run.
  cbn [ToNumber ToPrimitive fmap option_fmap option_map prim_ToNumber or_throw mret M_ret].
  cbn [num_mul num_of_nat num_of_Z]. rewrite add_numbers. cbn [or_throw].
  rewrite bind_run. cbn [mret M_ret]. rewrite bind_run.
  cbn [Math_min ToNumber ToPrimitive fmap option_fmap option_map prim_ToNumber or_throw
       mret M_ret].
  rewrite bind_run. cbn [random draws with_draws].
  eexists. split; [reflexivity |]. cbn [day score mentions].
  split; [reflexivity |]. split; [apply clamp_between |].
  apply floor_count; [exact Hpos | apply Hdraws].
Qed.

Lemma chartPoint_undefined_velocity w s spot i n :
  trendingScore spot = VNum n ->
  popularityVelocity spot = VUndef ->
  exists pt,
    chartPoint spot i w s = (Ok pt, with_draws (S (S (draws s))) s)
    /\ score pt = NaN.
Proof.
  intros Ht Hv. unfold chartPoint. rewrite Ht, Hv.
  rewrite bind_run. cbn [random]. rewrite bind_run. cbn [world].
  eexists. split; [reflexivity |]. cbn. destruct n; reflexivity.
Qed.

Lemma chartData_points w spot (P : ChartPoint -> Prop) :
  (forall i s, exists pt,
      chartPoint spot i w s = (Ok pt, with_draws (S (S (draws s))) s)
      /\ day pt = "Day " +:+ nat_toString (i + 1) /\ P pt) ->
  forall s,
    exists points,
      chartData spot w s = (Ok points, with_draws (14 + draws s) s)
      /\ map day points
         = ["Day 1"; "Day 2"; "Day 3"; "Day 4"; "Day 5"; "Day 6"; "Day 7"]
      /\ Forall P points.
Proof.
  intros Hpoint s. unfold chartData. cbn [replicate map_indexed].
  do 7 (rewrite !bind_run;
        match goal with
        | |- context [chartPoint spot ?i w ?s0] =>
            let pt := fresh "pt" in
            let E := fresh "E" in
            let D := fresh "D" in
            let HP := fresh "HP" in
            destruct (Hpoint i s0) as (pt & E & D & HP); rewrite E; clear E
        end).
  rewrite !bind_run. cbn [mret M_ret].
  eexists. split; [reflexivity |]. split.
  - cbn [map].
    repeat match goal with H : day _ = _ |- _ => rewrite H; clear H end.
    reflexivity.
  - repeat constructor; assumption.
Qed.

(** X15. For a spot whose trending score and popularity velocity are finite
    numbers and whose source count is not negative, the chart of the detail
    panel has seven points, labelled Day 1 to Day 7, with every score
    between 50 and 100 and every mention count a whole number from 0 up; it
    takes fourteen random draws and changes nothing else. *)
Theorem chartData_in_range (w : World) (s : State) (spot : FoodSpot) (t v c : Q) :
  unit_draws w ->
  trendingScore spot = VNum (Num t) ->
  popularityVelocity spot = VNum (Num v) ->
  sourceCount (influencerData spot) = Num c ->
  (0 <= c)%Q ->
  exists points,
    chartData spot w s = (Ok points, with_draws (14 + draws s) s)
    /\ map day points = ["Day 1"; "Day 2"; "Day 3"; "Day 4"; "Day 5"; "Day 6"; "Day 7"]
    /\ Forall (fun pt => between 50 100 (score pt) /\ count (mentions pt)) points.
Proof.
  intros Hdraws Ht Hv Hc Hpos.
  apply chartData_points. intros i s0.
  destruct (chartPoint_numeric w s0 spot i t v c Hdraws Ht Hv Hc Hpos)
    as (pt & E & D & Hs & Hm).
  exists pt. auto.
Qed.

Lemma chartData_in_range_witness :
  match kochi_spots with
  | spot :: _ =>
      trendingScore spot = VNum (Num 95)
      /\ exists points,
           chartData spot offline initial = (Ok points, with_draws (14 + draws initial) initial)
           /\ map day points
              = ["Day 1"; "Day 2"; "Day 3"; "Day 4"; "Day 5"; "Day 6"; "Day 7"]
           /\ Forall (fun pt => between 50 100 (score pt) /\ count (mentions pt)) points
  | [] => False
  end.
Proof.
  destruct kochi_spots as [| spot rest] eqn:E; [vm_compute in E; discriminate E |].
  vm_compute in E. injection E as <- _.
  split; [reflexivity |].
  apply (chartData_in_range offline initial _ 95 12 540).
  - intros k. split; vm_compute; [intros H; discriminate H | reflexivity].
  - reflexivity.
  - reflexivity.
  - reflexivity.
  - vm_compute. intros H. discriminate H.
Defined.

Lemma normalize_fields query currentLat currentLng rawData w s r s' items :
  normalize query currentLat currentLng rawData w s = (Ok r, s') ->
  spot_records rawData = Some items ->
  Forall2 (fun item spot =>
             address spot = field item "address"
             /\ trendingScore spot = field item "trendingScore"
             /\ popularityVelocity spot = field item "popularityVelocity")
    items (spots r).
Proof.
  intros Hn Hitems. apply normalize_Ok in Hn.
  destruct Hn as (_ & _ & _ & _ & items' & Hitems' & Hfrom).
  assert (items' = items) by congruence. subst items'.
  apply processed_from_Forall2 in Hfrom.
  eapply Forall2_impl; [exact Hfrom |].
  intros item spot (i & Hp).
  destruct Hp as (_ & _ & _ & _ & Ha & _ & _ & _ & _ & Ht & Hv & _). auto.
Qed.

(** X16. A record that leaves out [popularityVelocity], which the response
    schema does not require, gives a spot whose chart is empty: with a
    numeric trending score, all seven scores of the detail panel's chart are
    [NaN]. *)
Theorem chartData_without_velocity (w : World) (s s' : State) (query : string)
  (currentLat currentLng : number) (rawData : jsval) (r : DiscoveryResult)
  (items : list jsval) :
  normalize query currentLat currentLng rawData w s = (Ok r, s') ->
  spot_records rawData = Some items ->
  Forall2 (fun item spot =>
             field item "popularityVelocity" = VUndef ->
             (exists n, field item "trendingScore" = VNum n) ->
             forall s0,
               exists points,
                 chartData spot w s0 = (Ok points, with_draws (14 + draws s0) s0)
                 /\ length points = 7
                 /\ Forall (fun pt => score pt = NaN) points)
    items (spots r).
Proof.
  intros Hn Hitems.
  eapply Forall2_impl; [eapply normalize_fields; eassumption |].
  intros item spot (_ & Ht & Hv) Hnone (n & Hscore) s0.
  destruct (chartData_points w spot (fun pt => score pt = NaN)) with (s := s0)
    as (points & Hrun & Hdays & Hall).
  { intros i s1. unfold chartPoint.
    rewrite Ht, Hv, Hscore, Hnone.
    rewrite bind_run. cbn [random]. rewrite bind_run. cbn [world].
    eexists. split; [reflexivity |]. split; [reflexivity |]. cbn. destruct n; reflexivity. }
  exists points. split; [exact Hrun |]. split; [| exact Hall].
  rewrite <- (length_map day), Hdays. reflexivity.
Qed.

Lemma chartData_without_velocity_witness :
  exists r s',
    normalize "Lisbon" (Num 9.9312) (Num 76.2673) required_only_payload
      (online required_only_payload) initial = (Ok r, s')
    /\ length (spots r) = 1
    /\ Forall (fun spot =>
                 exists points,
                   chartData spot (online required_only_payload) initial
                   = (Ok points, with_draws (14 + draws initial) initial)
                   /\ length points = 7
                   /\ Forall (fun pt => score pt = NaN) points)
         (spots r).
Proof.
  eexists. eexists. split; [vm_compute; reflexivity |]. split; [reflexivity |].
  match goal with
  | |- Forall _ (spots ?r) =>
      pose proof (chartData_without_velocity (online required_only_payload) initial _ "Lisbon"
                    (Num 9.9312) (Num 76.2673) required_only_payload r [required_only]
                    eq_refl eq_refl) as H
  end.
  apply Forall2_cons_1 in H. destruct H as [Hhead _].
  constructor; [| constructor].
  apply Hhead; [reflexivity | eexists; reflexivity].
Defined.

Lemma prefix_of_char a c t :
  String.prefix (String a "") (String c t) = if ascii_dec a c then true else false.
Proof. cbn [String.prefix]. destruct (ascii_dec a c); destruct t; reflexivity. Qed.

Lemma before_comma_prefix s :
  exists rest,
    s = before_comma s +:+ rest /\ (rest = "" \/ String.prefix "," rest = true).
Proof.
  induction s as [| c s (rest & IH & Hrest)]; cbn [before_comma].
  - exists "". split; [reflexivity | left; reflexivity].
  - destruct (Ascii.eqb_spec c ",") as [-> | Hne].
    + exists (String "," s). split; [reflexivity |]. right. rewrite prefix_of_char.
      destruct (ascii_dec "," ","); [reflexivity | contradiction].
    + exists rest. split; [| exact Hrest]. rewrite append_cons. f_equal. exact IH.
Qed.

Lemma before_comma_no_comma s : includes (before_comma s) "," = false.
Proof.
  induction s as [| c s IH]; cbn [before_comma]; [reflexivity |].
  destruct (Ascii.eqb_spec c ",") as [-> | Hne]; [reflexivity |].
  cbn [includes]. rewrite IH, prefix_of_char.
  destruct (ascii_dec "," c) as [E | _]; [congruence | reflexivity].
Qed.

Lemma SpotCard_runs w s spot :
  SpotCard spot w s =
  match address_line spot, greater_than (conv w) (trendingScore spot) 85 with
  | Some place_, Some hot_ => (Ok {| place := place_; hot := hot_ |}, s)
  | _, _ => (Throw TypeError, s)
  end.
Proof.
  unfold SpotCard. rewrite bind_run.
  destruct (address_line spot) as [place_ |]; [| reflexivity].
  cbn [or_throw mret M_ret]. rewrite bind_run. cbn [world]. rewrite bind_run.
  destruct (greater_than (conv w) (trendingScore spot) 85) as [hot_ |]; reflexivity.
Qed.

(** X17. [SpotCard] returns only for a spot whose address is a string:
    with any other address (a missing one included) it throws a TypeError.
    With a string address and a primitive trending score it returns and
    changes nothing; the line under the name is the address up to its first
    comma, and the HOT badge is put out for a numeric score exactly when the
    score is above 85. *)
Theorem SpotCard_address_and_badge (w : World) (s : State) (spot : FoodSpot) :
  match address spot with
  | VStr a =>
      primitive (trendingScore spot) = true ->
      exists card rest,
        SpotCard spot w s = (Ok card, s)
        /\ a = place card +:+ rest
        /\ (rest = "" \/ String.prefix "," rest = true)
        /\ includes (place card) "," = false
        /\ forall q, trendingScore spot = VNum (Num q) -> (hot card = true <-> (85 < q)%Q)
  | _ => SpotCard spot w s = (Throw TypeError, s)
  end.
Proof.
  rewrite SpotCard_runs. unfold address_line.
  destruct (address spot) as [| | b | n | a | l | f]; try reflexivity.
  intros Hprim.
  assert (Hnum : greater_than (conv w) (trendingScore spot) 85
                 = Some (match prim_ToNumber (conv w) (trendingScore spot) with
                         | Num q => negb (Qle_bool q 85)
                         | NaN => false
                         end)).
  { unfold greater_than, ToNumber. rewrite (ToPrimitive_primitive _ _ Hprim). reflexivity. }
  rewrite Hnum. destruct (before_comma_prefix a) as (rest & Hsplit & Hrest).
  eexists. exists rest. split; [reflexivity |]. cbn [place hot].
  split; [exact Hsplit |]. split; [exact Hrest |].
  split; [apply before_comma_no_comma |].
  intros q Hq. rewrite Hq. cbn [prim_ToNumber]. rewrite negb_true_iff. split.
  - intros Hle. apply Qnot_le_lt. intros H. apply Qle_bool_iff in H. congruence.
  - intros Hlt. destruct (Qle_bool q 85) eqn:E; [| reflexivity].
    apply Qle_bool_iff in E. apply Qlt_not_le in Hlt. contradiction.
Qed.

Lemma SpotCard_address_and_badge_witness :
  match kochi_spots with
  | spot :: _ =>
      address spot = VStr "Edappally"
      /\ trendingScore spot = VNum (Num 95)
      /\ exists card,
           SpotCard spot offline initial = (Ok card, initial)
           /\ hot card = true
  | [] => False
  end.
Proof.
  destruct kochi_spots as [| spot rest] eqn:E; [vm_compute in E; discriminate E |].
  vm_compute in E. injection E as <- _.
  split; [reflexivity |]. split; [reflexivity |].
  match goal with
  | |- exists card, SpotCard ?spot _ _ = _ /\ _ =>
      pose proof (SpotCard_address_and_badge offline initial spot) as H
  end.
  cbn [address] in H. destruct H as (card & rest' & Hrun & _ & _ & _ & Hhot).
  - reflexivity.
  - exists card. split; [exact Hrun |]. apply (proj2 (Hhot 95%Q eq_refl)). reflexivity.
Defined.

Lemma spotCards_throw w l :
  Exists (fun spot => is_string (address spot) = false) l ->
  forall index s,
    map_indexed (fun spot _ => SpotCard spot) index l w s = (Throw TypeError, s).
Proof.
  induction 1 as [spot l Hbad | spot l _ IH]; intros index s; cbn [map_indexed];
    rewrite bind_run, SpotCard_runs.
  - unfold address_line. destruct (address spot); try discriminate Hbad; reflexivity.
  - destruct (address_line spot) as [place_ |]; [| reflexivity].
    destruct (greater_than _ _ _) as [hot_ |]; [| reflexivity].
    rewrite bind_run, IH. reflexivity.
Qed.

(** X18. A record that leaves out [address], which the response schema
    does not require, or gives it as anything but a string, breaks the
    sidebar: once the spots of such a result are held, mapping [SpotCard]
    over them throws a TypeError, and the state is left as it was. *)
Theorem spotCards_need_addresses (w : World) (s s' : State) (query : string)
  (currentLat currentLng : number) (rawData : jsval) (r : DiscoveryResult)
  (items : list jsval) (page : State) :
  normalize query currentLat currentLng rawData w s = (Ok r, s') ->
  spot_records rawData = Some items ->
  Exists (fun item => is_string (field item "address") = false) items ->
  heldSpots (ui page) = spots r ->
  spotCards w page = (Throw TypeError, page).
Proof.
  intros Hn Hitems Hbad Hheld.
  unfold spotCards. rewrite bind_run. cbn [get_state]. rewrite Hheld.
  apply spotCards_throw.
  pose proof (normalize_fields _ _ _ _ _ _ _ _ _ Hn Hitems) as Hfields.
  clear Hn Hitems Hheld. induction Hfields as [| item spot items spots_ (Ha & _) _ IH].
  - inversion Hbad.
  - inversion Hbad as [? ? Hhead | ? ? Htail]; subst.
    + apply Exists_cons_hd. rewrite Ha. exact Hhead.
    + apply Exists_cons_tl. apply IH. exact Htail.
Qed.

Lemma spotCards_need_addresses_witness :
  exists r s',
    normalize "Lisbon" (Num 9.9312) (Num 76.2673) required_only_payload
      (online required_only_payload) initial = (Ok r, s')
    /\ map name (spots r) = [VStr "Cafe A"]
    /\ spotCards (online required_only_payload)
         (with_ui (with_heldSpots (spots r) (ui initial)) initial)
       = (Throw TypeError, with_ui (with_heldSpots (spots r) (ui initial)) initial).
Proof.
  eexists. eexists. split; [vm_compute; reflexivity |]. split; [reflexivity |].
  eapply (spotCards_need_addresses (online required_only_payload) initial _ "Lisbon"
            (Num 9.9312) (Num 76.2673) required_only_payload _ [required_only]).
  - vm_compute. reflexivity.
  - reflexivity.
  - apply Exists_cons_hd. reflexivity.
  - reflexivity.
Defined.

(* ================================================================== *)
(** ** Further invariants of the cache and outcomes of the refresh *)
(* ================================================================== *)

Lemma reachable_keys w s :
  reachable w s -> forall k r, requestCache s !! k = Some r -> cacheKey k = k.
Proof.
  induction 1 as [s Hempty | s query a b _ IH | s s' _ IH Hsame]; intros k r Hk.
  - rewrite Hempty in Hk. rewrite lookup_empty in Hk. discriminate Hk.
  - destruct (cache_get (requestCache s) (cacheKey query)) as [hit |] eqn:Hget.
    + rewrite (fetch_hit _ _ _ _ _ _ Hget) in Hk. eapply IH. exact Hk.
    + destruct (fetch_miss_effects query a b w s Hget) as (r' & s' & Hrun & Hc & _).
      rewrite Hrun in Hk. cbn [snd] in Hk. rewrite Hc in Hk.
      destruct (decide (k = cacheKey query)) as [-> | Hne].
      * apply cacheKey_idem.
      * rewrite lookup_insert_ne in Hk by congruence. eapply IH. exact Hk.
  - rewrite Hsame in Hk. eapply IH. exact Hk.
Qed.

(** X19. In every state the process can reach, every key of the cache is
    in normal form (lower case, no blank space around it) and is not the
    name of a member of [Object.prototype], and the result stored under it
    has pairwise distinct spot ids and viral posts on every spot. *)
Theorem cache_entries_well_formed (w : World) (s : State) (k : string) (r : DiscoveryResult) :
  reachable w s ->
  requestCache s !! k = Some r ->
  cacheKey k = k
  /\ existsb (String.eqb k) Object_prototype = false
  /\ unique_ids r
  /\ posts_defined r.
Proof.
  intros Hreach Hk. split; [eapply reachable_keys; eassumption |]. split.
  - destruct (existsb (String.eqb k) Object_prototype) eqn:E; [| reflexivity].
    rewrite (inherited_never_stored w s k Hreach E) in Hk. discriminate Hk.
  - eapply reachable_cache; eassumption.
Qed.

Lemma cache_entries_well_formed_witness :
  exists r,
    requestCache (snd (fetchFoodSpots "  Paris " (Num 48.85) (Num 2.35) offline initial))
      !! "paris" = Some r
    /\ cacheKey "paris" = "paris"
    /\ unique_ids r.
Proof.
  eexists. split; [vm_compute; reflexivity |].
  match goal with
  | |- _ /\ unique_ids ?r =>
      destruct (cache_entries_well_formed offline
                  (snd (fetchFoodSpots "  Paris " (Num 48.85) (Num 2.35) offline initial))
                  "paris" r) as (Hkey & _ & Hids & _)
  end.
  - apply reach_fetch. apply reach_start. reflexivity.
  - vm_compute. reflexivity.
  - split; [exact Hkey | exact Hids].
Defined.

Lemma raises_refreshSpot spot : raises TypeError (refreshSpot spot).
Proof. unfold refreshSpot. repeat raises_step. Qed.

Lemma raises_refresh_all l index :
  raises TypeError (map_indexed (fun spot _ => refreshSpot spot) index l).
Proof. apply raises_map_indexed. intros. apply raises_refreshSpot. Qed.

(** X20. What the weekly refresh leaves on the page. With no spots held it
    does nothing. When it completes, the agent is idle again and the log has
    two more lines, one of the REFRESH agent and one of the IDLE agent. It
    throws nothing but a TypeError, and then the agent stays at REFRESH, so
    that the page stays in its loading state, with one more line in the log
    and the held spots as they were. *)
Theorem weeklyRefresh_outcomes (w : World) (s : State) :
  let out := weeklyRefresh w s in
  let u' := ui (snd out) in
  match heldSpots (ui s), fst out with
  | [], _ => out = (Ok tt, s)
  | _ :: _, Ok _ =>
      activeAgent u' = IDLE
      /\ isLoading u' = false
      /\ exists first last,
           agentLogs u' = (agentLogs (ui s) ++ [first; last])%list
           /\ agent first = REFRESH
           /\ message first = "Executing Weekly Analytics Refresh..."
           /\ agent last = IDLE
           /\ message last = "Refresh complete. Trends updated."
  | _ :: _, Throw e =>
      e = TypeError
      /\ activeAgent u' = REFRESH
      /\ isLoading u' = true
      /\ heldSpots u' = heldSpots (ui s)
      /\ exists first,
           agentLogs u' = (agentLogs (ui s) ++ [first])%list
           /\ agent first = REFRESH
  end.
Proof.
  cbv zeta. rewrite weeklyRefresh_flat.
  destruct (heldSpots (ui s)) as [| spot rest] eqn:Eheld; [reflexivity |].
  cbn [length Nat.eqb].
  rewrite bind_run. cbn [setActiveAgent modify]. rewrite bind_run, addLog_run.
  set (s1 := with_ui _ _). unfold refresh_callback. rewrite bind_run.
  pose proof (refresh_all_counters (spot :: rest) 0 w s1) as Hc.
  pose proof (raises_refresh_all (spot :: rest) 0 w s1) as Hraise.
  destruct (map_indexed (fun spot _ => refreshSpot spot) 0 (spot :: rest) w s1)
    as [[l' | e] s2]; cbn [snd] in Hc; destruct Hc as (_ & _ & _ & Hui & _).
  - rewrite bind_run. cbn [setSpots modify]. rewrite bind_run, addLog_run.
    cbn [fst snd setActiveAgent modify]. cbn. rewrite Hui. subst s1. cbn.
    split; [reflexivity |]. split; [reflexivity |].
    eexists. eexists. rewrite <- app_assoc. split; [reflexivity |]. auto.
  - cbn [fst snd]. rewrite Hui. subst s1. cbn.
    split; [eapply Hraise; reflexivity |]. split; [reflexivity |]. split; [reflexivity |].
    split; [exact Eheld |]. eexists. split; [reflexivity |]. reflexivity.
Qed.
